(** * amul_stock_monitor.py: the stock monitor, embedded and verified

    The module [amul_stock_monitor.py] holds one class, [StockMonitor].
    Its methods talk to the outside world all the time (HTTP, a headless
    browser, SMTP, the logger, the clock), so the embedding is a small
    state-and-exception monad over a [World] that records every external
    effect in a trace.  What the outside world answers is given by an
    environment [Env] of oracles; each oracle sees the trace so far, so two
    identical calls may be answered differently. *)

From Stdlib Require Import ZArith Ascii String List Bool Lia.
From stdpp Require Import base option gmap strings pretty list fin_maps.
Import ListNotations.
Local Open Scope string_scope.

(** ** Python strings

    A Python [str] is modelled by its UTF-8 bytes.  [str.lower] is modelled
    on the ASCII letters; the only use the program makes of it is the test
    ['sold out' in text.lower()], and no character outside ASCII lowers to
    one of the letters of that needle. *)

Module PyStr.

Definition lower_ascii (c : ascii) : ascii :=
  let n := nat_of_ascii c in
  if (65 <=? n)%nat && (n <=? 90)%nat then ascii_of_nat (n + 32) else c.

Fixpoint lower (s : string) : string :=
  match s with
  | EmptyString => EmptyString
  | String c s' => String (lower_ascii c) (lower s')
  end.

(** [startswith p s]: [s.startswith(p)]. *)
Fixpoint startswith (p s : string) : bool :=
  match p, s with
  | EmptyString, _ => true
  | String a p', String b s' => if Ascii.eqb a b then startswith p' s' else false
  | String _ _, EmptyString => false
  end.

(** [contains needle s]: the Python expression [needle in s]. *)
Fixpoint contains (needle s : string) : bool :=
  startswith needle s ||
  match s with
  | EmptyString => false
  | String _ s' => contains needle s'
  end.

(** [s.isascii()]: no byte of the UTF-8 form is above 127. *)
Fixpoint isascii (s : string) : bool :=
  match s with
  | EmptyString => true
  | String c s' => (nat_of_ascii c <? 128)%nat && isascii s'
  end.

End PyStr.

(** ** Exceptions *)

Inductive request_error := ConnectionError | Timeout | HTTPError | OtherRequestError.

Inductive exn :=
| KeyError (key : string)
| RequestException (kind : request_error) (msg : string)
| TimeoutException (msg : string)
| NoSuchElementException (msg : string)
| ValueError (msg : string)
| AttributeError (msg : string)
| UnicodeEncodeError (msg : string)
| OtherException (msg : string).

(** [str(e)] *)
Definition str (e : exn) : string :=
  match e with
  | KeyError key => "'" ++ key ++ "'"
  | RequestException _ msg => msg
  | TimeoutException msg => msg
  | NoSuchElementException msg => msg
  | ValueError msg => msg
  | AttributeError msg => msg
  | UnicodeEncodeError msg => msg
  | OtherException msg => msg
  end.

Definition is_RequestException (e : exn) : bool :=
  match e with RequestException _ _ => true | _ => false end.
Definition is_TimeoutException (e : exn) : bool :=
  match e with TimeoutException _ => true | _ => false end.
Definition is_NoSuchElementException (e : exn) : bool :=
  match e with NoSuchElementException _ => true | _ => false end.
(** [except Exception]: every member of [exn] is an [Exception].
    [KeyboardInterrupt] is not one, and is no member of [exn]: see
    [ending] below. *)
Definition is_Exception (e : exn) : bool := true.

(** ** Configuration (the JSON document behind [self.config])

    A product is a JSON object.  [product['name']] and [product['url']]
    raise [KeyError] when the key is missing, so both fields are optional
    here; the other keys are read with [product.get].

    The mail account [self.config['email']] is a JSON object as well, read
    with [email_config[key]] throughout: the outer [option] of a field says
    whether the key is there.  The two addresses and the password may be
    [None] (the inner [option]): [load_config] fills them from [os.getenv]
    without a default, lines 38-40. *)

Record EmailConfig := {
  smtp_server : option string;
  smtp_port : option Z;
  sender_email : option (option string);
  sender_password : option (option string);
  recipient_email : option (option string)
}.

Record Product := {
  name : option string;
  url : option string;
  use_selenium : bool;
  pincode : option string;
  pincode_selectors : gmap string string
}.

Record Config := {
  email : option EmailConfig;
  products : list Product;
  check_interval : Z;
  user_agent : string
}.

(** ** External effects *)

Inductive level := INFO | WARNING | ERROR.

Inductive By := CSS_SELECTOR | XPATH.

(** The conditions handed to [WebDriverWait(...).until]. *)
Inductive condition :=
| visibility_of_element_located (by_ : By) (selector : string)
| element_to_be_clickable (by_ : By) (selector : string)
| invisibility_of_element_located (by_ : By) (selector : string)
| ready_state_complete.

Inductive keys := Text (s : string) | RETURN.

Inductive element_action := clear | send_keys (k : keys) | click.

Inductive smtp_op :=
| SMTP (server : string) (port : Z)
| starttls
| login (user password : option string)
| sendmail (from_addr to_addrs : option string) (subject body : string)
| quit.

(** An element handle of the browser session. *)
Definition WebElement := nat.

Inductive event :=
| Log (lvl : level) (msg : string)
| Sleep (seconds : Z)
| HttpGet (url_ user_agent_ : string) (timeout : Z)
| HttpPost (url_ chat_id text : string) (timeout : Z)
| Smtp (op : smtp_op)
| ChromeStart (user_agent_ : string) (binary_location : option string)
| DriverGet (url_ : string)
| WaitUntil (timeout : Z) (c : condition)
| FindElement (by_ : By) (selector : string)
| ElementDo (el : WebElement) (a : element_action)
| ElementText (el : WebElement)
| DriverQuit.

Definition is_dom_event (e : event) : bool :=
  match e with
  | DriverGet _ | WaitUntil _ _ | FindElement _ _ | ElementDo _ _
  | ElementText _ => true
  | _ => false
  end.

Definition is_http_event (e : event) : bool :=
  match e with HttpGet _ _ _ | HttpPost _ _ _ _ => true | _ => false end.

(** A parsed document: what [soup.select_one(selector)] finds, and the
    [.text] of a tag. *)
Record Tag := { text : string }.
Record BeautifulSoup := { select_one : string -> option Tag }.

(** What [requests.get] hands back: [raise_for_status] is the exception
    that [response.raise_for_status()] raises, if it raises. *)
Record Response := {
  raise_for_status : option exn;
  content : string
}.

(** The outside world.  An oracle is asked with the trace of all effects
    so far. *)
Record Env := {
  getenv : string -> option string;
  path_exists : string -> bool;
  now : list event -> string;
  (** the text of the [UnicodeEncodeError] of [s.encode('ascii')], which
      names the first characters that are not ASCII and their position *)
  ascii_codec_error : string -> string;
  html_parser : string -> exn + BeautifulSoup;
  requests_get : list event -> string -> exn + Response;
  requests_post : list event -> string -> option exn;
  smtp : list event -> smtp_op -> option exn;
  chrome : list event -> option exn;
  driver_get : list event -> string -> option exn;
  wait_until : list event -> Z -> condition -> exn + WebElement;
  find_element : list event -> By -> string -> exn + WebElement;
  element_do : list event -> WebElement -> element_action -> option exn;
  element_text : list event -> WebElement -> exn + string;
  driver_quit : list event -> option exn;
  (** whether Ctrl-C arrives while [monitor_products] waits: during the
      sleep between two rounds, or during the pause after an error *)
  interrupted : list event -> bool
}.

(** Ghost record of the calls the theorems speak about; no oracle sees
    it. *)
Inductive call :=
| Checked (product_name : string) (is_in_stock : option bool)
| SendNotification (product_name product_url message : string)
| SendTelegramNotification (product_name product_url message : string).

Record World := {
  trace : list event;
  calls : list call;
  (** [self.driver] holds a session *)
  driver : bool;
  (** the dictionary [last_status] of [monitor_products] *)
  last_status : gmap string bool
}.

Definition initial_world : World :=
  {| trace := []; calls := []; driver := false; last_status := ∅ |}.

Definition with_trace (t : list event) (w : World) : World :=
  {| trace := t; calls := calls w; driver := driver w;
     last_status := last_status w |}.
Definition with_calls (c : list call) (w : World) : World :=
  {| trace := trace w; calls := c; driver := driver w;
     last_status := last_status w |}.
Definition with_driver (d : bool) (w : World) : World :=
  {| trace := trace w; calls := calls w; driver := d;
     last_status := last_status w |}.
Definition with_last_status (ls : gmap string bool) (w : World) : World :=
  {| trace := trace w; calls := calls w; driver := driver w;
     last_status := ls |}.

(** ** The monad *)

Inductive result (A : Type) :=
| Ok (a : A)
| Raise (e : exn).
Arguments Ok {A} a.
Arguments Raise {A} e.

Definition M (A : Type) : Type := World -> result A * World.

Definition ret {A} (a : A) : M A := fun w => (Ok a, w).

Definition bind {A B} (m : M A) (f : A -> M B) : M B :=
  fun w => match m w with
           | (Ok a, w') => f a w'
           | (Raise e, w') => (Raise e, w')
           end.

Definition raise {A} (e : exn) : M A := fun w => (Raise e, w).

#[global] Instance M_ret : MRet M := @ret.
#[global] Instance M_bind : MBind M := fun A B f m => bind m f.

(** [try: body  except <catches> as e: handler e] *)
Definition try_except {A} (body : M A) (catches : exn -> bool)
    (handler : exn -> M A) : M A :=
  fun w => match body w with
           | (Raise e, w') => if catches e then handler e w' else (Raise e, w')
           | r => r
           end.

(** [try: body  finally: fin] *)
Definition try_finally {A} (body : M A) (fin : M unit) : M A :=
  fun w => match body w with
           | (r, w') => match fin w' with
                        | (Ok _, w'') => (r, w'')
                        | (Raise e, w'') => (Raise e, w'')
                        end
           end.

Definition emit (ev : event) : M unit :=
  fun w => (Ok tt, with_trace (trace w ++ [ev]) w).

Definition note (c : call) : M unit :=
  fun w => (Ok tt, with_calls (calls w ++ [c]) w).

Definition get_driver : M bool := fun w => (Ok (driver w), w).

Definition set_driver (d : bool) : M unit :=
  fun w => (Ok tt, with_driver d w).

Definition get_last_status : M (gmap string bool) :=
  fun w => (Ok (last_status w), w).

Definition set_last_status (ls : gmap string bool) : M unit :=
  fun w => (Ok tt, with_last_status ls w).

(** An external call: the oracle answers from the trace so far, and the
    call is appended to the trace. *)
Definition ask {A} (ev : event) (oracle : list event -> exn + A) : M A :=
  fun w =>
    match oracle (trace w) with
    | inl e => (Raise e, with_trace (trace w ++ [ev]) w)
    | inr a => (Ok a, with_trace (trace w ++ [ev]) w)
    end.

Definition ask_ (ev : event) (oracle : list event -> option exn) : M unit :=
  ask ev (fun h => match oracle h with Some e => inl e | None => inr tt end).

(** [d[key]] on a JSON object whose entry is [v]. *)
Definition getitem {A} (key : string) (v : option A) : M A :=
  match v with
  | Some s => ret s
  | None => raise (KeyError key)
  end.

(** Truth value of [os.getenv(...)] or [product.get(...)]: [None] and the
    empty string are false. *)
Definition truthy (v : option string) : bool :=
  match v with
  | Some (String _ _) => true
  | _ => false
  end.

(** The newline of the f-strings. *)
Definition nl : string := String (ascii_of_nat 10) EmptyString.

(** How a run of [monitor_products] stands after some rounds.
    [KeyboardInterrupt] derives from [BaseException], not from [Exception]:
    the only clause of the program that catches it is line 374.  The model
    lets it arrive where [monitor_products] waits, at lines 372 and 379
    (see [interruptible_sleep]); signals at other moments are not
    modelled.  An interrupt that no clause catches ends the run with
    [uncaught_KeyboardInterrupt]. *)
Inductive ending :=
| still_running               (* the rounds of the model are used up *)
| stopped_by_user             (* [break], line 376; then lines 381-382 *)
| uncaught_KeyboardInterrupt. (* raised at line 379, caught nowhere *)

(** ** The methods of [StockMonitor] *)

Section StockMonitor.

Context (env : Env) (config : Config).

Definition logger_info (msg : string) : M unit := emit (Log INFO msg).
Definition logger_warning (msg : string) : M unit := emit (Log WARNING msg).
Definition logger_error (msg : string) : M unit := emit (Log ERROR msg).

(** [datetime.now().strftime('%Y-%m-%d %H:%M:%S')] *)
Definition datetime_now : M string := fun w => (Ok (now env (trace w)), w).

(** [time.sleep(seconds)] *)
Definition sleep (seconds : Z) : M unit := emit (Sleep seconds).

(** [WebDriverWait(self.driver, timeout).until(c)] *)
Definition WebDriverWait_until (timeout : Z) (c : condition) : M WebElement :=
  ask (WaitUntil timeout c) (fun h => wait_until env h timeout c).

Definition driver_find_element (by_ : By) (selector : string) : M WebElement :=
  ask (FindElement by_ selector) (fun h => find_element env h by_ selector).

Definition element (el : WebElement) (a : element_action) : M unit :=
  ask_ (ElementDo el a) (fun h => element_do env h el a).

(** [setup_selenium_driver]: returns whether a driver is returned. *)
Definition setup_selenium_driver : M bool :=
  d ← get_driver;
  if d : bool then mret true else
  try_except
    (let chrome_binary :=
       default "/usr/bin/chromium-browser" (getenv env "CHROME_BIN") in
     let binary_location :=
       if path_exists env chrome_binary then Some chrome_binary else None in
     ask_ (ChromeStart (user_agent config) binary_location) (chrome env);;
     set_driver true;;
     logger_info "Selenium driver setup successful";;
     mret true)
    is_Exception
    (fun e =>
       logger_error ("Failed to setup Selenium driver: " +:+ str e);;
       mret false).

(** [selectors.get('modal', '#locationWidgetModal')] and
    [selectors.get('input', '#search')], lines 104-105. *)
Definition modal_selector (product : Product) : string :=
  default "#locationWidgetModal" (pincode_selectors product !! "modal").
Definition input_selector (product : Product) : string :=
  default "#search" (pincode_selectors product !! "input").

(** [handle_pincode_modal] *)
Definition handle_pincode_modal (product : Product) : M bool :=
  try_except
    (let pincode_ := pincode product in
     let selectors := pincode_selectors product in
     if negb (truthy pincode_) then mret true else
     let pin := default "" pincode_ in
     let modal_selector := modal_selector product in
     let input_selector := input_selector product in
     (* the inner try: [false] stands for the handler's [return True] *)
     active ← try_except
       (WebDriverWait_until 5
          (visibility_of_element_located CSS_SELECTOR modal_selector);;
        WebDriverWait_until 5
          (element_to_be_clickable CSS_SELECTOR input_selector);;
        logger_info "Pincode modal detected and active";;
        mret true)
       is_TimeoutException
       (fun _ => logger_info "No active pincode modal found";; mret false);
     if negb active then mret true else
     (* fill the pincode *)
     pincode_input ← driver_find_element CSS_SELECTOR input_selector;
     element pincode_input clear;;
     element pincode_input (send_keys (Text pin));;
     logger_info ("Entered pincode: " +:+ pin);;
     (* select the matching pincode from the dropdown *)
     try_except
       (let dropdown_xpath :=
          "//p[contains(@class, 'item-name') and text()='" +:+ pin +:+ "']" in
        matching_item ← WebDriverWait_until 10
          (element_to_be_clickable XPATH dropdown_xpath);
        element matching_item click;;
        logger_info ("Selected matching pincode from dropdown: " +:+ pin))
       is_TimeoutException
       (fun _ =>
          logger_warning ("Dropdown with pincode " +:+ pin
                          +:+ " not found. Trying to proceed without it."));;
     (* submit *)
     let submit_selector := default ".btn-success" (selectors !! "submit_button") in
     try_except
       (submit_button ← driver_find_element CSS_SELECTOR submit_selector;
        element submit_button click;;
        logger_info "Clicked submit button")
       is_NoSuchElementException
       (fun _ =>
          element pincode_input (send_keys RETURN);;
          logger_info "Pressed Enter on pincode input");;
     (* wait for the modal to disappear *)
     WebDriverWait_until 10
       (invisibility_of_element_located CSS_SELECTOR modal_selector);;
     sleep 2;;
     logger_info "Pincode modal handled successfully";;
     mret true)
    is_Exception
    (fun e =>
       logger_error ("Failed to handle pincode modal: " +:+ str e);;
       mret false).

(** A verdict: [is_in_stock] ([None], [True] or [False]) and the reason. *)
Definition verdict : Type := option bool * string.

(** [check_stock_with_selenium], lines 177-191: open the page.  [Some
    reason] stands for the early [return None, reason]. *)
Definition selenium_open_page (product : Product) : M (option string) :=
  d ← get_driver;
  ready ← (if d : bool then mret true else
           d' ← setup_selenium_driver;
           set_driver d';;
           mret d');
  if negb ready then mret (Some "Selenium driver setup failed") else
  u ← getitem "url" (url product);
  ask_ (DriverGet u) (fun h => driver_get env h u);;
  handled ← handle_pincode_modal product;
  if negb handled then mret (Some "Failed to handle pincode modal") else
  WebDriverWait_until 15 ready_state_complete;;
  mret None.

(** [check_stock_with_selenium], lines 193-203: look for the out-of-stock
    alert in the rendered page. *)
Definition selenium_look_for_alert : M verdict :=
  found ← try_except
    (alert_element ← driver_find_element CSS_SELECTOR "div.alert.alert-danger";
     alert_text ← ask (ElementText alert_element)
                      (fun h => element_text env h alert_element);
     if PyStr.contains "sold out" (PyStr.lower alert_text)
     then mret (Some (Some false, "Explicit 'Sold Out' alert found"))
     else mret None)
    is_NoSuchElementException
    (fun _ => mret (Some (Some true,
                          "No 'Sold Out' alert — assuming product is in stock")));
  match found with
  | Some v => mret v
  | None =>
      (* safety fallback *)
      mret (Some false, "Unable to determine stock status from alert element")
  end.

Definition check_stock_with_selenium (product : Product) : M verdict :=
  try_except
    (early ← selenium_open_page product;
     match early with
     | Some reason => mret (None, reason)
     | None => selenium_look_for_alert
     end)
    is_Exception
    (fun e =>
       product_name ← getitem "name" (name product);
       logger_error ("Selenium check failed for " +:+ product_name +:+ ": "
                     +:+ str e);;
       mret (None, "Selenium error: " +:+ str e)).

(** [check_stock_with_requests], lines 212-223: fetch and parse. *)
Definition requests_fetch (product : Product) : M BeautifulSoup :=
  u ← getitem "url" (url product);
  response ← ask (HttpGet u (user_agent config) 10)
                 (fun h => requests_get env h u);
  match raise_for_status response with
  | Some e => raise e
  | None =>
      match html_parser env (content response) with
      | inl e => raise e
      | inr soup => mret soup
      end
  end.

(** [check_stock_with_requests], lines 225-230: look for the sold out
    alert div. *)
Definition requests_look_for_alert (soup : BeautifulSoup) : verdict :=
  let alert_div := select_one soup "div.alert.alert-danger.mt-3" in
  match alert_div with
  | Some tag =>
      if PyStr.contains "sold out" (PyStr.lower (text tag))
      then (Some false, "Explicit 'Sold Out' alert found")
      else (Some true, "No 'Sold Out' alert — assuming product is in stock")
  | None => (Some true, "No 'Sold Out' alert — assuming product is in stock")
  end.

Definition check_stock_with_requests (product : Product) : M verdict :=
  try_except
    (soup ← requests_fetch product;
     mret (requests_look_for_alert soup))
    is_Exception
    (fun e =>
       if is_RequestException e then
         (* except requests.RequestException as e *)
         product_name ← getitem "name" (name product);
         logger_error ("Request failed for " +:+ product_name +:+ ": "
                       +:+ str e);;
         mret (None, "Request failed: " +:+ str e)
       else
         (* except Exception as e *)
         product_name ← getitem "name" (name product);
         logger_error ("Error checking " +:+ product_name +:+ ": " +:+ str e);;
         mret (None, "Error: " +:+ str e)).

(** [check_stock_status] *)
Definition check_stock_status (product : Product) : M verdict :=
  if use_selenium product
  then check_stock_with_selenium product
  else check_stock_with_requests product.

(** [formataddr((str(Header('Stock Bot', 'utf-8')), address))], line 245.
    [formataddr] starts with [address.encode('ascii')]: [None] has no such
    method, and an address that is not ASCII raises [UnicodeEncodeError].
    The display name is the plain string ['Stock Bot']. *)
Definition formataddr (address : option string) : M string :=
  match address with
  | None => raise (AttributeError "'NoneType' object has no attribute 'encode'")
  | Some a =>
      if PyStr.isascii a then mret ("Stock Bot <" +:+ a +:+ ">")
      else raise (UnicodeEncodeError (ascii_codec_error env a))
  end.

(** [send_notification]: the email channel.  The values read from
    [email_config] more than once (lines 245, 261 and 264; 246 and 265)
    are read once here: nothing changes the dictionary in between. *)
Definition send_notification (product_name product_url message : string)
    : M bool :=
  note (SendNotification product_name product_url message);;
  try_except
    (email_config ← getitem "email" (email config);
     (* the message, lines 244-257 *)
     sender ← getitem "sender_email" (sender_email email_config);
     from_ ← formataddr sender;
     to_ ← getitem "recipient_email" (recipient_email email_config);
     let subject := "STOCK ALERT: " +:+ product_name +:+ " is available!" in
     checked_at ← datetime_now;
     let body :=
       "✅ The product '" +:+ product_name +:+ "' is now available!" +:+ nl +:+ nl
       +:+ "🛒 Product URL: " +:+ product_url +:+ nl
       +:+ "📦 Status: " +:+ message +:+ nl
       +:+ "⏰ Checked at: " +:+ checked_at +:+ nl +:+ nl
       +:+ "Visit the URL to buy it now." +:+ nl in
     (* the SMTP session, lines 259-269 *)
     server_ ← getitem "smtp_server" (smtp_server email_config);
     port ← getitem "smtp_port" (smtp_port email_config);
     (let op := SMTP server_ port in
      ask_ (Smtp op) (fun h => smtp env h op));;
     ask_ (Smtp starttls) (fun h => smtp env h starttls);;
     password ← getitem "sender_password" (sender_password email_config);
     (let op := login sender password in
      ask_ (Smtp op) (fun h => smtp env h op));;
     (let op := sendmail sender to_ subject body in
      ask_ (Smtp op) (fun h => smtp env h op));;
     ask_ (Smtp quit) (fun h => smtp env h quit);;
     logger_info ("Notification sent for " +:+ product_name);;
     mret true)
    is_Exception
    (fun e =>
       logger_error ("Failed to send notification: " +:+ str e);;
       mret false).

(** [send_telegram_notification]: the chat channel. *)
Definition send_telegram_notification
    (product_name product_url message : string) : M bool :=
  note (SendTelegramNotification product_name product_url message);;
  let bot_token := getenv env "TELEGRAM_BOT_TOKEN" in
  let chat_id := getenv env "TELEGRAM_CHAT_ID" in
  if negb (truthy bot_token) || negb (truthy chat_id) then mret false else
  try_except
    (sent_at ← datetime_now;
     let telegram_message :=
       "🚨 *STOCK ALERT*" +:+ nl +:+ nl
       +:+ "✅ *" +:+ product_name +:+ "* is now available!" +:+ nl +:+ nl
       +:+ "🛒 [Buy Now](" +:+ product_url +:+ ")" +:+ nl
       +:+ "📦 Status: " +:+ message +:+ nl
       +:+ "⏰ " +:+ sent_at in
     let url_ := "https://api.telegram.org/bot" +:+ default "" bot_token
                 +:+ "/sendMessage" in
     ask_ (HttpPost url_ (default "" chat_id) telegram_message 10)
          (fun h => requests_post env h url_);;
     logger_info ("Telegram notification sent for " +:+ product_name);;
     mret true)
    is_Exception
    (fun e =>
       logger_error ("Failed to send Telegram notification: " +:+ str e);;
       mret false).

(** [if self.driver: self.driver.quit()] *)
Definition quit_driver_if_any (after : M unit) : M unit :=
  d ← get_driver;
  if d : bool then ask_ DriverQuit (driver_quit env);; after else mret tt.

(** [run_single_check], lines 318-333: the body of the [for] loop. *)
Definition single_check_step (product : Product) : M unit :=
  product_name ← getitem "name" (name product);
  logger_info ("Checking " +:+ product_name +:+ "...");;
  '(is_in_stock, message) ← check_stock_status product;
  note (Checked product_name is_in_stock);;
  match is_in_stock with
  | None => mret tt                           (* continue *)
  | Some b =>
      (if b : bool then
         logger_info ("ALERT: " +:+ product_name +:+ " is IN STOCK!");;
         u ← getitem "url" (url product);
         send_notification product_name u message;;
         u ← getitem "url" (url product);
         send_telegram_notification product_name u message;;
         mret tt
       else
         logger_info ("WAITING: " +:+ product_name +:+ " is out of stock"));;
      sleep 2
  end.

(** [for product in ...: body] *)
Fixpoint for_each (body : Product -> M unit) (ps : list Product) : M unit :=
  match ps with
  | [] => mret tt
  | p :: ps' => body p;; for_each body ps'
  end.

(** [run_single_check] *)
Definition run_single_check : M unit :=
  logger_info "Starting single stock check...";;
  try_finally
    (try_except
       (for_each single_check_step (products config))
       is_Exception
       (fun e => logger_error ("Unexpected error during check: " +:+ str e)))
    (quit_driver_if_any (logger_info "Browser closed")).

(** [last_status.get(product_name) in [None, False]] *)
Definition in_None_False (v : option bool) : bool :=
  match v with
  | None | Some false => true
  | Some true => false
  end.

(** [monitor_products], lines 350-369: the body of the [for] loop. *)
Definition monitor_step (product : Product) : M unit :=
  product_name ← getitem "name" (name product);
  logger_info ("Checking " +:+ product_name +:+ "...");;
  '(is_in_stock, message) ← check_stock_status product;
  note (Checked product_name is_in_stock);;
  match is_in_stock with
  | None => mret tt                           (* continue *)
  | Some b =>
      ls ← get_last_status;
      (if b && in_None_False (ls !! product_name) then
         logger_info ("ALERT: " +:+ product_name +:+ " is NOW IN STOCK!");;
         u ← getitem "url" (url product);
         send_notification product_name u message;;
         u ← getitem "url" (url product);
         send_telegram_notification product_name u message;;
         mret tt
       else if b : bool then
         logger_info ("OK: " +:+ product_name +:+ " is in stock")
       else
         logger_info ("WAITING: " +:+ product_name +:+ " is out of stock"));;
      ls ← get_last_status;
      set_last_status (<[product_name := b]> ls);;
      sleep 2
  end.

(** [time.sleep(seconds)] at the two places where [monitor_products]
    waits, lines 372 and 379.  A negative length raises [ValueError] before
    anything is slept.  Otherwise the answer is whether [KeyboardInterrupt]
    arrives during the wait; what that means depends on the place, see
    [monitor_loop]. *)
Definition interruptible_sleep (seconds : Z) : M bool :=
  if (seconds <? 0)%Z
  then raise (ValueError "sleep length must be non-negative")
  else fun w => (Ok (interrupted env (trace w)),
                 with_trace (trace w ++ [Sleep seconds]) w).

(** [time.sleep(self.config['check_interval'])], line 372. *)
Definition sleep_until_next_check : M bool :=
  interruptible_sleep (check_interval config).

(** [while True: ...] of [monitor_products], for at most [fuel] rounds.

    [KeyboardInterrupt] during the sleep of line 372 is raised inside the
    [try] and caught by the clause of line 374, which logs and leaves the
    loop by [break].  [KeyboardInterrupt] during the pause of line 379 is
    raised inside the handler of [except Exception]: the clause of line
    374 belongs to the same [try] statement and does not catch it, so it
    leaves the loop, and [monitor_products], uncaught. *)
Fixpoint monitor_loop (fuel : nat) : M ending :=
  match fuel with
  | O => mret still_running
  | S fuel' =>
      round ← try_except
        (for_each monitor_step (products config);;
         logger_info ("Waiting " +:+ pretty (check_interval config)
                      +:+ " seconds before next check...");;
         interrupt ← sleep_until_next_check;
         if interrupt : bool then
           (* except KeyboardInterrupt *)
           logger_info "Monitor stopped by user";;
           mret stopped_by_user
         else mret still_running)
        is_Exception
        (fun e =>
           logger_error ("Unexpected error: " +:+ str e);;
           interrupt ← interruptible_sleep 60;
           if interrupt : bool then mret uncaught_KeyboardInterrupt
           else mret still_running);
      match round with
      | still_running => monitor_loop fuel'
      | _ => mret round
      end
  end.

(** [monitor_products], run for at most [fuel] rounds of the loop.  Lines
    381-382 are reached from the [break] only. *)
Definition monitor_products (fuel : nat) : M ending :=
  logger_info "Starting continuous stock monitor...";;
  set_last_status ∅;;
  how ← monitor_loop fuel;
  match how with
  | stopped_by_user => quit_driver_if_any (mret tt);; mret stopped_by_user
  | _ => mret how
  end.

End StockMonitor.

(** * Vocabulary of the theorems *)

(** The words of the specification: [text] contains [needle] as a
    substring when the case of the letters is ignored. *)
Definition contains_ignoring_case (needle text_ : string) : Prop :=
  exists pre mid post,
    text_ = pre +:+ mid +:+ post /\ PyStr.lower mid = PyStr.lower needle.

(** The reason text of a failed static check. *)
Definition failure_reason (e : exn) : string :=
  (if is_RequestException e then "Request failed: " else "Error: ") +:+ str e.

(** ** Status tracker

    The transition policy in the words of the specification: the tracked
    state of a product is unknown ([None]), InStock ([Some true]) or
    OutOfStock ([Some false]). *)

Definition tracker_notifies (last verdict_ : option bool) : bool :=
  match verdict_, last with
  | Some true, None => true          (* unknown -> InStock *)
  | Some true, Some false => true    (* OutOfStock -> InStock *)
  | _, _ => false
  end.

Definition tracker_next (last verdict_ : option bool) : option bool :=
  match verdict_ with
  | Some b => Some b
  | None => last                     (* Indeterminate: state unchanged *)
  end.

(** ** Reading the record of calls *)

(** Whether a recorded call is about the product called [n]. *)
Definition about (n : string) (c : call) : bool :=
  match c with
  | Checked n' _ => String.eqb n n'
  | SendNotification n' _ _ => String.eqb n n'
  | SendTelegramNotification n' _ _ => String.eqb n n'
  end.

(** The verdicts observed for [n], in order. *)
Fixpoint verdicts_for (n : string) (cs : list call) : list (option bool) :=
  match cs with
  | [] => []
  | Checked n' v :: cs' =>
      if String.eqb n n' then v :: verdicts_for n cs' else verdicts_for n cs'
  | _ :: cs' => verdicts_for n cs'
  end.

(** How often each channel was invoked for [n]. *)
Fixpoint emails_for (n : string) (cs : list call) : nat :=
  match cs with
  | [] => 0
  | SendNotification n' _ _ :: cs' =>
      if String.eqb n n' then S (emails_for n cs') else emails_for n cs'
  | _ :: cs' => emails_for n cs'
  end.

Fixpoint chats_for (n : string) (cs : list call) : nat :=
  match cs with
  | [] => 0
  | SendTelegramNotification n' _ _ :: cs' =>
      if String.eqb n n' then S (chats_for n cs') else chats_for n cs'
  | _ :: cs' => chats_for n cs'
  end.

(** The number of notifications the transition policy asks for along a
    sequence of verdicts, from the tracked state [last]. *)
Fixpoint expected_notifications (last : option bool)
    (vs : list (option bool)) : nat :=
  match vs with
  | [] => 0
  | v :: vs' =>
      (if tracker_notifies last v then 1 else 0)
      + expected_notifications (tracker_next last v) vs'
  end.

(** [Tracked n s cs s']: read from the tracked state [s], the record [cs]
    is what the transition policy allows for [n], and leaves the state
    [s'].  A verdict that warrants a notification is followed at once by
    one call of each channel; no other call of a channel for [n] occurs. *)
Inductive Tracked (n : string) : option bool -> list call -> option bool -> Prop :=
| Tracked_nil s :
    Tracked n s [] s
| Tracked_quiet s v cs s' :
    tracker_notifies s v = false ->
    Tracked n (tracker_next s v) cs s' ->
    Tracked n s (Checked n v :: cs) s'
| Tracked_notify s v u u' m m' cs s' :
    tracker_notifies s v = true ->
    Tracked n (tracker_next s v) cs s' ->
    Tracked n s (Checked n v :: SendNotification n u m
                 :: SendTelegramNotification n u' m' :: cs) s'
| Tracked_other s c cs s' :
    about n c = false ->
    Tracked n s cs s' ->
    Tracked n s (c :: cs) s'.

(** ** Two properties of computations

    [ghost_frame m]: [m] neither records a call nor touches [last_status].
    [never_raises m]: [m] returns a value from every world. *)

Definition ghost_frame {A} (m : M A) : Prop :=
  forall w, calls (snd (m w)) = calls w
            /\ last_status (snd (m w)) = last_status w.

Definition never_raises {A} (m : M A) : Prop :=
  forall w, exists a, fst (m w) = Ok a.

(** ** The invariant of the monitoring loop

    [cs0] is the record before the loop started.  What was recorded since
    is, for every product name, what the policy allows from the unknown
    state, and leaves the state that [last_status] holds for that name. *)

Definition loop_invariant (cs0 : list call) (w : World) : Prop :=
  exists cs, calls w = (cs0 ++ cs)%list
             /\ forall n, Tracked n None cs (last_status w !! n).

Definition keeps {A} (P : World -> Prop) (m : M A) : Prop :=
  forall w, P w -> P (snd (m w)).

(** ** Reading the trace *)

Definition is_log (ev : event) : bool :=
  match ev with Log _ _ => true | _ => false end.

Definition is_chrome_start (ev : event) : bool :=
  match ev with ChromeStart _ _ => true | _ => false end.

Definition is_driver_quit (ev : event) : bool :=
  match ev with DriverQuit => true | _ => false end.

(** Every event but the quitting of the browser. *)
Definition no_quit (ev : event) : bool := negb (is_driver_quit ev).

(** What was done besides logging. *)
Definition effects (t : list event) : list event :=
  List.filter (fun ev => negb (is_log ev)) t.

(** [emits p m]: [m] only adds events to the trace, and every event it
    adds satisfies [p]. *)
Definition emits {A} (p : event -> bool) (m : M A) : Prop :=
  forall w, exists t, trace (snd (m w)) = (trace w ++ t)%list
                      /\ Forall (fun ev => p ev = true) t.

(** The event of [webdriver.Chrome(options=chrome_options)], lines 64-87:
    the binary location is set when the path of [CHROME_BIN], or the
    default path, exists. *)
Definition chrome_start_event (env : Env) (config : Config) : event :=
  ChromeStart (user_agent config)
    (if path_exists env
          (default "/usr/bin/chromium-browser" (getenv env "CHROME_BIN"))
     then Some (default "/usr/bin/chromium-browser" (getenv env "CHROME_BIN"))
     else None).

(** [selectors.get('submit_button', '.btn-success')], line 142, and the
    XPath of the dropdown entry, line 132. *)
Definition submit_selector (product : Product) : string :=
  default ".btn-success" (pincode_selectors product !! "submit_button").

Definition dropdown_xpath (pin : string) : string :=
  "//p[contains(@class, 'item-name') and text()='" +:+ pin +:+ "']".

(** What [handle_pincode_modal] does with an active modal, lines 124-158.
    [dropdown] is the entry found for the pincode, if one shows up in
    time; [button] is the submit button, if there is one; [gone] is the
    outcome of the wait for the modal to disappear. *)
Definition modal_dialogue (product : Product) (pin : string)
    (pincode_input : WebElement) (dropdown button : option WebElement)
    (gone : exn + WebElement) : list event :=
  [WaitUntil 5
     (visibility_of_element_located CSS_SELECTOR (modal_selector product));
   WaitUntil 5
     (element_to_be_clickable CSS_SELECTOR (input_selector product));
   Log INFO "Pincode modal detected and active";
   FindElement CSS_SELECTOR (input_selector product);
   ElementDo pincode_input clear;
   ElementDo pincode_input (send_keys (Text pin));
   Log INFO ("Entered pincode: " +:+ pin);
   WaitUntil 10 (element_to_be_clickable XPATH (dropdown_xpath pin))]
  ++ match dropdown with
     | Some matching_item =>
         [ElementDo matching_item click;
          Log INFO ("Selected matching pincode from dropdown: " +:+ pin)]
     | None =>
         [Log WARNING ("Dropdown with pincode " +:+ pin
                       +:+ " not found. Trying to proceed without it.")]
     end
  ++ [FindElement CSS_SELECTOR (submit_selector product)]
  ++ match button with
     | Some submit_button =>
         [ElementDo submit_button click; Log INFO "Clicked submit button"]
     | None =>
         [ElementDo pincode_input (send_keys RETURN);
          Log INFO "Pressed Enter on pincode input"]
     end
  ++ [WaitUntil 10
        (invisibility_of_element_located CSS_SELECTOR (modal_selector product))]
  ++ match gone with
     | inr _ => [Sleep 2; Log INFO "Pincode modal handled successfully"]
     | inl e => [Log ERROR ("Failed to handle pincode modal: " +:+ str e)]
     end.

(** The five steps of the SMTP session of [send_notification], lines
    259-269. *)
Definition smtp_session (server : string) (port : Z)
    (sender password recipient : option string) (subject body : string)
    : list event :=
  [Smtp (SMTP server port);
   Smtp starttls;
   Smtp (login sender password);
   Smtp (sendmail sender recipient subject body);
   Smtp quit].

(** What lines 242-259 need of the configuration to get as far as the
    connection to the mail server: the mail account is there, with a sender
    address that is an ASCII string, a recipient entry, a server and a
    port. *)
Definition mail_account (config : Config) (server : string) (port : Z)
    (sender : string) (recipient : option string) : Prop :=
  exists email_config,
    email config = Some email_config
    /\ sender_email email_config = Some (Some sender)
    /\ PyStr.isascii sender = true
    /\ recipient_email email_config = Some recipient
    /\ smtp_server email_config = Some server
    /\ smtp_port email_config = Some port.

(** The names of the products that were checked, in order. *)
Fixpoint checked (cs : list call) : list string :=
  match cs with
  | [] => []
  | Checked n _ :: cs' => n :: checked cs'
  | _ :: cs' => checked cs'
  end.

(** The line a checker logs when it catches [e]: lines 206, 233 and
    236. *)
Definition check_failure_log (product : Product) (product_name : string)
    (e : exn) : event :=
  Log ERROR
    ((if use_selenium product then "Selenium check failed for "
      else if is_RequestException e then "Request failed for "
      else "Error checking ")
     +:+ product_name +:+ ": " +:+ str e).

(** "sold out" spelled with each letter in either case, written out
    letter by letter. *)
Definition either_case (small capital c : ascii) : Prop :=
  c = small \/ c = capital.

Definition spells_sold_out (mid : string) : Prop :=
  exists c1 c2 c3 c4 c6 c7 c8,
    mid = String c1 (String c2 (String c3 (String c4 (String " "
            (String c6 (String c7 (String c8 EmptyString)))))))
    /\ either_case "s" "S" c1 /\ either_case "o" "O" c2
    /\ either_case "l" "L" c3 /\ either_case "d" "D" c4
    /\ either_case "o" "O" c6 /\ either_case "u" "U" c7
    /\ either_case "t" "T" c8.

Definition shows_sold_out (text_ : string) : Prop :=
  exists pre mid post, text_ = pre +:+ mid +:+ post /\ spells_sold_out mid.

(** The body of the mail, lines 249-255, and the text of the chat
    message, lines 286-292. *)
Definition email_body (product_name product_url message checked_at : string)
    : string :=
  "✅ The product '" +:+ product_name +:+ "' is now available!" +:+ nl +:+ nl
  +:+ "🛒 Product URL: " +:+ product_url +:+ nl
  +:+ "📦 Status: " +:+ message +:+ nl
  +:+ "⏰ Checked at: " +:+ checked_at +:+ nl +:+ nl
  +:+ "Visit the URL to buy it now." +:+ nl.

Definition telegram_text (product_name product_url message sent_at : string)
    : string :=
  "🚨 *STOCK ALERT*" +:+ nl +:+ nl
  +:+ "✅ *" +:+ product_name +:+ "* is now available!" +:+ nl +:+ nl
  +:+ "🛒 [Buy Now](" +:+ product_url +:+ ")" +:+ nl
  +:+ "📦 Status: " +:+ message +:+ nl
  +:+ "⏰ " +:+ sent_at.

(** The number of InStock verdicts in a sequence. *)
Fixpoint count_in_stock (vs : list (option bool)) : nat :=
  match vs with
  | [] => 0
  | Some true :: vs' => S (count_in_stock vs')
  | _ :: vs' => count_in_stock vs'
  end.

(** The configuration with another list of products. *)
Definition set_products (ps : list Product) (config : Config) : Config :=
  {| email := email config; products := ps;
     check_interval := check_interval config;
     user_agent := user_agent config |}.

(** ** More properties of computations and worlds *)

(** The first event a computation adds, from a world that satisfies
    [P]. *)
Definition starts_with {A} (ev : event) (P : World -> Prop) (m : M A) : Prop :=
  forall w, P w -> exists t, trace (snd (m w)) = (trace w ++ ev :: t)%list.

(** [session_kept m]: from a world that holds a browser session, [m] keeps
    it and starts no browser. *)
Definition session_kept {A} (m : M A) : Prop :=
  forall w, driver w = true ->
    driver (snd (m w)) = true
    /\ exists t, trace (snd (m w)) = (trace w ++ t)%list
                 /\ Forall (fun ev => is_chrome_start ev = false) t.

(** What holds of the record of a single check: [cs0] and [ls0] are the
    record and [last_status] before it started. *)
Definition single_check_invariant (cs0 : list call)
    (ls0 : gmap string bool) (w : World) : Prop :=
  last_status w = ls0
  /\ exists cs, calls w = (cs0 ++ cs)%list
                /\ forall n,
                    emails_for n cs = count_in_stock (verdicts_for n cs)
                    /\ chats_for n cs = count_in_stock (verdicts_for n cs).

(** [last_status] holds entries for names of configured products only. *)
Definition tracks_configured_names (config : Config) (w : World) : Prop :=
  forall n, is_Some (last_status w !! n) ->
            exists p, In p (products config) /\ name p = Some n.

(** ** Scenarios: concrete products, pages and environments *)

Module Scenario.

Definition mail : EmailConfig :=
  {| smtp_server := Some "smtp.gmail.com"; smtp_port := Some 587%Z;
     sender_email := Some (Some "bot@example.org");
     sender_password := Some (Some "secret");
     recipient_email := Some (Some "me@example.org") |}.

(** The account that [load_config] builds from the environment when
    [SENDER_EMAIL] is not set, and one whose sender address is not
    ASCII. *)
Definition mail_of (sender : option string) : EmailConfig :=
  {| smtp_server := Some "smtp.gmail.com"; smtp_port := Some 587%Z;
     sender_email := Some sender;
     sender_password := Some (Some "secret");
     recipient_email := Some (Some "me@example.org") |}.

(** A product checked with [requests]. *)
Definition widget : Product :=
  {| name := Some "Widget"; url := Some "https://shop.example/widget";
     use_selenium := false; pincode := None; pincode_selectors := ∅ |}.

(** An entry of the product list without the key ['name']. *)
Definition nameless : Product :=
  {| name := None; url := Some "https://shop.example/other";
     use_selenium := false; pincode := None; pincode_selectors := ∅ |}.

(** Two products checked with Selenium, the second with a pincode. *)
Definition ghee : Product :=
  {| name := Some "Ghee"; url := Some "https://shop.example/ghee";
     use_selenium := true; pincode := None; pincode_selectors := ∅ |}.

Definition lassi : Product :=
  {| name := Some "Lassi"; url := Some "https://shop.example/lassi";
     use_selenium := true; pincode := Some "110001";
     pincode_selectors := ∅ |}.

Definition config_of (ps : list Product) : Config :=
  {| email := Some mail; products := ps; check_interval := 300;
     user_agent := "Mozilla/5.0" |}.

(** A configuration with another mail account and check interval. *)
Definition config_with (account : option EmailConfig) (interval : Z)
    (ps : list Product) : Config :=
  {| email := account; products := ps; check_interval := interval;
     user_agent := "Mozilla/5.0" |}.

(** What the ASCII codec says about an address with an accented letter
    in second place. *)
Definition codec_error (s : string) : string :=
  "'ascii' codec can't encode character '\xe9' in position 1: "
  +:+ "ordinal not in range(128)".

(** Three pages: no alert, the sold-out alert, an alert that says
    something else. *)
Definition alert_page (alert_text : string) : BeautifulSoup :=
  {| select_one := fun selector =>
       if String.eqb selector "div.alert.alert-danger.mt-3"
       then Some {| text := alert_text |} else None |}.

Definition parser (content_ : string) : exn + BeautifulSoup :=
  if String.eqb content_ "" then inr {| select_one := fun _ => None |}
  else inr (alert_page content_).

Definition http_gets (h : list event) : nat :=
  length (List.filter is_http_event h).

(** An environment: [fetch] answers [requests.get], [wait] answers
    [WebDriverWait.until], [find] answers [find_element], [alert_text] is
    the text of every element; the chat channel is not configured, and
    nobody interrupts. *)
Definition environment
    (fetch : list event -> exn + Response)
    (wait : condition -> exn + WebElement)
    (find : exn + WebElement) (alert_text : string) : Env :=
  {| getenv := fun _ => None;
     path_exists := fun _ => false;
     now := fun _ => "2024-05-01 12:00:00";
     ascii_codec_error := codec_error;
     html_parser := parser;
     requests_get := fun h _ => fetch h;
     requests_post := fun _ _ => None;
     smtp := fun _ _ => None;
     chrome := fun _ => None;
     driver_get := fun _ _ => None;
     wait_until := fun _ _ c => wait c;
     find_element := fun _ _ _ => find;
     element_do := fun _ _ _ => None;
     element_text := fun _ _ => inr alert_text;
     driver_quit := fun _ => None;
     interrupted := fun _ => false |}.

Definition page (content_ : string) : exn + Response :=
  inr {| raise_for_status := None; content := content_ |}.

Definition no_modal (c : condition) : exn + WebElement :=
  match c with
  | ready_state_complete => inr 0
  | _ => inl (TimeoutException "Message: ")
  end.

(** The modal shows, its input never becomes clickable. *)
Definition stuck_modal (c : condition) : exn + WebElement :=
  match c with
  | element_to_be_clickable _ _ => inl (TimeoutException "Message: ")
  | _ => inr 1
  end.

Definition no_element : exn + WebElement :=
  inl (NoSuchElementException "Message: no such element").

(** Every page is in stock. *)
Definition in_stock : Env :=
  environment (fun _ => page "") no_modal no_element "".

(** Every page shows the sold-out alert. *)
Definition sold_out : Env :=
  environment (fun _ => page "Sold Out") no_modal (inr 1) "SOLD OUT".

(** The shop cannot be reached. *)
Definition offline : Env :=
  environment
    (fun _ => inl (RequestException ConnectionError "Connection refused"))
    no_modal no_element "".

(** The page is in stock at the first fetch, sold out at the second, in
    stock again from the third on. *)
Definition restocked : Env :=
  environment
    (fun h => if Nat.eqb (http_gets h) 1 then page "Sold Out" else page "")
    no_modal no_element "".

(** The rendered page has an alert that says something else. *)
Definition other_alert : Env :=
  environment (fun _ => page "Only 2 left") no_modal (inr 1) "Only 2 left".

Definition modal_stuck : Env :=
  environment (fun _ => page "") stuck_modal no_element "".

End Scenario.

(** ** More scenarios *)

Module MoreScenarios.
Import Scenario.

(** [base] with other answers of the mail server, and with the chat
    channel configured when [chat] is set. *)
Definition with_mail_and_chat (base : Env)
    (mail_server : smtp_op -> option exn) (chat : bool)
    (post : option exn) : Env :=
  {| getenv := fun key =>
       if chat then
         if String.eqb key "TELEGRAM_BOT_TOKEN" then Some "123:abc"
         else if String.eqb key "TELEGRAM_CHAT_ID" then Some "42"
         else getenv base key
       else getenv base key;
     path_exists := path_exists base;
     now := now base;
     ascii_codec_error := ascii_codec_error base;
     html_parser := html_parser base;
     requests_get := requests_get base;
     requests_post := fun _ _ => post;
     smtp := fun _ op => mail_server op;
     chrome := chrome base;
     driver_get := driver_get base;
     wait_until := wait_until base;
     find_element := find_element base;
     element_do := element_do base;
     element_text := element_text base;
     driver_quit := driver_quit base;
     interrupted := interrupted base |}.

(** [base] with other answers of the browser: starting it, quitting it,
    and the interrupt. *)
Definition with_browser (base : Env) (start stop : option exn)
    (interrupt : list event -> bool) : Env :=
  {| getenv := getenv base;
     path_exists := path_exists base;
     now := now base;
     ascii_codec_error := ascii_codec_error base;
     html_parser := html_parser base;
     requests_get := requests_get base;
     requests_post := requests_post base;
     smtp := smtp base;
     chrome := fun _ => start;
     driver_get := driver_get base;
     wait_until := wait_until base;
     find_element := find_element base;
     element_do := element_do base;
     element_text := element_text base;
     driver_quit := fun _ => stop;
     interrupted := interrupt |}.

(** The mail server refuses the login. *)
Definition login_refused (op : smtp_op) : option exn :=
  match op with
  | login _ _ => Some (OtherException "(535, 'Authentication failed')")
  | _ => None
  end.

(** The mail server cannot be reached. *)
Definition no_mail_server (op : smtp_op) : option exn :=
  Some (OtherException "[Errno 111] Connection refused").

Definition mail_works (op : smtp_op) : option exn := None.

(** In stock, login refused, chat not configured. *)
Definition bad_password : Env :=
  with_mail_and_chat in_stock login_refused false None.

(** In stock, no mail server, chat configured and working. *)
Definition chat_only : Env :=
  with_mail_and_chat in_stock no_mail_server true None.

(** In stock, both channels working. *)
Definition both_channels : Env :=
  with_mail_and_chat in_stock mail_works true None.

(** Chrome does not start. *)
Definition no_chrome : Env :=
  with_browser in_stock (Some (OtherException "chrome not reachable")) None
    (fun _ => false).



(** A page with an active pincode modal.  The input is element 2; the
    dropdown entry (element 3) shows up when [dropdown] is set; the submit
    button (element 4) exists when [button] is set; the modal disappears
    when [closes] is set. *)
Definition modal_page (dropdown button closes : bool) : Env :=
  {| getenv := fun _ => None;
     path_exists := fun _ => false;
     now := fun _ => "2024-05-01 12:00:00";
     ascii_codec_error := codec_error;
     html_parser := parser;
     requests_get := fun _ _ => page "";
     requests_post := fun _ _ => None;
     smtp := fun _ _ => None;
     chrome := fun _ => None;
     driver_get := fun _ _ => None;
     wait_until := fun _ _ c =>
       match c with
       | visibility_of_element_located _ _ => inr 1
       | element_to_be_clickable CSS_SELECTOR _ => inr 2
       | element_to_be_clickable XPATH _ =>
           if dropdown then inr 3 else inl (TimeoutException "Message: ")
       | invisibility_of_element_located _ _ =>
           if closes then inr 0 else inl (TimeoutException "Message: ")
       | ready_state_complete => inr 0
       end;
     find_element := fun _ _ selector =>
       if String.eqb selector "#search" then inr 2
       else if String.eqb selector ".btn-success" then
         if button then inr 4
         else inl (NoSuchElementException "Message: no such element")
       else inl (NoSuchElementException "Message: no such element");
     element_do := fun _ _ _ => None;
     element_text := fun _ _ => inr "";
     driver_quit := fun _ => None;
     interrupted := fun _ => false |}.

End MoreScenarios.

(** * Verification *)

Example lower_mixed : PyStr.lower "SoLd OuT!" = "sold out!".
Proof. reflexivity. Qed.


(** ** Running the monad *)

Lemma run_bind {A B} (m : M A) (f : A -> M B) (w : World) :
  (m ≫= f) w = match m w with
               | (Ok a, w') => f a w'
               | (Raise e, w') => (Raise e, w')
               end.
Proof. reflexivity. Qed.

Lemma run_ret {A} (a : A) (w : World) : (mret a : M A) w = (Ok a, w).
Proof. reflexivity. Qed.

Ltac run_monad :=
  unfold logger_info, logger_warning, logger_error, sleep, element,
    WebDriverWait_until, driver_find_element, ask_, getitem in *;
  unfold mbind, M_bind, mret, M_ret, bind, ret, raise, try_except,
    try_finally, ask, emit, note, get_driver, set_driver, get_last_status,
    set_last_status, datetime_now in *;
  simpl in *.

(** ** Modal resolver *)

(** C7: a product with no configured pincode value: [handle_pincode_modal]
    returns [True] at once and leaves the world as it found it, so no
    effect at all, and in particular no DOM interaction, takes place. *)
Theorem handle_pincode_modal_without_pincode
    (env : Env) (product : Product) (w : World) :
  pincode product = None \/ pincode product = Some "" ->
  handle_pincode_modal env product w = (Ok true, w).
Proof.
  intros [H | H]; unfold handle_pincode_modal; rewrite H; reflexivity.
Qed.

(** C8: a pincode is configured and the 5-second wait for the overlay
    container ends in [TimeoutException] (the modal never became visible):
    the modal resolver returns [True]; all it did was that one wait and one
    log line. *)
Theorem handle_pincode_modal_never_visible
    (env : Env) (product : Product) (pin : string) (w : World) (msg : string) :
  pincode product = Some pin -> pin <> "" ->
  wait_until env (trace w) 5
    (visibility_of_element_located CSS_SELECTOR (modal_selector product))
    = inl (TimeoutException msg) ->
  handle_pincode_modal env product w
  = (Ok true,
     with_trace
       (trace w ++
        [WaitUntil 5
           (visibility_of_element_located CSS_SELECTOR (modal_selector product));
         Log INFO "No active pincode modal found"]) w).
Proof.
  intros Hpin Hne Hwait.
  unfold handle_pincode_modal. rewrite Hpin.
  destruct pin as [|c pin']; [congruence|]. run_monad.
  rewrite Hwait. simpl.
  unfold with_trace; simpl. rewrite <- app_assoc. reflexivity.
Qed.

(** C10: a pincode is configured, the overlay container becomes visible,
    and the following 5-second wait for the text input to be clickable ends
    in [TimeoutException]: the same handler catches it, the modal resolver
    returns [True], and the trace holds the two waits and the log line of
    the no-modal case only: nothing was typed into the input. *)
Theorem handle_pincode_modal_input_not_clickable
    (env : Env) (product : Product) (pin : string) (w : World)
    (modal : WebElement) (msg : string) :
  pincode product = Some pin -> pin <> "" ->
  wait_until env (trace w) 5
    (visibility_of_element_located CSS_SELECTOR (modal_selector product))
    = inr modal ->
  wait_until env
    (trace w ++
     [WaitUntil 5
        (visibility_of_element_located CSS_SELECTOR (modal_selector product))])
    5 (element_to_be_clickable CSS_SELECTOR (input_selector product))
    = inl (TimeoutException msg) ->
  handle_pincode_modal env product w
  = (Ok true,
     with_trace
       (trace w ++
        [WaitUntil 5
           (visibility_of_element_located CSS_SELECTOR (modal_selector product));
         WaitUntil 5
           (element_to_be_clickable CSS_SELECTOR (input_selector product));
         Log INFO "No active pincode modal found"]) w).
Proof.
  intros Hpin Hne Hvis Hclick.
  unfold handle_pincode_modal. rewrite Hpin.
  destruct pin as [|c pin']; [congruence|]. run_monad.
  rewrite Hvis. simpl. rewrite Hclick. simpl.
  unfold with_trace; simpl. rewrite <- !app_assoc. reflexivity.
Qed.

(** ** Strings: what ['sold out' in text.lower()] decides *)

Module PyStrFacts.
Import PyStr.

Lemma startswith_append (p s : string) : startswith p (p +:+ s) = true.
Proof.
  induction p as [|c p IH]; simpl; [reflexivity|].
  rewrite Ascii.eqb_refl. exact IH.
Qed.

Lemma startswith_inv (p s : string) :
  startswith p s = true -> exists post, s = p +:+ post.
Proof.
  revert s. induction p as [|c p IH]; intros s H; simpl in *.
  - exists s. reflexivity.
  - destruct s as [|d s]; [discriminate|].
    destruct (Ascii.eqb_spec c d) as [->|]; [|discriminate].
    destruct (IH s H) as [post ->]. exists post. reflexivity.
Qed.

Lemma contains_append (needle pre post : string) :
  contains needle (pre +:+ needle +:+ post) = true.
Proof.
  induction pre as [|c pre IH].
  - simpl. destruct (needle +:+ post) eqn:E; simpl;
      rewrite <- ?E, startswith_append; reflexivity.
  - simpl. rewrite IH. apply orb_true_r.
Qed.

Lemma contains_inv (needle s : string) :
  contains needle s = true -> exists pre post, s = pre +:+ needle +:+ post.
Proof.
  induction s as [|c s IH]; simpl; intros H.
  - rewrite orb_false_r in H. apply startswith_inv in H as [post ->].
    exists "", post. reflexivity.
  - apply orb_true_iff in H as [H|H].
    + apply startswith_inv in H as [post ->]. exists "", post. reflexivity.
    + destruct (IH H) as (pre & post & ->).
      exists (String c pre), post. reflexivity.
Qed.

Lemma lower_append (a b : string) : lower (a +:+ b) = lower a +:+ lower b.
Proof. induction a as [|c a IH]; simpl; [reflexivity|]. now rewrite IH. Qed.

Lemma lower_append_inv (s a b : string) :
  lower s = a +:+ b ->
  exists s1 s2, s = s1 +:+ s2 /\ lower s1 = a /\ lower s2 = b.
Proof.
  revert s. induction a as [|c a IH]; intros s H.
  - exists "", s. auto.
  - destruct s as [|d s]; simpl in H; [discriminate|].
    injection H as Hc Hs. destruct (IH s Hs) as (s1 & s2 & -> & H1 & H2).
    exists (String d s1), s2. simpl. rewrite Hc, H1. auto.
Qed.

Lemma contains_lower_iff (needle text_ : string) :
  lower needle = needle ->
  contains needle (lower text_) = true <-> contains_ignoring_case needle text_.
Proof.
  intros Hn. split.
  - intros H. apply contains_inv in H as (pre & post & H).
    apply lower_append_inv in H as (s1 & s23 & -> & H1 & H23).
    apply lower_append_inv in H23 as (s2 & s3 & -> & H2 & H3).
    exists s1, s2, s3. rewrite Hn. auto.
  - intros (pre & mid & post & -> & Hmid).
    rewrite !lower_append, Hmid, Hn. apply contains_append.
Qed.

Lemma sold_out_iff (text_ : string) :
  contains "sold out" (lower text_) = true
  <-> contains_ignoring_case "sold out" text_.
Proof. apply contains_lower_iff. reflexivity. Qed.

Lemma sold_out_dec (text_ : string) :
  contains "sold out" (lower text_) = false
  <-> ~ contains_ignoring_case "sold out" text_.
Proof.
  rewrite <- sold_out_iff. destruct (contains _ _); split; congruence.
Qed.

End PyStrFacts.

(** ** Stock classifier, static variant *)

Import PyStrFacts.

Ltac tidy_world :=
  unfold with_trace, with_calls, with_driver, with_last_status; simpl;
  rewrite <- ?app_assoc; simpl.

(** C2: the page was fetched and parsed.  When the first element matching
    ['div.alert.alert-danger.mt-3'] is there and its text contains "sold
    out" in any case, the verdict is [False] with the sold-out reason; when
    the element is absent, or there with a text that does not contain "sold
    out", the verdict is [True] with the assuming-in-stock reason. *)
Theorem check_stock_with_requests_classifies
    (env : Env) (config : Config) (product : Product) (u : string)
    (w : World) (response : Response) (soup : BeautifulSoup) :
  url product = Some u ->
  requests_get env (trace w) u = inr response ->
  raise_for_status response = None ->
  html_parser env (content response) = inr soup ->
  (forall tag,
      select_one soup "div.alert.alert-danger.mt-3" = Some tag ->
      contains_ignoring_case "sold out" (text tag) ->
      check_stock_with_requests env config product w
      = (Ok (Some false, "Explicit 'Sold Out' alert found"),
         with_trace (trace w ++ [HttpGet u (user_agent config) 10]) w))
  /\ (select_one soup "div.alert.alert-danger.mt-3" = None
      \/ (exists tag,
             select_one soup "div.alert.alert-danger.mt-3" = Some tag
             /\ ~ contains_ignoring_case "sold out" (text tag)) ->
      check_stock_with_requests env config product w
      = (Ok (Some true, "No 'Sold Out' alert — assuming product is in stock"),
         with_trace (trace w ++ [HttpGet u (user_agent config) 10]) w)).
Proof.
  intros Hu Hget Hstatus Hparse.
  assert (Hrun : check_stock_with_requests env config product w
                 = (Ok (requests_look_for_alert soup),
                    with_trace (trace w ++ [HttpGet u (user_agent config) 10]) w)).
  { unfold check_stock_with_requests, requests_fetch. rewrite Hu. run_monad.
    rewrite Hget. simpl. rewrite Hstatus, Hparse. reflexivity. }
  rewrite Hrun. unfold requests_look_for_alert. split.
  - intros tag Htag Hsold. rewrite Htag.
    apply sold_out_iff in Hsold. rewrite Hsold. reflexivity.
  - intros [Hnone | (tag & Htag & Hnot)].
    + rewrite Hnone. reflexivity.
    + rewrite Htag. apply sold_out_dec in Hnot. rewrite Hnot. reflexivity.
Qed.

(** C6: the static checker returns a verdict and never raises, on every
    product the program hands to it: both loops read [product['name']]
    (lines 318 and 350) before they call the checker, so the product has a
    name.  A missing URL, an exception of [requests.get] (network failure,
    timeout), of [raise_for_status] (non-success status) or of the parser
    gives [None] with the failure reason built from the exception; a
    fetched and parsed page gives a verdict that is not [None]. *)
Theorem check_stock_with_requests_never_raises
    (env : Env) (config : Config) (product : Product) (product_name : string)
    (w : World) :
  name product = Some product_name ->
  exists is_in_stock reason w',
    check_stock_with_requests env config product w
    = (Ok (is_in_stock, reason), w')
    /\ match url product with
       | None => is_in_stock = None /\ reason = failure_reason (KeyError "url")
       | Some u =>
           match requests_get env (trace w) u with
           | inl e => is_in_stock = None /\ reason = failure_reason e
           | inr response =>
               match raise_for_status response with
               | Some e => is_in_stock = None /\ reason = failure_reason e
               | None =>
                   match html_parser env (content response) with
                   | inl e => is_in_stock = None /\ reason = failure_reason e
                   | inr soup =>
                       is_in_stock <> None
                       /\ (is_in_stock, reason) = requests_look_for_alert soup
                   end
               end
           end
       end.
Proof.
  intros Hname.
  unfold check_stock_with_requests, requests_fetch, failure_reason.
  rewrite Hname. run_monad.
  destruct (url product) as [u|]; simpl; [|eauto 6].
  destruct (requests_get env (trace w) u) as [e|response]; simpl.
  { destruct (is_RequestException e); simpl; eauto 6. }
  destruct (raise_for_status response) as [e|]; simpl.
  { destruct (is_RequestException e); simpl; eauto 6. }
  destruct (html_parser env (content response)) as [e|soup]; simpl.
  { destruct (is_RequestException e); simpl; eauto 6. }
  destruct (requests_look_for_alert soup) as [v reason] eqn:E.
  exists v, reason. eexists. split; [reflexivity|]. split; [|reflexivity].
  unfold requests_look_for_alert in E.
  destruct (select_one soup _) as [tag|];
    [destruct (PyStr.contains _ _)|]; inversion E; discriminate.
Qed.

(** ** Stock classifier, dynamic variant *)

(** C3, as the code has it: the page was opened (driver at hand, page
    loaded, modal resolved, document ready).  No element matches
    ['div.alert.alert-danger']: the verdict is [True].  The element is there
    and its text contains "sold out" in any case: the verdict is [False].
    The element is there with another text: the verdict is [False] with the
    reason "Unable to determine stock status from alert element", where the
    static checker answers [True] for such an element. *)
Theorem check_stock_with_selenium_classifies
    (env : Env) (config : Config) (product : Product) (w w1 : World) :
  selenium_open_page env config product w = (Ok None, w1) ->
  (forall msg,
      find_element env (trace w1) CSS_SELECTOR "div.alert.alert-danger"
      = inl (NoSuchElementException msg) ->
      check_stock_with_selenium env config product w
      = (Ok (Some true, "No 'Sold Out' alert — assuming product is in stock"),
         with_trace
           (trace w1 ++ [FindElement CSS_SELECTOR "div.alert.alert-danger"]) w1))
  /\ (forall alert_element alert_text,
      find_element env (trace w1) CSS_SELECTOR "div.alert.alert-danger"
      = inr alert_element ->
      element_text env
        (trace w1 ++ [FindElement CSS_SELECTOR "div.alert.alert-danger"])
        alert_element = inr alert_text ->
      (contains_ignoring_case "sold out" alert_text ->
       check_stock_with_selenium env config product w
       = (Ok (Some false, "Explicit 'Sold Out' alert found"),
          with_trace
            (trace w1 ++ [FindElement CSS_SELECTOR "div.alert.alert-danger";
                          ElementText alert_element]) w1))
      /\ (~ contains_ignoring_case "sold out" alert_text ->
          check_stock_with_selenium env config product w
          = (Ok (Some false,
                 "Unable to determine stock status from alert element"),
             with_trace
               (trace w1 ++ [FindElement CSS_SELECTOR "div.alert.alert-danger";
                             ElementText alert_element]) w1)))
  /\ (forall soup tag,
      select_one soup "div.alert.alert-danger.mt-3" = Some tag ->
      ~ contains_ignoring_case "sold out" (text tag) ->
      requests_look_for_alert soup
      = (Some true, "No 'Sold Out' alert — assuming product is in stock")).
Proof.
  intros Hopen.
  assert (Hrun : check_stock_with_selenium env config product w
                 = try_except (selenium_look_for_alert env) is_Exception
                     (fun e =>
                        product_name ← getitem "name" (name product);
                        logger_error ("Selenium check failed for "
                                      +:+ product_name +:+ ": " +:+ str e);;
                        mret (None, "Selenium error: " +:+ str e)) w1).
  { unfold check_stock_with_selenium, try_except at 1.
    rewrite run_bind, Hopen. reflexivity. }
  rewrite Hrun. clear Hrun Hopen. split; [|split].
  - intros msg Hfind. unfold selenium_look_for_alert. run_monad.
    rewrite Hfind. reflexivity.
  - intros el t Hfind Htext. split; intros Hsold.
    + apply sold_out_iff in Hsold.
      unfold selenium_look_for_alert. run_monad.
      rewrite Hfind. simpl. rewrite Htext. simpl. rewrite Hsold. simpl.
      tidy_world. reflexivity.
    + apply sold_out_dec in Hsold.
      unfold selenium_look_for_alert. run_monad.
      rewrite Hfind. simpl. rewrite Htext. simpl. rewrite Hsold. simpl.
      tidy_world. reflexivity.
  - intros soup tag Htag Hsold. apply sold_out_dec in Hsold.
    unfold requests_look_for_alert. rewrite Htag, Hsold. reflexivity.
Qed.

Section Combinators.
Context {A B : Type}.

Lemma frame_ret (a : A) : ghost_frame (mret a : M A).
Proof. intros w. split; reflexivity. Qed.

Lemma frame_raise (e : exn) : ghost_frame (raise e : M A).
Proof. intros w. split; reflexivity. Qed.

Lemma frame_bind (m : M A) (f : A -> M B) :
  ghost_frame m -> (forall a, ghost_frame (f a)) -> ghost_frame (m ≫= f).
Proof.
  intros Hm Hf w. rewrite run_bind. specialize (Hm w).
  destruct (m w) as [[a|e] w1]; simpl in *.
  - destruct (Hf a w1) as [H1 H2]. destruct Hm as [H3 H4].
    rewrite H1, H2. auto.
  - exact Hm.
Qed.

Lemma frame_try_except (body : M A) (catches : exn -> bool)
    (handler : exn -> M A) :
  ghost_frame body -> (forall e, ghost_frame (handler e)) ->
  ghost_frame (try_except body catches handler).
Proof.
  intros Hb Hh w. unfold try_except. specialize (Hb w).
  destruct (body w) as [[a|e] w1]; simpl in *; [exact Hb|].
  destruct (catches e); simpl; [|exact Hb].
  destruct (Hh e w1) as [H1 H2]. destruct Hb as [H3 H4].
  rewrite H1, H2. auto.
Qed.

Lemma frame_ask (ev : event) (oracle : list event -> exn + A) :
  ghost_frame (ask ev oracle).
Proof. intros w. unfold ask. destruct (oracle _); split; reflexivity. Qed.

Lemma total_ret (a : A) : never_raises (mret a : M A).
Proof. intros w. exists a. reflexivity. Qed.

Lemma total_bind (m : M A) (f : A -> M B) :
  never_raises m -> (forall a, never_raises (f a)) -> never_raises (m ≫= f).
Proof.
  intros Hm Hf w. rewrite run_bind. destruct (Hm w) as [a Ha].
  destruct (m w) as [r w1]; simpl in Ha; subst r. apply Hf.
Qed.

(** A handler that catches every exception and never raises itself makes
    the whole [try] statement safe, whatever its body does. *)
Lemma total_try_except (body : M A) (handler : exn -> M A) :
  (forall e, never_raises (handler e)) ->
  never_raises (try_except body is_Exception handler).
Proof.
  intros Hh w. unfold try_except.
  destruct (body w) as [[a|e] w1]; simpl; [eauto|]. apply Hh.
Qed.

End Combinators.

Lemma frame_ask_ (ev : event) (oracle : list event -> option exn) :
  ghost_frame (ask_ ev oracle).
Proof. apply frame_ask. Qed.

Lemma frame_emit (ev : event) : ghost_frame (emit ev).
Proof. intros w. split; reflexivity. Qed.

Lemma frame_get_driver : ghost_frame get_driver.
Proof. intros w. split; reflexivity. Qed.

Lemma frame_set_driver (d : bool) : ghost_frame (set_driver d).
Proof. intros w. split; reflexivity. Qed.

Lemma frame_getitem {A} (key : string) (v : option A) :
  ghost_frame (getitem key v).
Proof. destruct v; [apply frame_ret | apply frame_raise]. Qed.

Lemma total_emit (ev : event) : never_raises (emit ev).
Proof. intros w. exists tt. reflexivity. Qed.

Lemma total_note (c : call) : never_raises (note c).
Proof. intros w. exists tt. reflexivity. Qed.

Lemma total_getitem (key s : string) : never_raises (getitem key (Some s)).
Proof. apply total_ret. Qed.

Create HintDb frame.
#[local] Hint Resolve frame_ret frame_raise frame_ask frame_ask_ frame_emit
  frame_get_driver frame_set_driver frame_getitem : frame.

Ltac frame_step :=
  match goal with
  | |- forall _, _ => intro
  | |- ghost_frame (_ ≫= _) => apply frame_bind
  | |- ghost_frame (try_except _ _ _) => apply frame_try_except
  | |- ghost_frame (if ?b then _ else _) => destruct b
  | |- ghost_frame (match ?x with _ => _ end) => destruct x
  | |- ghost_frame (let _ := _ in _) => cbv zeta
  | |- ghost_frame _ => solve [auto with frame]
  end.

Ltac frame_solve := repeat frame_step.

Section MethodFacts.
Context (env : Env) (config : Config).

Lemma frame_setup_selenium_driver :
  ghost_frame (setup_selenium_driver env config).
Proof.
  unfold setup_selenium_driver, logger_info, logger_error. frame_solve.
Qed.

Lemma frame_handle_pincode_modal (product : Product) :
  ghost_frame (handle_pincode_modal env product).
Proof.
  unfold handle_pincode_modal, logger_info, logger_warning, logger_error,
    sleep, element, WebDriverWait_until, driver_find_element.
  frame_solve.
Qed.

Lemma frame_check_stock_with_selenium (product : Product) :
  ghost_frame (check_stock_with_selenium env config product).
Proof.
  pose proof frame_setup_selenium_driver.
  pose proof frame_handle_pincode_modal.
  unfold check_stock_with_selenium, selenium_open_page,
    selenium_look_for_alert, logger_error, WebDriverWait_until,
    driver_find_element.
  frame_solve.
Qed.

Lemma frame_check_stock_with_requests (product : Product) :
  ghost_frame (check_stock_with_requests env config product).
Proof.
  unfold check_stock_with_requests, requests_fetch, logger_error.
  frame_solve.
Qed.

Lemma frame_check_stock_status (product : Product) :
  ghost_frame (check_stock_status env config product).
Proof.
  unfold check_stock_status. destruct (use_selenium product);
    [apply frame_check_stock_with_selenium
    |apply frame_check_stock_with_requests].
Qed.

End MethodFacts.

Section CheckerFacts.
Context (env : Env) (config : Config).

Lemma total_check_stock_status (product : Product) (product_name : string) :
  name product = Some product_name ->
  never_raises (check_stock_status env config product).
Proof.
  intros Hname. unfold check_stock_status.
  destruct (use_selenium product).
  - unfold check_stock_with_selenium. apply total_try_except. intros e.
    rewrite Hname. apply total_bind; [apply total_ret|intros].
    apply total_bind; [apply total_emit|intros; apply total_ret].
  - unfold check_stock_with_requests. apply total_try_except. intros e.
    rewrite Hname.
    destruct (is_RequestException e);
      (apply total_bind; [apply total_ret|intros];
       apply total_bind; [apply total_emit|intros; apply total_ret]).
Qed.

(** A verdict other than [None] is only reached through [product['url']]. *)
Lemma check_stock_status_url (product : Product) (w w' : World)
    (b : bool) (message : string) :
  check_stock_status env config product w = (Ok (Some b, message), w') ->
  exists u, url product = Some u.
Proof.
  destruct (url product) as [u|] eqn:Hurl; [eauto|]. intros H. exfalso.
  revert H. unfold check_stock_status. destruct (use_selenium product).
  - unfold check_stock_with_selenium, selenium_open_page,
      setup_selenium_driver.
    rewrite Hurl. run_monad.
    destruct (driver w) eqn:Hdriver; simpl; rewrite ?Hdriver; simpl.
    + destruct (name product); simpl; congruence.
    + destruct (chrome env (trace w)); simpl;
        destruct (name product); simpl; congruence.
  - unfold check_stock_with_requests, requests_fetch.
    rewrite Hurl. run_monad.
    destruct (name product); simpl; congruence.
Qed.

(** The email channel, case by case.  Without a usable mail account
    nothing happens but the error log.  With one, the SMTP session runs
    until a step raises, or the password is found missing, or to its
    end. *)
Lemma send_notification_cases (product_name product_url message : string)
    (w : World) :
  exists (sent : bool) (t : list event),
    send_notification env config product_name product_url message w
    = (Ok sent,
       with_trace (trace w ++ t)
         (with_calls
            (calls w ++ [SendNotification product_name product_url message])
            w))
    /\ ((~ (exists server port sender recipient,
               mail_account config server port sender recipient)
         /\ sent = false
         /\ exists e,
             t = [Log ERROR ("Failed to send notification: " +:+ str e)])
        \/ exists server port sender recipient password,
             mail_account config server port sender recipient
             /\ ((sent = true
                  /\ (exists ec, email config = Some ec
                                 /\ sender_password ec = Some password)
                  /\ t = (smtp_session server port (Some sender) password
                            recipient
                            ("STOCK ALERT: " +:+ product_name
                             +:+ " is available!")
                            (email_body product_name product_url message
                               (now env (trace w)))
                          ++ [Log INFO ("Notification sent for "
                                        +:+ product_name)])%list)
                 \/ (sent = false
                     /\ exists (done : nat) (e : exn),
                         0 < done <= 5
                         /\ t = (firstn done
                                   (smtp_session server port (Some sender)
                                      password recipient
                                      ("STOCK ALERT: " +:+ product_name
                                       +:+ " is available!")
                                      (email_body product_name product_url
                                         message (now env (trace w))))
                                 ++ [Log ERROR
                                       ("Failed to send notification: "
                                        +:+ str e)])%list))).
Proof.
  unfold send_notification, formataddr, smtp_session, email_body,
    mail_account.
  run_monad.
  destruct (email config) as [ec|] eqn:Hec; simpl.
  2:{ exists false. eexists. split; [reflexivity|]. left.
      split; [intros (?&?&?&?&?&?&?); congruence|].
      split; [reflexivity|]. exists (KeyError "email"). reflexivity. }
  destruct (sender_email ec) as [[sender|]|] eqn:Hsender; simpl.
  3:{ exists false. eexists. split; [reflexivity|]. left.
      split; [intros (?&?&?&?&?&?&?&?); congruence|].
      split; [reflexivity|]. exists (KeyError "sender_email"). reflexivity. }
  2:{ exists false. eexists. split; [reflexivity|]. left.
      split; [intros (?&?&?&?&?&?&?&?); congruence|].
      split; [reflexivity|].
      exists (AttributeError "'NoneType' object has no attribute 'encode'").
      reflexivity. }
  destruct (PyStr.isascii sender) eqn:Hascii; simpl.
  2:{ exists false. eexists. split; [reflexivity|]. left.
      split; [intros (?&?&?&?&?&?&?&?&?); congruence|].
      split; [reflexivity|].
      exists (UnicodeEncodeError (ascii_codec_error env sender)).
      reflexivity. }
  destruct (recipient_email ec) as [recipient|] eqn:Hrecipient; simpl.
  2:{ exists false. eexists. split; [reflexivity|]. left.
      split; [intros (?&?&?&?&?&?&?&?&?&?); congruence|].
      split; [reflexivity|]. exists (KeyError "recipient_email").
      reflexivity. }
  destruct (smtp_server ec) as [server|] eqn:Hserver; simpl.
  2:{ exists false. eexists. split; [reflexivity|]. left.
      split; [intros (?&?&?&?&?&?&?&?&?&?&?); congruence|].
      split; [reflexivity|]. exists (KeyError "smtp_server"). reflexivity. }
  destruct (smtp_port ec) as [port|] eqn:Hport; simpl.
  2:{ exists false. eexists. split; [reflexivity|]. left.
      split; [intros (?&?&?&?&?&?&?&?&?&?&?); congruence|].
      split; [reflexivity|]. exists (KeyError "smtp_port"). reflexivity. }
  assert (Haccount : exists email_config,
             Some ec = Some email_config
             /\ sender_email email_config = Some (Some sender)
             /\ PyStr.isascii sender = true
             /\ recipient_email email_config = Some recipient
             /\ smtp_server email_config = Some server
             /\ smtp_port email_config = Some port)
    by (exists ec; auto 7).
  destruct (smtp env (trace w) (SMTP server port)) as [e|]; simpl.
  { exists false. eexists. split; [tidy_world; reflexivity|]. right.
    exists server, port, sender, recipient, None.
    split; [exact Haccount|]. right. split; [reflexivity|].
    exists 1%nat, e. split; [lia|reflexivity]. }
  destruct (smtp env _ starttls) as [e|]; simpl.
  { exists false. eexists. split; [tidy_world; reflexivity|]. right.
    exists server, port, sender, recipient, None.
    split; [exact Haccount|]. right. split; [reflexivity|].
    exists 2%nat, e. split; [lia|reflexivity]. }
  destruct (sender_password ec) as [password|] eqn:Hpassword; simpl.
  2:{ exists false. eexists. split; [tidy_world; reflexivity|]. right.
      exists server, port, sender, recipient, None.
      split; [exact Haccount|]. right. split; [reflexivity|].
      exists 2%nat, (KeyError "sender_password"). split; [lia|reflexivity]. }
  destruct (smtp env _ (login _ _)) as [e|]; simpl.
  { exists false. eexists. split; [tidy_world; reflexivity|]. right.
    exists server, port, sender, recipient, password.
    split; [exact Haccount|]. right. split; [reflexivity|].
    exists 3%nat, e. split; [lia|reflexivity]. }
  destruct (smtp env _ (sendmail _ _ _ _)) as [e|]; simpl.
  { exists false. eexists. split; [tidy_world; reflexivity|]. right.
    exists server, port, sender, recipient, password.
    split; [exact Haccount|]. right. split; [reflexivity|].
    exists 4%nat, e. split; [lia|reflexivity]. }
  destruct (smtp env _ quit) as [e|]; simpl.
  { exists false. eexists. split; [tidy_world; reflexivity|]. right.
    exists server, port, sender, recipient, password.
    split; [exact Haccount|]. right. split; [reflexivity|].
    exists 5%nat, e. split; [lia|reflexivity]. }
  exists true. eexists. split; [tidy_world; reflexivity|]. right.
  exists server, port, sender, recipient, password.
  split; [exact Haccount|]. left. split; [reflexivity|].
  split; [eauto|reflexivity].
Qed.

(** The email channel: the call is recorded, no HTTP request is made,
    nothing is raised. *)
Lemma send_notification_runs (product_name product_url message : string)
    (w : World) :
  exists (sent : bool) (t : list event),
    send_notification env config product_name product_url message w
    = (Ok sent,
       with_trace (trace w ++ t)
         (with_calls
            (calls w ++ [SendNotification product_name product_url message])
            w))
    /\ Forall (fun ev => is_http_event ev = false) t.
Proof.
  destruct (send_notification_cases product_name product_url message w)
    as (sent & t & Hrun & Hcases).
  exists sent, t. split; [exact Hrun|].
  destruct Hcases
    as [(_ & _ & e & ->)
       |(server & port & sender & recipient & password & _
         & [(_ & _ & ->)|(_ & done & e & Hdone & ->)])].
  - repeat constructor.
  - unfold smtp_session. repeat constructor.
  - unfold smtp_session.
    destruct done as [|[|[|[|[|[|done]]]]]]; simpl; repeat constructor.
Qed.

(** The chat channel: the call is recorded, nothing is raised. *)
Lemma send_telegram_notification_runs
    (product_name product_url message : string) (w : World) :
  exists (sent : bool) (t : list event),
    send_telegram_notification env product_name product_url message w
    = (Ok sent,
       with_trace (trace w ++ t)
         (with_calls
            (calls w
             ++ [SendTelegramNotification product_name product_url message])
            w)).
Proof.
  unfold send_telegram_notification. run_monad.
  destruct (negb (truthy (getenv env "TELEGRAM_BOT_TOKEN"))
            || negb (truthy (getenv env "TELEGRAM_CHAT_ID"))); simpl.
  - exists false, []. tidy_world. rewrite app_nil_r. reflexivity.
  - destruct (requests_post env _ _); simpl;
      eexists; eexists; tidy_world; reflexivity.
Qed.

(** The chat channel without its configuration: no effect at all. *)
Lemma send_telegram_notification_skipped
    (product_name product_url message : string) (w : World) :
  getenv env "TELEGRAM_BOT_TOKEN" = None
  \/ getenv env "TELEGRAM_CHAT_ID" = None ->
  send_telegram_notification env product_name product_url message w
  = (Ok false,
     with_calls
       (calls w ++ [SendTelegramNotification product_name product_url message])
       w).
Proof.
  intros H. unfold send_telegram_notification. run_monad.
  destruct H as [-> | ->]; simpl; rewrite ?orb_true_r; reflexivity.
Qed.

End CheckerFacts.

Section StepFacts.
Context (env : Env) (config : Config).

(** The body of the loop of [monitor_products], once the check has
    returned. *)
Lemma monitor_step_spec (product : Product) (product_name : string)
    (w w1 : World) (is_in_stock : option bool) (message : string) :
  name product = Some product_name ->
  check_stock_status env config product
    (with_trace (trace w ++ [Log INFO ("Checking " +:+ product_name +:+ "...")]) w)
  = (Ok (is_in_stock, message), w1) ->
  exists (u : string) (w2 : World),
    monitor_step env config product w = (Ok tt, w2)
    /\ (is_in_stock <> None -> url product = Some u)
    /\ calls w2
       = (calls w1 ++
          Checked product_name is_in_stock ::
          (if tracker_notifies (last_status w1 !! product_name) is_in_stock
           then [SendNotification product_name u message;
                 SendTelegramNotification product_name u message]
           else []))%list
    /\ last_status w2
       = match is_in_stock with
         | Some b => <[product_name := b]> (last_status w1)
         | None => last_status w1
         end
    /\ (is_in_stock = None ->
        w2 = with_calls (calls w1 ++ [Checked product_name None]) w1).
Proof.
  intros Hname Hcheck.
  unfold monitor_step. rewrite Hname.
  unfold getitem, logger_info, emit.
  rewrite run_bind, run_ret, run_bind. cbv beta iota.
  rewrite run_bind, Hcheck. cbv beta iota.
  destruct is_in_stock as [b|].
  2:{ exists "", (with_calls (calls w1 ++ [Checked product_name None]) w1).
      repeat split; try reflexivity. congruence. }
  destruct (check_stock_status_url _ _ _ _ _ _ _ Hcheck) as [u Hu].
  exists u. rewrite Hu.
  destruct b; [destruct (last_status w1 !! product_name) as [[|]|] eqn:Hlast|].
  all: run_monad; rewrite ?Hlast; simpl.
  2,3: match goal with
       | |- context [send_notification env config ?n ?u ?m ?w] =>
           destruct (send_notification_runs env config n u m w)
             as (sent & t & Hsend & _); rewrite Hsend; simpl
       end;
       match goal with
       | |- context [send_telegram_notification env ?n ?u ?m ?w] =>
           destruct (send_telegram_notification_runs env n u m w)
             as (sent' & t' & Hsend'); rewrite Hsend'; simpl
       end.
  all: eexists; split; [reflexivity|]; simpl; rewrite <- ?app_assoc; simpl;
    repeat split; auto; congruence.
Qed.

End StepFacts.

Lemma for_each_app (body : Product -> M unit) (ps qs : list Product)
    (w : World) :
  for_each body (ps ++ qs) w = (for_each body ps;; for_each body qs) w.
Proof.
  revert w. induction ps as [|p ps IH]; intros w; simpl.
  - rewrite run_bind, run_ret. reflexivity.
  - rewrite !run_bind. destruct (body p w) as [[[]|e] w1]; [|reflexivity].
    rewrite IH, run_bind. reflexivity.
Qed.

Section PassFacts.
Context (env : Env) (config : Config).

Lemma single_check_step_nameless (product : Product) (w : World) :
  name product = None ->
  single_check_step env config product w = (Raise (KeyError "name"), w).
Proof. intros H. unfold single_check_step. rewrite H. reflexivity. Qed.

Lemma monitor_step_nameless (product : Product) (w : World) :
  name product = None ->
  monitor_step env config product w = (Raise (KeyError "name"), w).
Proof. intros H. unfold monitor_step. rewrite H. reflexivity. Qed.

(** The body of the loop of [run_single_check], once the check has
    returned. *)
Lemma single_check_step_spec (product : Product) (product_name : string)
    (w w1 : World) (is_in_stock : option bool) (message : string) :
  name product = Some product_name ->
  check_stock_status env config product
    (with_trace (trace w ++ [Log INFO ("Checking " +:+ product_name +:+ "...")]) w)
  = (Ok (is_in_stock, message), w1) ->
  exists (u : string) (w2 : World),
    single_check_step env config product w = (Ok tt, w2)
    /\ calls w2
       = (calls w1 ++
          Checked product_name is_in_stock ::
          (match is_in_stock with
           | Some true => [SendNotification product_name u message;
                           SendTelegramNotification product_name u message]
           | _ => []
           end))%list
    /\ last_status w2 = last_status w1.
Proof.
  intros Hname Hcheck.
  unfold single_check_step. rewrite Hname.
  unfold getitem, logger_info, emit.
  rewrite run_bind, run_ret, run_bind. cbv beta iota.
  rewrite run_bind, Hcheck. cbv beta iota.
  destruct is_in_stock as [[|]|].
  - destruct (check_stock_status_url _ _ _ _ _ _ _ Hcheck) as [u Hu].
    exists u. rewrite Hu. run_monad.
    match goal with
    | |- context [send_notification env config ?n ?u ?m ?w] =>
        destruct (send_notification_runs env config n u m w)
          as (sent & t & Hsend & _); rewrite Hsend; simpl
    end.
    match goal with
    | |- context [send_telegram_notification env ?n ?u ?m ?w] =>
        destruct (send_telegram_notification_runs env n u m w)
          as (sent' & t' & Hsend'); rewrite Hsend'; simpl
    end.
    eexists. split; [reflexivity|]. simpl. rewrite <- ?app_assoc.
    split; reflexivity.
  - exists "". run_monad. eexists. split; [reflexivity|].
    simpl. split; reflexivity.
  - exists "". run_monad. eexists. split; [reflexivity|].
    simpl. split; reflexivity.
Qed.

Lemma total_single_check_step (product : Product) (product_name : string) :
  name product = Some product_name ->
  forall w, fst (single_check_step env config product w) = Ok tt.
Proof.
  intros Hname w.
  destruct (total_check_stock_status env config product product_name Hname
              (with_trace
                 (trace w ++ [Log INFO ("Checking " +:+ product_name +:+ "...")])
                 w)) as [[v message] Hok].
  destruct (check_stock_status env config product _) as [r w1] eqn:Hcheck.
  simpl in Hok. subst r.
  destruct (single_check_step_spec product product_name w w1 v message
              Hname Hcheck) as (u & w2 & Hrun & _).
  rewrite Hrun. reflexivity.
Qed.

Lemma total_monitor_step (product : Product) (product_name : string) :
  name product = Some product_name ->
  forall w, fst (monitor_step env config product w) = Ok tt.
Proof.
  intros Hname w.
  destruct (total_check_stock_status env config product product_name Hname
              (with_trace
                 (trace w ++ [Log INFO ("Checking " +:+ product_name +:+ "...")])
                 w)) as [[v message] Hok].
  destruct (check_stock_status env config product _) as [r w1] eqn:Hcheck.
  simpl in Hok. subst r.
  destruct (monitor_step_spec env config product product_name w w1 v message
              Hname Hcheck) as (u & w2 & Hrun & _).
  rewrite Hrun. reflexivity.
Qed.

Lemma for_each_outcome (body : Product -> M unit) (ps : list Product) :
  (forall p n, name p = Some n -> forall w, fst (body p w) = Ok tt) ->
  (forall p w, name p = None -> body p w = (Raise (KeyError "name"), w)) ->
  forall w,
    fst (for_each body ps w)
    = if forallb (fun p => bool_decide (name p <> None)) ps
      then Ok tt else Raise (KeyError "name").
Proof.
  intros Hnamed Hnameless. induction ps as [|p ps IH]; intros w; simpl.
  - reflexivity.
  - rewrite run_bind. destruct (name p) as [n|] eqn:Hn.
    + specialize (Hnamed p n Hn w).
      destruct (body p w) as [r w1]. simpl in Hnamed. subst r.
      rewrite bool_decide_eq_true_2 by congruence. simpl. apply IH.
    + rewrite (Hnameless p w Hn).
      rewrite bool_decide_eq_false_2 by (intros H; apply H; reflexivity).
      reflexivity.
Qed.

End PassFacts.

Lemma checked_app (cs cs' : list call) :
  checked (cs ++ cs') = (checked cs ++ checked cs')%list.
Proof. induction cs as [|[] cs IH]; simpl; rewrite ?IH; reflexivity. Qed.

Lemma mail_account_unique (config : Config) (server server' : string)
    (port port' : Z) (sender sender' : string)
    (recipient recipient' : option string) :
  mail_account config server port sender recipient ->
  mail_account config server' port' sender' recipient' ->
  server' = server /\ port' = port /\ sender' = sender
  /\ recipient' = recipient.
Proof.
  intros (ec & H1 & H2 & _ & H3 & H4 & H5) (ec' & H1' & H2' & _ & H3' & H4' & H5').
  assert (ec' = ec) by congruence. subst ec'.
  repeat split; congruence.
Qed.

Section ExceptionFacts.
Context (env : Env) (config : Config).

(** An exception raised while a product with a name is checked ends in
    the handler of the checker: logged, and turned into the verdict
    [None]. *)
Lemma check_stock_status_catches (product : Product) (product_name : string)
    (e : exn) (w w1 : World) :
  name product = Some product_name ->
  (use_selenium product = false
   /\ requests_fetch env config product w = (Raise e, w1))
  \/ (use_selenium product = true
      /\ (selenium_open_page env config product w = (Raise e, w1)
          \/ exists w',
              selenium_open_page env config product w = (Ok None, w')
              /\ selenium_look_for_alert env w' = (Raise e, w1))) ->
  exists reason,
    check_stock_status env config product w
    = (Ok (None, reason),
       with_trace (trace w1 ++ [check_failure_log product product_name e]) w1).
Proof.
  intros Hname [[Hsel Hfetch]|[Hsel [Hopen|(w' & Hopen & Hlook)]]];
    unfold check_stock_status, check_failure_log; rewrite Hsel.
  - unfold check_stock_with_requests, try_except.
    rewrite run_bind, Hfetch. cbv beta iota. rewrite Hname.
    destruct (is_RequestException e); run_monad; eexists; reflexivity.
  - unfold check_stock_with_selenium, try_except.
    rewrite run_bind, Hopen. cbv beta iota. rewrite Hname.
    run_monad. eexists. reflexivity.
  - unfold check_stock_with_selenium, try_except.
    rewrite run_bind, Hopen. cbv beta iota. rewrite Hlook.
    cbv beta iota. rewrite Hname.
    run_monad. eexists. reflexivity.
Qed.

(** When every entry has a name, the loop of [run_single_check] checks
    every product. *)
Lemma for_each_single_checks_all (ps : list Product) (w : World) :
  Forall (fun p => name p <> None) ps ->
  exists w' cs,
    for_each (single_check_step env config) ps w = (Ok tt, w')
    /\ calls w' = (calls w ++ cs)%list
    /\ checked cs = omap name ps.
Proof.
  revert w. induction ps as [|p ps IH]; intros w Hall.
  - exists w, []. simpl. rewrite app_nil_r. auto.
  - inversion Hall as [|? ? Hp Hps]; subst.
    destruct (name p) as [n|] eqn:Hn; [|congruence].
    pose (wc := with_trace
                  (trace w ++ [Log INFO ("Checking " +:+ n +:+ "...")]) w).
    destruct (total_check_stock_status env config p n Hn wc)
      as [[v message] Hok].
    destruct (check_stock_status env config p wc) as [r w1] eqn:Hcheck.
    simpl in Hok. subst r.
    destruct (frame_check_stock_status env config p wc) as [Hc _].
    rewrite Hcheck in Hc. simpl in Hc.
    destruct (single_check_step_spec env config p n w w1 v message Hn Hcheck)
      as (u & w2 & Hrun & Hcalls & _).
    destruct (IH w2 Hps) as (w' & cs & Hrest & Hcs & Hchecked).
    exists w'. eexists. split.
    { simpl. rewrite run_bind, Hrun. exact Hrest. }
    split.
    { rewrite Hcs, Hcalls, Hc. rewrite <- app_assoc. reflexivity. }
    rewrite checked_app. simpl. rewrite Hn.
    destruct v as [[|]|]; simpl; rewrite Hchecked; reflexivity.
Qed.

End ExceptionFacts.

Example expected_unknown_in :
  expected_notifications None [Some true] = 1.
Proof. reflexivity. Qed.

Example expected_in_in :
  expected_notifications (Some true) [Some true] = 0.
Proof. reflexivity. Qed.

Example expected_in_out_in :
  expected_notifications None [Some true; Some false; Some true] = 2.
Proof. reflexivity. Qed.

Lemma Tracked_app (n : string) (s s' s'' : option bool) (cs cs' : list call) :
  Tracked n s cs s' -> Tracked n s' cs' s'' -> Tracked n s (cs ++ cs') s''.
Proof.
  intros H H'. induction H; simpl; [assumption| | |].
  - apply Tracked_quiet; auto.
  - apply Tracked_notify; auto.
  - apply Tracked_other; auto.
Qed.

Lemma Tracked_counts (n : string) (s s' : option bool) (cs : list call) :
  Tracked n s cs s' ->
  emails_for n cs = expected_notifications s (verdicts_for n cs)
  /\ chats_for n cs = expected_notifications s (verdicts_for n cs).
Proof.
  induction 1 as [s|s v cs s' Hq _ [IH1 IH2]
                 |s v u u' m m' cs s' Hn _ [IH1 IH2]
                 |s c cs s' Hc _ [IH1 IH2]]; simpl.
  - auto.
  - rewrite !String.eqb_refl. simpl. rewrite Hq, IH1, IH2. auto.
  - rewrite !String.eqb_refl. simpl. rewrite Hn, IH1, IH2. auto.
  - destruct c; simpl in Hc; rewrite ?Hc; auto.
Qed.

Lemma keeps_bind {A B} (P : World -> Prop) (m : M A) (f : A -> M B) :
  keeps P m -> (forall a, keeps P (f a)) -> keeps P (m ≫= f).
Proof.
  intros Hm Hf w HP. rewrite run_bind. specialize (Hm w HP).
  destruct (m w) as [[a|e] w1]; simpl in *; [apply Hf|]; assumption.
Qed.

Lemma keeps_try_except {A} (P : World -> Prop) (body : M A)
    (catches : exn -> bool) (handler : exn -> M A) :
  keeps P body -> (forall e, keeps P (handler e)) ->
  keeps P (try_except body catches handler).
Proof.
  intros Hb Hh w HP. unfold try_except. specialize (Hb w HP).
  destruct (body w) as [[a|e] w1]; simpl in *; [assumption|].
  destruct (catches e); simpl; [apply Hh|]; assumption.
Qed.

Lemma keeps_frame {A} (cs0 : list call) (m : M A) :
  ghost_frame m -> keeps (loop_invariant cs0) m.
Proof.
  intros Hm w (cs & Hcs & Htr). destruct (Hm w) as [Hc Hl].
  exists cs. rewrite Hc, Hl. auto.
Qed.

Section LoopFacts.
Context (env : Env) (config : Config).

Lemma keeps_monitor_step (cs0 : list call) (product : Product) :
  keeps (loop_invariant cs0) (monitor_step env config product).
Proof.
  intros w Hinv.
  destruct (name product) as [n0|] eqn:Hname.
  2:{ unfold monitor_step. rewrite Hname. exact Hinv. }
  pose (wc := with_trace
                (trace w ++ [Log INFO ("Checking " +:+ n0 +:+ "...")]) w).
  destruct (total_check_stock_status env config product n0 Hname wc)
    as [[v message] Hok].
  destruct (check_stock_status env config product wc) as [r w1] eqn:Hcheck.
  simpl in Hok. subst r.
  destruct (frame_check_stock_status env config product wc) as [Hc Hl].
  rewrite Hcheck in Hc, Hl. simpl in Hc, Hl.
  destruct (monitor_step_spec env config product n0 w w1 v message Hname Hcheck)
    as (u & w2 & Hrun & _ & Hcalls & Hlast & _).
  rewrite Hrun. simpl. destruct Hinv as (cs & Hcs & Htr).
  eexists. split.
  { rewrite Hcalls, Hc. simpl. rewrite Hcs, <- app_assoc. reflexivity. }
  intros n. eapply Tracked_app; [apply Htr|].
  rewrite Hlast, Hl. simpl.
  destruct (String.eqb_spec n n0) as [->|Hne].
  - replace (match v with
             | Some b => <[n0:=b]> (last_status w)
             | None => last_status w
             end !! n0)
      with (tracker_next (last_status w !! n0) v)
      by (destruct v; simpl; [rewrite lookup_insert_eq|]; reflexivity).
    destruct (tracker_notifies (last_status w !! n0) v) eqn:Hn.
    + apply Tracked_notify; [assumption|apply Tracked_nil].
    + apply Tracked_quiet; [assumption|apply Tracked_nil].
  - assert (Hb : String.eqb n n0 = false) by (apply String.eqb_neq; exact Hne).
    replace (match v with
             | Some b => <[n0:=b]> (last_status w)
             | None => last_status w
             end !! n)
      with (last_status w !! n)
      by (destruct v; [rewrite lookup_insert_ne by congruence|]; reflexivity).
    destruct (tracker_notifies (last_status w !! n0) v);
      repeat (apply Tracked_other; [exact Hb|]); apply Tracked_nil.
Qed.

Lemma keeps_for_each (P : World -> Prop) (body : Product -> M unit)
    (ps : list Product) :
  (forall p, keeps P (body p)) -> keeps P (for_each body ps).
Proof.
  intros Hbody. induction ps as [|p ps IH]; simpl.
  - intros w HP. exact HP.
  - apply keeps_bind; [apply Hbody|intros _; exact IH].
Qed.

(** What a round does after the pass over the products, and what the
    handler of [except Exception] does: logging and waiting only. *)
Lemma frame_interruptible_sleep (seconds : Z) :
  ghost_frame (interruptible_sleep env seconds).
Proof.
  unfold interruptible_sleep. destruct (seconds <? 0)%Z;
    [apply frame_raise|intros w; split; reflexivity].
Qed.

Lemma frame_wait_for_next_round :
  ghost_frame
    (logger_info ("Waiting " +:+ pretty (check_interval config)
                  +:+ " seconds before next check...");;
     interrupt ← sleep_until_next_check env config;
     if interrupt : bool
     then logger_info "Monitor stopped by user";; mret stopped_by_user
     else mret still_running).
Proof.
  unfold logger_info, sleep_until_next_check.
  apply frame_bind; [apply frame_emit|intros _].
  apply frame_bind; [apply frame_interruptible_sleep|].
  intros [|]; [apply frame_bind; [apply frame_emit|intros _]|];
    apply frame_ret.
Qed.

Lemma frame_pause_after_error (e : exn) :
  ghost_frame
    (logger_error ("Unexpected error: " +:+ str e);;
     interrupt ← interruptible_sleep env 60;
     if interrupt : bool then mret uncaught_KeyboardInterrupt
     else mret still_running).
Proof.
  unfold logger_error.
  apply frame_bind; [apply frame_emit|intros _].
  apply frame_bind; [apply frame_interruptible_sleep|].
  intros [|]; apply frame_ret.
Qed.

Lemma keeps_monitor_loop (cs0 : list call) (fuel : nat) :
  keeps (loop_invariant cs0) (monitor_loop env config fuel).
Proof.
  induction fuel as [|fuel IH]; simpl.
  - intros w HP. exact HP.
  - apply keeps_bind.
    + apply keeps_try_except.
      * apply keeps_bind;
          [apply keeps_for_each; intros p; apply keeps_monitor_step|].
        intros _. apply keeps_frame, frame_wait_for_next_round.
      * intros e. apply keeps_frame, frame_pause_after_error.
    + intros [| |]; [exact IH|intros w HP; exact HP..].
Qed.

Lemma frame_quit_driver_if_any (after : M unit) :
  ghost_frame after -> ghost_frame (quit_driver_if_any env after).
Proof. intros H. unfold quit_driver_if_any. frame_solve. Qed.

Lemma monitor_products_invariant (fuel : nat) (w : World) :
  exists cs,
    calls (snd (monitor_products env config fuel w)) = (calls w ++ cs)%list
    /\ forall n,
        Tracked n None cs
          (last_status (snd (monitor_products env config fuel w)) !! n).
Proof.
  assert (H : keeps (loop_invariant (calls w))
                (how ← monitor_loop env config fuel;
                 match how with
                 | stopped_by_user =>
                     quit_driver_if_any env (mret tt);; mret stopped_by_user
                 | _ => mret how
                 end)).
  { apply keeps_bind; [apply keeps_monitor_loop|].
    intros [| |]; apply keeps_frame; try apply frame_ret.
    apply frame_bind; [|intros _; apply frame_ret].
    apply frame_quit_driver_if_any, frame_ret. }
  unfold monitor_products, logger_info, emit, set_last_status.
  rewrite !run_bind. cbv beta iota.
  apply H. exists []. simpl. rewrite app_nil_r. split; [reflexivity|].
  intros n. rewrite lookup_empty. apply Tracked_nil.
Qed.

End LoopFacts.

(** ** Status tracker and scheduler loop *)

(** C1: continuous mode, any environment, any configuration, any product
    name [n].

    One step: when the check of a product called [n] returns a verdict, the
    body of the loop calls the two channels, once each, exactly when the
    verdict is InStock and [last_status] holds no entry or [False] for [n];
    any verdict but [None] is then stored in [last_status].

    A whole run of any number of rounds: the calls recorded are, for [n],
    what the transition policy allows from the unknown state, so no channel
    is called for [n] anywhere else, and an OutOfStock verdict is tracked
    and lets the next InStock notify again.  Hence the number of
    notifications is the number the policy gives for the observed verdicts:
    one for unknown, InStock; still one after a further InStock; and two,
    the second at the second InStock, for InStock, OutOfStock, InStock. *)
Theorem monitor_products_notifies_on_entering_stock
    (env : Env) (config : Config) (n : string) :
  (forall (product : Product) (w w1 : World) (is_in_stock : option bool)
          (message : string),
      name product = Some n ->
      check_stock_status env config product
        (with_trace (trace w ++ [Log INFO ("Checking " +:+ n +:+ "...")]) w)
      = (Ok (is_in_stock, message), w1) ->
      exists (u : string) (w2 : World),
        monitor_step env config product w = (Ok tt, w2)
        /\ calls w2
           = (calls w ++
              Checked n is_in_stock ::
              (if tracker_notifies (last_status w !! n) is_in_stock
               then [SendNotification n u message;
                     SendTelegramNotification n u message]
               else []))%list
        /\ last_status w2
           = match is_in_stock with
             | Some b => <[n := b]> (last_status w)
             | None => last_status w
             end)
  /\ (forall (fuel : nat) (w : World),
      exists cs,
        calls (snd (monitor_products env config fuel w)) = (calls w ++ cs)%list
        /\ Tracked n None cs
             (last_status (snd (monitor_products env config fuel w)) !! n)
        /\ emails_for n cs = expected_notifications None (verdicts_for n cs)
        /\ chats_for n cs = expected_notifications None (verdicts_for n cs)
        /\ (verdicts_for n cs = [Some true] ->
            emails_for n cs = 1 /\ chats_for n cs = 1)
        /\ (verdicts_for n cs = [Some true; Some true] ->
            emails_for n cs = 1 /\ chats_for n cs = 1)
        /\ (verdicts_for n cs = [Some true; Some false; Some true] ->
            emails_for n cs = 2 /\ chats_for n cs = 2)).
Proof.
  split.
  - intros product w w1 v message Hname Hcheck.
    destruct (monitor_step_spec env config product n w w1 v message
                Hname Hcheck) as (u & w2 & Hrun & _ & Hcalls & Hlast & _).
    destruct (frame_check_stock_status env config product
                (with_trace
                   (trace w ++ [Log INFO ("Checking " +:+ n +:+ "...")]) w))
      as [Hc Hl].
    rewrite Hcheck in Hc, Hl. simpl in Hc, Hl. rewrite Hc, Hl in *.
    exists u, w2. auto.
  - intros fuel w.
    destruct (monitor_products_invariant env config fuel w)
      as (cs & Hcs & Htr).
    exists cs. specialize (Htr n).
    destruct (Tracked_counts _ _ _ _ Htr) as [He Hc].
    repeat split; try assumption;
      rewrite ?He, ?Hc; match goal with H : verdicts_for _ _ = _ |- _ =>
                          rewrite H end; reflexivity.
Qed.

(** C4: the check of a product returns the verdict [None].  The body of
    the monitoring loop then only records the verdict: [last_status] is the
    dictionary from before the step, no channel is called, no further
    effect follows the check, and the loop goes on with the next product. *)
Theorem monitor_step_indeterminate
    (env : Env) (config : Config) (product : Product) (product_name : string)
    (rest : list Product) (w w1 : World) (message : string) :
  name product = Some product_name ->
  check_stock_status env config product
    (with_trace (trace w ++ [Log INFO ("Checking " +:+ product_name +:+ "...")]) w)
  = (Ok (None, message), w1) ->
  monitor_step env config product w
  = (Ok tt, with_calls (calls w ++ [Checked product_name None]) w1)
  /\ last_status w1 = last_status w
  /\ for_each (monitor_step env config) (product :: rest) w
     = for_each (monitor_step env config) rest
         (with_calls (calls w ++ [Checked product_name None]) w1).
Proof.
  intros Hname Hcheck.
  destruct (monitor_step_spec env config product product_name w w1 None message
              Hname Hcheck) as (u & w2 & Hrun & _ & _ & _ & Hw2).
  specialize (Hw2 eq_refl). subst w2.
  destruct (frame_check_stock_status env config product
              (with_trace
                 (trace w ++ [Log INFO ("Checking " +:+ product_name +:+ "...")])
                 w)) as [Hc Hl].
  rewrite Hcheck in Hc, Hl. simpl in Hc, Hl. rewrite Hc in Hrun.
  split; [exact Hrun|]. split; [exact Hl|].
  simpl. rewrite run_bind, Hrun. reflexivity.
Qed.

(** C5, as the code has it: single-check mode.  An exception raised while
    a product with a name is checked is caught and logged by the checker,
    the verdict is [None] and the step ends normally.  So when every entry
    has a name the loop runs to its end whatever is raised on the way:
    every product is checked, in order, and the handler around the loop is
    not entered.  An entry without ['name'] is what stops the loop: its
    [KeyError] is caught and logged by the handler around the whole loop,
    what follows is the [finally] clause alone, and the products behind
    that entry are not checked.  The two channels catch and log what is
    raised in them as well: they return [False] and never raise. *)
Theorem run_single_check_exceptions
    (env : Env) (config : Config) (w : World) :
  (forall (product : Product) (product_name : string) (e : exn) (w1 : World),
      name product = Some product_name ->
      (use_selenium product = false
       /\ requests_fetch env config product
            (with_trace
               (trace w ++ [Log INFO ("Checking " +:+ product_name +:+ "...")])
               w)
          = (Raise e, w1))
      \/ (use_selenium product = true
          /\ (selenium_open_page env config product
                (with_trace
                   (trace w
                    ++ [Log INFO ("Checking " +:+ product_name +:+ "...")]) w)
              = (Raise e, w1)
              \/ exists w',
                  selenium_open_page env config product
                    (with_trace
                       (trace w
                        ++ [Log INFO ("Checking " +:+ product_name +:+ "...")])
                       w)
                  = (Ok None, w')
                  /\ selenium_look_for_alert env w' = (Raise e, w1))) ->
      single_check_step env config product w
      = (Ok tt,
         with_calls (calls w1 ++ [Checked product_name None])
           (with_trace
              (trace w1 ++ [check_failure_log product product_name e]) w1)))
  /\ (Forall (fun p => name p <> None) (products config) ->
      exists w' cs,
        for_each (single_check_step env config) (products config)
          (with_trace (trace w ++ [Log INFO "Starting single stock check..."])
             w)
        = (Ok tt, w')
        /\ calls w' = (calls w ++ cs)%list
        /\ checked cs = omap name (products config)
        /\ run_single_check env config w
           = quit_driver_if_any env (logger_info "Browser closed") w')
  /\ (forall (before : list Product) (product : Product)
             (behind : list Product),
      products config = (before ++ product :: behind)%list ->
      Forall (fun p => name p <> None) before ->
      name product = None ->
      exists w1 cs,
        for_each (single_check_step env config) before
          (with_trace (trace w ++ [Log INFO "Starting single stock check..."])
             w)
        = (Ok tt, w1)
        /\ calls w1 = (calls w ++ cs)%list
        /\ checked cs = omap name before
        /\ run_single_check env config w
           = quit_driver_if_any env (logger_info "Browser closed")
               (with_trace
                  (trace w1
                   ++ [Log ERROR "Unexpected error during check: 'name'"])
                  w1)
        /\ calls (snd (run_single_check env config w)) = calls w1)
  /\ (forall (n u m : string) (w0 : World),
      exists (sent : bool) (t : list event),
        send_notification env config n u m w0
        = (Ok sent,
           with_trace (trace w0 ++ t)
             (with_calls (calls w0 ++ [SendNotification n u m]) w0))
        /\ (sent = false ->
            exists e,
              In (Log ERROR ("Failed to send notification: " +:+ str e)) t))
  /\ (forall (n u m : string) (w0 : World),
      exists (sent : bool) (t : list event),
        send_telegram_notification env n u m w0
        = (Ok sent,
           with_trace (trace w0 ++ t)
             (with_calls (calls w0 ++ [SendTelegramNotification n u m]) w0))
        /\ (forall url_ e,
              In (HttpPost url_ (default "" (getenv env "TELEGRAM_CHAT_ID"))
                    (telegram_text n u m (now env (trace w0))) 10) t ->
              requests_post env (trace w0) url_ = Some e ->
              sent = false
              /\ In (Log ERROR ("Failed to send Telegram notification: "
                                +:+ str e)) t)).
Proof.
  split; [|split; [|split; [|split]]].
  - intros product product_name e w1 Hname Hraised.
    destruct (check_stock_status_catches env config product product_name e
                _ w1 Hname Hraised) as [reason Hcheck].
    unfold single_check_step. rewrite Hname.
    unfold getitem, logger_info, emit.
    rewrite run_bind, run_ret, run_bind. cbv beta iota.
    rewrite run_bind, Hcheck. reflexivity.
  - intros Hall.
    destruct (for_each_single_checks_all env config (products config)
                (with_trace
                   (trace w ++ [Log INFO "Starting single stock check..."]) w)
                Hall) as (w' & cs & Hloop & Hcs & Hchecked).
    exists w', cs. repeat split; try assumption.
    unfold run_single_check. rewrite run_bind.
    unfold try_finally, try_except, logger_info at 1, emit at 1.
    cbv beta iota. rewrite Hloop. cbv beta iota.
    destruct (quit_driver_if_any env _ _) as [[[]|e'] w3]; reflexivity.
  - intros before product behind Hps Hbefore Hname.
    destruct (for_each_single_checks_all env config before
                (with_trace
                   (trace w ++ [Log INFO "Starting single stock check..."]) w)
                Hbefore) as (w1 & cs & Hloop & Hcs & Hchecked).
    exists w1, cs. split; [exact Hloop|]. split; [exact Hcs|].
    split; [exact Hchecked|].
    assert (Hrun : run_single_check env config w
                   = quit_driver_if_any env (logger_info "Browser closed")
                       (with_trace
                          (trace w1
                           ++ [Log ERROR
                                 "Unexpected error during check: 'name'"])
                          w1)).
    { unfold run_single_check. rewrite run_bind.
      unfold try_finally, try_except, logger_info at 1, logger_error,
        emit at 1 2.
      cbv beta iota. rewrite Hps, for_each_app, run_bind, Hloop.
      cbv beta iota. simpl for_each.
      rewrite run_bind, single_check_step_nameless by exact Hname.
      cbv beta iota. simpl.
      destruct (quit_driver_if_any env _ _) as [[[]|e'] w3]; reflexivity. }
    split; [exact Hrun|]. rewrite Hrun.
    destruct (frame_quit_driver_if_any env (logger_info "Browser closed")
                (frame_emit _)
                (with_trace
                   (trace w1
                    ++ [Log ERROR "Unexpected error during check: 'name'"])
                   w1)) as [Hc _].
    exact Hc.
  - intros n u m w0.
    destruct (send_notification_cases env config n u m w0)
      as (sent & t & Hrun & Hcases).
    exists sent, t. split; [exact Hrun|]. intros ->.
    destruct Hcases
      as [(_ & _ & e & ->)
         |(server & port & sender & recipient & password & _
           & [(Hsent & _)|(_ & done & e & _ & ->)])].
    + exists e. left. reflexivity.
    + discriminate Hsent.
    + exists e. apply in_or_app. right. left. reflexivity.
  - intros n u m w0. unfold send_telegram_notification, telegram_text.
    run_monad.
    destruct (negb (truthy (getenv env "TELEGRAM_BOT_TOKEN"))
              || negb (truthy (getenv env "TELEGRAM_CHAT_ID"))); simpl.
    + exists false, []. split; [tidy_world; rewrite app_nil_r; reflexivity|].
      intros url_ e [].
    + destruct (requests_post env (trace w0) _) as [e|] eqn:Hpost; simpl;
        eexists; eexists; (split; [tidy_world; reflexivity|]);
        intros url_ e' [Hin|[Hin|[]]] Hpost'; try discriminate Hin;
        injection Hin as <-; rewrite Hpost in Hpost'; [|discriminate].
      injection Hpost' as <-. split; [reflexivity|]. right. left. reflexivity.
Qed.

(** C9: the bot token or the chat id is not in the environment.  Then
    [send_telegram_notification] returns [False] and has no effect at all,
    so no HTTP call; and when a product is found in stock in single-check
    mode, [send_notification] is called all the same, before it, and no
    HTTP request is made after the check.  What the attempt on the email
    channel comes to: with a mail account that the message can be built
    from, the connection to the mail server is made; without one, the
    failure is logged. *)
Theorem telegram_skipped_email_attempted
    (env : Env) (config : Config) (product : Product) (product_name : string)
    (message : string) (w w1 : World) :
  getenv env "TELEGRAM_BOT_TOKEN" = None
  \/ getenv env "TELEGRAM_CHAT_ID" = None ->
  name product = Some product_name ->
  check_stock_status env config product
    (with_trace (trace w ++ [Log INFO ("Checking " +:+ product_name +:+ "...")]) w)
  = (Ok (Some true, message), w1) ->
  (forall n u m w0,
      send_telegram_notification env n u m w0
      = (Ok false, with_calls (calls w0 ++ [SendTelegramNotification n u m]) w0))
  /\ exists (u : string) (t : list event) (w2 : World),
      url product = Some u
      /\ single_check_step env config product w = (Ok tt, w2)
      /\ calls w2
         = (calls w1 ++ [Checked product_name (Some true);
                         SendNotification product_name u message;
                         SendTelegramNotification product_name u message])%list
      /\ trace w2 = (trace w1 ++ t)%list
      /\ Forall (fun ev => is_http_event ev = false) t
      /\ (forall server port sender recipient,
             mail_account config server port sender recipient ->
             In (Smtp (SMTP server port)) t)
      /\ ((exists server port sender recipient,
              mail_account config server port sender recipient)
          \/ exists e,
              In (Log ERROR ("Failed to send notification: " +:+ str e)) t).
Proof.
  intros Habsent Hname Hcheck. split.
  { intros. apply send_telegram_notification_skipped. exact Habsent. }
  destruct (check_stock_status_url _ _ _ _ _ _ _ Hcheck) as [u Hu].
  exists u.
  unfold single_check_step. rewrite Hname, Hu.
  unfold getitem, logger_info, emit.
  rewrite run_bind, run_ret, run_bind. cbv beta iota.
  rewrite run_bind, Hcheck. cbv beta iota.
  run_monad.
  match goal with
  | |- context [send_notification env config ?n ?u ?m ?w] =>
      destruct (send_notification_cases env config n u m w)
        as (sent & t & Hsend & Hcases);
      destruct (send_notification_runs env config n u m w)
        as (sent' & t' & Hsend' & Ht);
      rewrite Hsend in Hsend'; inversion Hsend' as [[Hs Htt]];
      apply app_inv_head in Htt; subst sent' t';
      rewrite Hsend; simpl
  end.
  rewrite send_telegram_notification_skipped by exact Habsent. simpl.
  eexists. eexists. split; [reflexivity|].
  split; [reflexivity|]. simpl. rewrite <- !app_assoc. simpl.
  split; [reflexivity|]. split; [reflexivity|]. split.
  { constructor; [reflexivity|].
    apply Forall_app. split; [exact Ht|repeat constructor]. }
  destruct Hcases
    as [(Hnone & _ & e & ->)
       |(server & port & sender & recipient & password & Haccount & Hsession)].
  - split.
    + intros server port sender recipient Haccount. exfalso. apply Hnone.
      eauto.
    + right. exists e. right. left. reflexivity.
  - split; [|left; eauto].
    intros server' port' sender' recipient' Haccount'.
    destruct (mail_account_unique _ _ _ _ _ _ _ _ _ Haccount Haccount')
      as (-> & -> & _ & _).
    right. apply in_or_app. left.
    destruct Hsession as [(_ & _ & ->)|(_ & done & e & Hdone & ->)].
    + left. reflexivity.
    + apply in_or_app. left.
      destruct done as [|done]; [lia|]. left. reflexivity.
Qed.

(** ** The theorems at work on the scenarios *)

Import Scenario.

Lemma handle_pincode_modal_without_pincode_witness :
  pincode widget = None
  /\ handle_pincode_modal in_stock widget initial_world
     = (Ok true, initial_world).
Proof.
  split; [reflexivity|].
  apply handle_pincode_modal_without_pincode. left. reflexivity.
Defined.

Lemma handle_pincode_modal_never_visible_witness :
  pincode lassi = Some "110001"
  /\ trace (snd (handle_pincode_modal in_stock lassi initial_world))
     = [WaitUntil 5
          (visibility_of_element_located CSS_SELECTOR "#locationWidgetModal");
        Log INFO "No active pincode modal found"]
  /\ fst (handle_pincode_modal in_stock lassi initial_world) = Ok true.
Proof.
  split; [reflexivity|].
  rewrite (handle_pincode_modal_never_visible in_stock lassi "110001"
             initial_world "Message: " eq_refl ltac:(discriminate) eq_refl).
  split; reflexivity.
Defined.

Lemma handle_pincode_modal_input_not_clickable_witness :
  pincode lassi = Some "110001"
  /\ fst (handle_pincode_modal modal_stuck lassi initial_world) = Ok true
  /\ Forall (fun ev => match ev with ElementDo _ _ => False | _ => True end)
       (trace (snd (handle_pincode_modal modal_stuck lassi initial_world))).
Proof.
  split; [reflexivity|].
  rewrite (handle_pincode_modal_input_not_clickable modal_stuck lassi "110001"
             initial_world 1 "Message: " eq_refl ltac:(discriminate)
             eq_refl eq_refl).
  split; [reflexivity|]. simpl. repeat constructor.
Defined.

Lemma check_stock_with_requests_classifies_witness :
  check_stock_with_requests sold_out (config_of [widget]) widget initial_world
  = (Ok (Some false, "Explicit 'Sold Out' alert found"),
     with_trace [HttpGet "https://shop.example/widget" "Mozilla/5.0" 10]
       initial_world)
  /\ check_stock_with_requests other_alert (config_of [widget]) widget
       initial_world
     = (Ok (Some true, "No 'Sold Out' alert — assuming product is in stock"),
        with_trace [HttpGet "https://shop.example/widget" "Mozilla/5.0" 10]
          initial_world).
Proof.
  split.
  - refine (proj1 (check_stock_with_requests_classifies sold_out
                     (config_of [widget]) widget "https://shop.example/widget"
                     initial_world
                     {| raise_for_status := None; content := "Sold Out" |}
                     (alert_page "Sold Out") eq_refl eq_refl eq_refl eq_refl)
                  {| text := "Sold Out" |} eq_refl _).
    exists "", "Sold Out", "". split; reflexivity.
  - refine (proj2 (check_stock_with_requests_classifies other_alert
                     (config_of [widget]) widget "https://shop.example/widget"
                     initial_world
                     {| raise_for_status := None; content := "Only 2 left" |}
                     (alert_page "Only 2 left") eq_refl eq_refl eq_refl eq_refl)
                  _).
    right. exists {| text := "Only 2 left" |}. split; [reflexivity|].
    apply sold_out_dec. reflexivity.
Defined.

Lemma check_stock_with_requests_never_raises_witness :
  name widget = Some "Widget"
  /\ exists reason w',
      check_stock_with_requests offline (config_of [widget]) widget
        initial_world = (Ok (None, reason), w')
      /\ reason = "Request failed: Connection refused".
Proof.
  split; [reflexivity|].
  destruct (check_stock_with_requests_never_raises offline (config_of [widget])
              widget "Widget" initial_world eq_refl)
    as (v & reason & w' & Hrun & Hcase).
  simpl in Hcase. destruct Hcase as [-> ->].
  exists (failure_reason (RequestException ConnectionError "Connection refused")),
    w'.
  split; [exact Hrun|reflexivity].
Defined.

Lemma check_stock_with_selenium_classifies_witness :
  fst (selenium_open_page other_alert (config_of [ghee]) ghee initial_world)
  = Ok None
  /\ fst (check_stock_with_selenium other_alert (config_of [ghee]) ghee
            initial_world)
     = Ok (Some false, "Unable to determine stock status from alert element")
  /\ fst (check_stock_with_selenium in_stock (config_of [ghee]) ghee
            initial_world)
     = Ok (Some true, "No 'Sold Out' alert — assuming product is in stock")
  /\ fst (check_stock_with_selenium sold_out (config_of [ghee]) ghee
            initial_world)
     = Ok (Some false, "Explicit 'Sold Out' alert found").
Proof.
  split; [reflexivity|]. split; [|split].
  - rewrite (proj2 (proj1 (proj2
               (check_stock_with_selenium_classifies other_alert
                  (config_of [ghee]) ghee initial_world
                  (snd (selenium_open_page other_alert (config_of [ghee]) ghee
                          initial_world))
                  eq_refl))
               1 "Only 2 left" eq_refl eq_refl)
               ltac:(apply sold_out_dec; reflexivity)).
    reflexivity.
  - rewrite (proj1 (check_stock_with_selenium_classifies in_stock
                      (config_of [ghee]) ghee initial_world
                      (snd (selenium_open_page in_stock (config_of [ghee]) ghee
                              initial_world))
                      eq_refl)
               "Message: no such element" eq_refl).
    reflexivity.
  - rewrite (proj1 (proj1 (proj2
               (check_stock_with_selenium_classifies sold_out
                  (config_of [ghee]) ghee initial_world
                  (snd (selenium_open_page sold_out (config_of [ghee]) ghee
                          initial_world))
                  eq_refl))
               1 "SOLD OUT" eq_refl eq_refl)
               ltac:(apply sold_out_iff; reflexivity)).
    reflexivity.
Defined.

(** C3 as the specification words it: the alert element is there, its text
    is "Only 2 left", and the reason returned is not "could not confirm
    status from alert element". *)
Lemma check_stock_with_selenium_reason_counterexample :
  find_element other_alert
    (trace (snd (selenium_open_page other_alert (config_of [ghee]) ghee
                   initial_world)))
    CSS_SELECTOR "div.alert.alert-danger" = inr 1
  /\ element_text other_alert
       (trace (snd (selenium_open_page other_alert (config_of [ghee]) ghee
                      initial_world))
        ++ [FindElement CSS_SELECTOR "div.alert.alert-danger"]) 1
     = inr "Only 2 left"
  /\ ~ contains_ignoring_case "sold out" "Only 2 left"
  /\ fst (check_stock_with_selenium other_alert (config_of [ghee]) ghee
            initial_world)
     = Ok (Some false, "Unable to determine stock status from alert element")
  /\ fst (check_stock_with_selenium other_alert (config_of [ghee]) ghee
            initial_world)
     <> Ok (Some false, "could not confirm status from alert element").
Proof.
  split; [reflexivity|]. split; [reflexivity|].
  split; [apply sold_out_dec; reflexivity|].
  split; [reflexivity|]. vm_compute. discriminate.
Qed.

Lemma monitor_products_notifies_on_entering_stock_witness :
  calls (snd (monitor_step restocked (config_of [widget]) widget
                initial_world))
  = [Checked "Widget" (Some true);
     SendNotification "Widget" "https://shop.example/widget"
       "No 'Sold Out' alert — assuming product is in stock";
     SendTelegramNotification "Widget" "https://shop.example/widget"
       "No 'Sold Out' alert — assuming product is in stock"]
  /\ verdicts_for "Widget"
       (calls (snd (monitor_products restocked (config_of [widget]) 3
                      initial_world)))
     = [Some true; Some false; Some true]
  /\ emails_for "Widget"
       (calls (snd (monitor_products restocked (config_of [widget]) 3
                      initial_world))) = 2
  /\ chats_for "Widget"
       (calls (snd (monitor_products restocked (config_of [widget]) 3
                      initial_world))) = 2.
Proof.
  split.
  - destruct (proj1 (monitor_products_notifies_on_entering_stock restocked
                       (config_of [widget]) "Widget")
                widget initial_world
                (snd (check_stock_status restocked (config_of [widget]) widget
                        (with_trace [Log INFO "Checking Widget..."]
                           initial_world)))
                (Some true)
                "No 'Sold Out' alert — assuming product is in stock"
                eq_refl eq_refl)
      as (u & w2 & Hrun & Hcalls & _).
    assert (Hu : u = "https://shop.example/widget").
    { pose proof (f_equal snd Hrun) as Hw2. simpl in Hw2.
      rewrite <- Hw2 in Hcalls. vm_compute in Hcalls. congruence. }
    rewrite Hrun. simpl. rewrite Hcalls, Hu. reflexivity.
  - destruct (proj2 (monitor_products_notifies_on_entering_stock restocked
                       (config_of [widget]) "Widget") 3 initial_world)
      as (cs & Hcs & _ & _ & _ & _ & _ & Hseq).
    simpl calls in Hcs at 2. simpl app in Hcs. rewrite Hcs.
    assert (Hv : verdicts_for "Widget" cs = [Some true; Some false; Some true])
      by (rewrite <- Hcs; vm_compute; reflexivity).
    split; [exact Hv|]. exact (Hseq Hv).
Defined.

Lemma monitor_step_indeterminate_witness :
  name widget = Some "Widget"
  /\ fst (monitor_step offline (config_of [widget]) widget initial_world)
     = Ok tt
  /\ calls (snd (monitor_step offline (config_of [widget]) widget
                   initial_world))
     = [Checked "Widget" None]
  /\ last_status (snd (monitor_step offline (config_of [widget]) widget
                         initial_world)) = ∅.
Proof.
  split; [reflexivity|].
  destruct (monitor_step_indeterminate offline (config_of [widget]) widget
              "Widget" [] initial_world
              (snd (check_stock_status offline (config_of [widget]) widget
                      (with_trace [Log INFO "Checking Widget..."]
                         initial_world)))
              "Request failed: Connection refused" eq_refl eq_refl)
    as (Hrun & Hlast & _).
  rewrite Hrun. simpl. repeat split.
Defined.

Lemma run_single_check_exceptions_witness :
  trace (snd (single_check_step offline (config_of [widget; ghee; lassi])
                widget initial_world))
  = [Log INFO "Checking Widget...";
     HttpGet "https://shop.example/widget" "Mozilla/5.0" 10;
     Log ERROR "Request failed for Widget: Connection refused"]
  /\ (Forall (fun p => name p <> None) [widget; ghee; lassi]
      /\ exists w' cs,
          for_each (single_check_step offline (config_of [widget; ghee; lassi]))
            [widget; ghee; lassi]
            (with_trace [Log INFO "Starting single stock check..."]
               initial_world)
          = (Ok tt, w')
          /\ calls w' = cs
          /\ checked cs = ["Widget"; "Ghee"; "Lassi"])
  /\ (name nameless = None
      /\ exists w1 cs,
          calls (snd (run_single_check offline
                        (config_of [widget; nameless; ghee]) initial_world))
          = calls w1
          /\ calls w1 = cs
          /\ checked cs = ["Widget"]).
Proof.
  split; [|split].
  - rewrite (proj1 (run_single_check_exceptions offline
                      (config_of [widget; ghee; lassi]) initial_world)
               widget "Widget"
               (RequestException ConnectionError "Connection refused")
               (with_trace
                  [Log INFO "Checking Widget...";
                   HttpGet "https://shop.example/widget" "Mozilla/5.0" 10]
                  initial_world)
               eq_refl (or_introl (conj eq_refl eq_refl))).
    reflexivity.
  - assert (Hall : Forall (fun p => name p <> None) [widget; ghee; lassi])
      by (repeat constructor; discriminate).
    split; [exact Hall|].
    destruct (proj1 (proj2 (run_single_check_exceptions offline
                              (config_of [widget; ghee; lassi])
                              initial_world)) Hall)
      as (w' & cs & Hloop & Hcs & Hchecked & _).
    exists w', cs. split; [exact Hloop|]. split; [exact Hcs|exact Hchecked].
  - split; [reflexivity|].
    assert (Hall : Forall (fun p => name p <> None) [widget])
      by (repeat constructor; discriminate).
    destruct (proj1 (proj2 (proj2 (run_single_check_exceptions offline
                                     (config_of [widget; nameless; ghee])
                                     initial_world)))
                [widget] nameless [ghee] eq_refl Hall eq_refl)
      as (w1 & cs & _ & Hcs & Hchecked & _ & Hcalls).
    exists w1, cs. split; [exact Hcalls|]. split; [exact Hcs|exact Hchecked].
Defined.

(** C5 as the specification words it: the first entry of the list has no
    name, the second is [widget], which is in stock.  The [KeyError] of the
    first is caught and logged, and [widget] is never checked: no HTTP
    request, no verdict, no notification. *)
Lemma run_single_check_remaining_products_counterexample :
  products (config_of [nameless; widget]) = [nameless; widget]
  /\ fst (check_stock_status in_stock (config_of [nameless; widget]) widget
            initial_world)
     = Ok (Some true, "No 'Sold Out' alert — assuming product is in stock")
  /\ run_single_check in_stock (config_of [nameless; widget]) initial_world
     = (Ok tt,
        with_trace [Log INFO "Starting single stock check...";
                    Log ERROR "Unexpected error during check: 'name'"]
          initial_world)
  /\ ~ In (Log INFO "Checking Widget...")
         (trace (snd (run_single_check in_stock
                        (config_of [nameless; widget]) initial_world)))
  /\ calls (snd (run_single_check in_stock (config_of [nameless; widget])
                   initial_world)) = [].
Proof.
  split; [reflexivity|]. split; [reflexivity|]. split; [reflexivity|].
  split; [|reflexivity].
  vm_compute. intros [H|[H|[]]]; discriminate.
Qed.

Lemma telegram_skipped_email_attempted_witness :
  getenv in_stock "TELEGRAM_BOT_TOKEN" = None
  /\ send_telegram_notification in_stock "Widget" "https://shop.example/widget"
       "in stock" initial_world
     = (Ok false,
        with_calls [SendTelegramNotification "Widget"
                      "https://shop.example/widget" "in stock"] initial_world)
  /\ calls (snd (single_check_step in_stock (config_of [widget]) widget
                   initial_world))
     = [Checked "Widget" (Some true);
        SendNotification "Widget" "https://shop.example/widget"
          "No 'Sold Out' alert — assuming product is in stock";
        SendTelegramNotification "Widget" "https://shop.example/widget"
          "No 'Sold Out' alert — assuming product is in stock"]
  /\ In (Smtp (SMTP "smtp.gmail.com" 587))
       (trace (snd (single_check_step in_stock (config_of [widget]) widget
                      initial_world))).
Proof.
  split; [reflexivity|].
  destruct (telegram_skipped_email_attempted in_stock (config_of [widget])
              widget "Widget"
              "No 'Sold Out' alert — assuming product is in stock"
              initial_world
              (snd (check_stock_status in_stock (config_of [widget]) widget
                      (with_trace [Log INFO "Checking Widget..."]
                         initial_world)))
              (or_introl eq_refl) eq_refl eq_refl)
    as (Hskip & u & t & w2 & Hu & Hrun & Hcalls & Htrace & _ & Hsmtp & _).
  split; [apply Hskip|].
  rewrite Hrun. simpl. rewrite Hcalls, Htrace.
  injection Hu as <-. split; [reflexivity|].
  apply in_or_app. right.
  apply (Hsmtp "smtp.gmail.com" 587%Z "bot@example.org"
           (Some "me@example.org")).
  exists mail. repeat split; reflexivity.
Defined.

(** * Further properties of the code *)

(** ** What a computation adds to the trace *)

Section Emits.
Context {A B : Type} (p : event -> bool).

Lemma emits_ret (a : A) : emits p (mret a : M A).
Proof. intros w. exists []. simpl. rewrite app_nil_r. auto. Qed.

Lemma emits_raise (e : exn) : emits p (raise e : M A).
Proof. intros w. exists []. simpl. rewrite app_nil_r. auto. Qed.

Lemma emits_bind (m : M A) (f : A -> M B) :
  emits p m -> (forall a, emits p (f a)) -> emits p (m ≫= f).
Proof.
  intros Hm Hf w. rewrite run_bind. destruct (Hm w) as (t & Ht & Hp).
  destruct (m w) as [[a|e] w1]; simpl in *; [|eauto].
  destruct (Hf a w1) as (t' & Ht' & Hp').
  exists (t ++ t')%list. rewrite Ht', Ht, app_assoc. split; [reflexivity|].
  apply Forall_app; auto.
Qed.

Lemma emits_try_except (body : M A) (catches : exn -> bool)
    (handler : exn -> M A) :
  emits p body -> (forall e, emits p (handler e)) ->
  emits p (try_except body catches handler).
Proof.
  intros Hb Hh w. unfold try_except. destruct (Hb w) as (t & Ht & Hp).
  destruct (body w) as [[a|e] w1]; simpl in *; [eauto|].
  destruct (catches e); simpl; [|eauto].
  destruct (Hh e w1) as (t' & Ht' & Hp').
  exists (t ++ t')%list. rewrite Ht', Ht, app_assoc. split; [reflexivity|].
  apply Forall_app; auto.
Qed.

Lemma emits_ask (ev : event) (oracle : list event -> exn + A) :
  p ev = true -> emits p (ask ev oracle).
Proof.
  intros Hev w. exists [ev]. unfold ask.
  destruct (oracle _); simpl; auto.
Qed.

End Emits.

Lemma emits_ask_ (p : event -> bool) (ev : event)
    (oracle : list event -> option exn) :
  p ev = true -> emits p (ask_ ev oracle).
Proof. apply emits_ask. Qed.

Lemma emits_emit (p : event -> bool) (ev : event) :
  p ev = true -> emits p (emit ev).
Proof. intros Hev w. exists [ev]. simpl. auto. Qed.

Lemma emits_silent {A} (p : event -> bool) (m : M A) :
  (forall w, trace (snd (m w)) = trace w) -> emits p m.
Proof. intros H w. exists []. rewrite H, app_nil_r. auto. Qed.

Lemma emits_getitem {A} (p : event -> bool) (key : string) (v : option A) :
  emits p (getitem key v).
Proof. destruct v; [apply emits_ret | apply emits_raise]. Qed.

Ltac emits_step :=
  match goal with
  | |- forall _, _ => intro
  | |- emits _ (_ ≫= _) => apply emits_bind
  | |- emits _ (try_except _ _ _) => apply emits_try_except
  | |- emits _ (mret _) => apply emits_ret
  | |- emits _ (raise _) => apply emits_raise
  | |- emits _ (getitem _ _) => apply emits_getitem
  | |- emits _ (ask _ _) => apply emits_ask; reflexivity
  | |- emits _ (ask_ _ _) => apply emits_ask_; reflexivity
  | |- emits _ (emit _) => apply emits_emit; reflexivity
  | |- emits _ get_driver => apply emits_silent; reflexivity
  | |- emits _ (set_driver _) => apply emits_silent; reflexivity
  | |- emits _ get_last_status => apply emits_silent; reflexivity
  | |- emits _ (set_last_status _) => apply emits_silent; reflexivity
  | |- emits _ (note _) => apply emits_silent; reflexivity
  | |- emits _ (datetime_now _) => apply emits_silent; reflexivity
  | |- emits _ (if ?b then _ else _) => destruct b
  | |- emits _ (match ?x with _ => _ end) => destruct x
  | |- emits _ (let _ := _ in _) => cbv zeta
  | |- emits _ _ => solve [auto]
  end.

Ltac emits_solve := repeat emits_step.

(** ** The static checker *)

(** X2: whatever the outcome, the static checker does one thing besides
    logging: a single GET of the product URL with the configured user
    agent and a timeout of 10 seconds (nothing at all when the URL is
    missing).  It leaves the browser session, the record of calls and
    [last_status] alone.  This holds for a product without a name as
    well. *)
Theorem check_stock_with_requests_effects
    (env : Env) (config : Config) (product : Product) (w : World) :
  exists t,
    trace (snd (check_stock_with_requests env config product w))
    = (trace w ++ t)%list
    /\ effects t
       = match url product with
         | Some u => [HttpGet u (user_agent config) 10]
         | None => []
         end
    /\ driver (snd (check_stock_with_requests env config product w))
       = driver w
    /\ calls (snd (check_stock_with_requests env config product w))
       = calls w
    /\ last_status (snd (check_stock_with_requests env config product w))
       = last_status w.
Proof.
  unfold check_stock_with_requests, requests_fetch. run_monad.
  destruct (url product) as [u|]; simpl.
  - destruct (requests_get env (trace w) u) as [e|response]; simpl;
      [|destruct (raise_for_status response) as [e|]; simpl;
        [|destruct (html_parser env (content response)) as [e|soup]; simpl]].
    all: try (destruct (is_RequestException e); simpl);
      try (destruct (name product); simpl);
      eexists; (split; [rewrite <- ?app_assoc; reflexivity|]);
      repeat split.
  - destruct (name product); simpl;
      eexists; (split; [rewrite <- ?app_assoc; try reflexivity;
                        symmetry; apply app_nil_r|]);
      repeat split.
Qed.

(** ** The two channels *)

Import MoreScenarios.

(** X8: [send_notification] never raises, and logs its outcome.  Without a
    mail account that the message can be built from (no account, no sender
    address or one that is [None] or not ASCII, no recipient entry, no
    server or port) it answers [False] and not one step of an SMTP session
    is made.  With such an account it answers [True] only after the five
    steps of the session were done, in order, with the product name in the
    subject; and it answers [False] after the first step that raises, or
    with the password entry missing after the second step: the steps
    behind are not attempted (no mail goes out after a refused login). *)
Theorem send_notification_session
    (env : Env) (config : Config)
    (product_name product_url message : string) (w : World) :
  (fst (send_notification env config product_name product_url message w)
   = Ok true
   \/ fst (send_notification env config product_name product_url message w)
      = Ok false)
  /\ (~ (exists server port sender recipient,
            mail_account config server port sender recipient) ->
      fst (send_notification env config product_name product_url message w)
      = Ok false
      /\ exists e,
          trace (snd (send_notification env config product_name product_url
                        message w))
          = (trace w
             ++ [Log ERROR ("Failed to send notification: " +:+ str e)])%list)
  /\ (forall server port sender recipient,
      mail_account config server port sender recipient ->
      (fst (send_notification env config product_name product_url message w)
       = Ok true ->
       exists password,
         (exists ec, email config = Some ec
                     /\ sender_password ec = Some password)
         /\ trace (snd (send_notification env config product_name product_url
                          message w))
            = (trace w
               ++ smtp_session server port (Some sender) password recipient
                    ("STOCK ALERT: " +:+ product_name +:+ " is available!")
                    (email_body product_name product_url message
                       (now env (trace w)))
               ++ [Log INFO ("Notification sent for " +:+ product_name)])%list)
      /\ (fst (send_notification env config product_name product_url
                 message w)
          = Ok false ->
          exists (done : nat) password (e : exn),
            0 < done <= 5
            /\ trace (snd (send_notification env config product_name
                             product_url message w))
               = (trace w
                  ++ firstn done
                       (smtp_session server port (Some sender) password
                          recipient
                          ("STOCK ALERT: " +:+ product_name
                           +:+ " is available!")
                          (email_body product_name product_url message
                             (now env (trace w))))
                  ++ [Log ERROR ("Failed to send notification: "
                                 +:+ str e)])%list)).
Proof.
  destruct (send_notification_cases env config product_name product_url
              message w) as (sent & t & Hrun & Hcases).
  rewrite Hrun. cbn [fst snd trace with_trace].
  split; [destruct sent; auto|]. split.
  - intros Hnone.
    destruct Hcases as [(_ & -> & e & ->)|(s & p & a & r & _ & Haccount & _)].
    + split; [reflexivity|]. exists e. reflexivity.
    + exfalso. apply Hnone. eauto.
  - intros server port sender recipient Haccount.
    destruct Hcases
      as [(Hnone & _)
         |(s & p & a & r & password & Haccount'
           & [(-> & Hpassword & ->)|(-> & done & e & Hdone & ->)])].
    + exfalso. apply Hnone. eauto.
    + destruct (mail_account_unique _ _ _ _ _ _ _ _ _ Haccount Haccount')
        as (-> & -> & -> & ->).
      split; [|discriminate]. intros _. exists password.
      split; [exact Hpassword|reflexivity].
    + destruct (mail_account_unique _ _ _ _ _ _ _ _ _ Haccount Haccount')
        as (-> & -> & -> & ->).
      split; [discriminate|]. intros _. exists done, password, e.
      split; [exact Hdone|reflexivity].
Qed.

Lemma send_notification_session_witness :
  mail_account (config_of [widget]) "smtp.gmail.com" 587 "bot@example.org"
    (Some "me@example.org")
  /\ fst (send_notification in_stock (config_of [widget]) "Widget"
            "https://shop.example/widget" "in stock" initial_world) = Ok true
  /\ (exists password,
        trace (snd (send_notification in_stock (config_of [widget]) "Widget"
                      "https://shop.example/widget" "in stock"
                      initial_world))
        = (smtp_session "smtp.gmail.com" 587 (Some "bot@example.org")
             password (Some "me@example.org")
             "STOCK ALERT: Widget is available!"
             (email_body "Widget" "https://shop.example/widget" "in stock"
                "2024-05-01 12:00:00")
           ++ [Log INFO "Notification sent for Widget"])%list)
  /\ fst (send_notification bad_password (config_of [widget]) "Widget"
            "https://shop.example/widget" "in stock" initial_world) = Ok false
  /\ (exists done password e,
        0 < done <= 5
        /\ trace (snd (send_notification bad_password (config_of [widget])
                         "Widget" "https://shop.example/widget" "in stock"
                         initial_world))
           = (firstn done
                (smtp_session "smtp.gmail.com" 587 (Some "bot@example.org")
                   password (Some "me@example.org")
                   "STOCK ALERT: Widget is available!"
                   (email_body "Widget" "https://shop.example/widget"
                      "in stock" "2024-05-01 12:00:00"))
              ++ [Log ERROR ("Failed to send notification: " +:+ str e)])%list)
  /\ ~ (exists server port sender recipient,
          mail_account (config_with (Some (mail_of None)) 300 [widget])
            server port sender recipient)
  /\ (exists e,
        trace (snd (send_notification in_stock
                      (config_with (Some (mail_of None)) 300 [widget])
                      "Widget" "https://shop.example/widget" "in stock"
                      initial_world))
        = [Log ERROR ("Failed to send notification: " +:+ str e)])
  /\ send_notification in_stock
       (config_with (Some (mail_of (Some "bé@example.org"))) 300 [widget])
       "Widget" "https://shop.example/widget" "in stock" initial_world
     = (Ok false,
        with_calls
          [SendNotification "Widget" "https://shop.example/widget" "in stock"]
          (with_trace
             [Log ERROR
                ("Failed to send notification: "
                 +:+ codec_error "bé@example.org")]
             initial_world)).
Proof.
  assert (Haccount : mail_account (config_of [widget]) "smtp.gmail.com" 587
                       "bot@example.org" (Some "me@example.org"))
    by (exists mail; repeat split; reflexivity).
  assert (Hnone : ~ (exists server port sender recipient,
                        mail_account
                          (config_with (Some (mail_of None)) 300 [widget])
                          server port sender recipient)).
  { intros (server & port & sender & recipient & ec & Hec & Hsender & _).
    simpl in Hec. injection Hec as <-. discriminate Hsender. }
  split; [exact Haccount|]. split; [reflexivity|]. split.
  { destruct (proj1 (proj2 (proj2 (send_notification_session in_stock
                                     (config_of [widget]) "Widget"
                                     "https://shop.example/widget" "in stock"
                                     initial_world))
                       _ _ _ _ Haccount) eq_refl)
      as (password & _ & Htrace).
    exists password. exact Htrace. }
  split; [reflexivity|]. split.
  { exact (proj2 (proj2 (proj2 (send_notification_session bad_password
                                  (config_of [widget]) "Widget"
                                  "https://shop.example/widget" "in stock"
                                  initial_world))
                    _ _ _ _ Haccount) eq_refl). }
  split; [exact Hnone|]. split; [|reflexivity].
  exact (proj2 (proj1 (proj2 (send_notification_session in_stock
                                (config_with (Some (mail_of None)) 300
                                   [widget])
                                "Widget" "https://shop.example/widget"
                                "in stock" initial_world)) Hnone)).
Defined.

(** The chat channel with its configuration: one POST, logged either way. *)
Lemma send_telegram_notification_posts
    (env : Env) (bot_token chat_id : string)
    (product_name product_url message : string) (w : World) :
  getenv env "TELEGRAM_BOT_TOKEN" = Some bot_token -> bot_token <> "" ->
  getenv env "TELEGRAM_CHAT_ID" = Some chat_id -> chat_id <> "" ->
  send_telegram_notification env product_name product_url message w
  = match requests_post env (trace w)
            ("https://api.telegram.org/bot" +:+ bot_token +:+ "/sendMessage")
    with
    | None =>
        (Ok true,
         with_trace
           (trace w ++
            [HttpPost
               ("https://api.telegram.org/bot" +:+ bot_token
                +:+ "/sendMessage") chat_id
               (telegram_text product_name product_url message
                  (now env (trace w))) 10;
             Log INFO ("Telegram notification sent for " +:+ product_name)])
           (with_calls
              (calls w ++ [SendTelegramNotification product_name
                             product_url message]) w))
    | Some e =>
        (Ok false,
         with_trace
           (trace w ++
            [HttpPost
               ("https://api.telegram.org/bot" +:+ bot_token
                +:+ "/sendMessage") chat_id
               (telegram_text product_name product_url message
                  (now env (trace w))) 10;
             Log ERROR ("Failed to send Telegram notification: "
                        +:+ str e)])
           (with_calls
              (calls w ++ [SendTelegramNotification product_name
                             product_url message]) w))
    end.
Proof.
  intros Htoken Hne1 Hchat Hne2.
  unfold send_telegram_notification, telegram_text. rewrite Htoken, Hchat.
  destruct bot_token as [|c1 t1]; [congruence|].
  destruct chat_id as [|c2 t2]; [congruence|].
  run_monad.
  destruct (requests_post env _ _); simpl; tidy_world; reflexivity.
Qed.

(** X9: with a bot token and a chat id that are not empty,
    [send_telegram_notification] makes exactly one request: a POST to
    [https://api.telegram.org/bot<token>/sendMessage] for that chat id with
    a timeout of 10 seconds.  It answers whether the request went through,
    logs the outcome and never raises. *)
Theorem send_telegram_notification_configured
    (env : Env) (bot_token chat_id : string)
    (product_name product_url message : string) (w : World) :
  getenv env "TELEGRAM_BOT_TOKEN" = Some bot_token -> bot_token <> "" ->
  getenv env "TELEGRAM_CHAT_ID" = Some chat_id -> chat_id <> "" ->
  send_telegram_notification env product_name product_url message w
  = match requests_post env (trace w)
            ("https://api.telegram.org/bot" +:+ bot_token +:+ "/sendMessage")
    with
    | None =>
        (Ok true,
         with_trace
           (trace w ++
            [HttpPost
               ("https://api.telegram.org/bot" +:+ bot_token
                +:+ "/sendMessage") chat_id
               (telegram_text product_name product_url message
                  (now env (trace w))) 10;
             Log INFO ("Telegram notification sent for " +:+ product_name)])
           (with_calls
              (calls w ++ [SendTelegramNotification product_name
                             product_url message]) w))
    | Some e =>
        (Ok false,
         with_trace
           (trace w ++
            [HttpPost
               ("https://api.telegram.org/bot" +:+ bot_token
                +:+ "/sendMessage") chat_id
               (telegram_text product_name product_url message
                  (now env (trace w))) 10;
             Log ERROR ("Failed to send Telegram notification: "
                        +:+ str e)])
           (with_calls
              (calls w ++ [SendTelegramNotification product_name
                             product_url message]) w))
    end.
Proof.
  intros Htoken Hne1 Hchat Hne2.
  unfold send_telegram_notification, telegram_text. rewrite Htoken, Hchat.
  destruct bot_token as [|c1 t1]; [congruence|].
  destruct chat_id as [|c2 t2]; [congruence|].
  run_monad.
  destruct (requests_post env _ _); simpl; tidy_world; reflexivity.
Qed.

Lemma send_telegram_notification_configured_witness :
  getenv both_channels "TELEGRAM_BOT_TOKEN" = Some "123:abc"
  /\ getenv both_channels "TELEGRAM_CHAT_ID" = Some "42"
  /\ fst (send_telegram_notification both_channels "Widget"
            "https://shop.example/widget" "in stock" initial_world) = Ok true
  /\ effects (trace (snd (send_telegram_notification both_channels "Widget"
                            "https://shop.example/widget" "in stock"
                            initial_world)))
     = [HttpPost "https://api.telegram.org/bot123:abc/sendMessage" "42"
          (telegram_text "Widget" "https://shop.example/widget" "in stock"
             "2024-05-01 12:00:00") 10].
Proof.
  split; [reflexivity|]. split; [reflexivity|].
  rewrite (send_telegram_notification_configured both_channels "123:abc" "42"
             "Widget" "https://shop.example/widget" "in stock" initial_world
             eq_refl ltac:(discriminate) eq_refl ltac:(discriminate)).
  split; reflexivity.
Defined.

(** X10: the chat channel makes a request exactly when the bot token and the
    chat id are both set and not empty: an empty string counts as
    absent. *)
Theorem send_telegram_notification_requests_iff
    (env : Env) (product_name product_url message : string) (w : World) :
  exists t,
    trace (snd (send_telegram_notification env product_name product_url
                  message w)) = (trace w ++ t)%list
    /\ (effects t <> [] <->
        (exists bot_token chat_id,
            getenv env "TELEGRAM_BOT_TOKEN" = Some bot_token
            /\ bot_token <> ""
            /\ getenv env "TELEGRAM_CHAT_ID" = Some chat_id
            /\ chat_id <> "")).
Proof.
  unfold send_telegram_notification. run_monad.
  destruct (getenv env "TELEGRAM_BOT_TOKEN") as [[|c1 t1]|] eqn:Htoken;
    simpl.
  1,3: exists []; rewrite app_nil_r; split; [reflexivity|]; split;
    [intros H; exfalso; apply H; reflexivity
    |intros (bt & ci & H1 & H2 & _); congruence].
  destruct (getenv env "TELEGRAM_CHAT_ID") as [[|c2 t2]|] eqn:Hchat; simpl.
  1,3: exists []; rewrite app_nil_r; split; [reflexivity|]; split;
    [intros H; exfalso; apply H; reflexivity
    |intros (bt & ci & _ & _ & H3 & H4); congruence].
  destruct (requests_post env _ _); simpl;
    (eexists; split; [rewrite <- app_assoc; reflexivity|]);
    (split; [intros _; exists (String c1 t1), (String c2 t2);
             repeat split; congruence
            |intros _; simpl; discriminate]).
Qed.

Lemma send_telegram_notification_requests_iff_witness :
  effects (trace (snd (send_telegram_notification in_stock "Widget"
                         "https://shop.example/widget" "in stock"
                         initial_world))) = []
  /\ effects (trace (snd (send_telegram_notification both_channels "Widget"
                            "https://shop.example/widget" "in stock"
                            initial_world))) <> [].
Proof.
  split.
  - reflexivity.
  - destruct (send_telegram_notification_requests_iff both_channels "Widget"
                "https://shop.example/widget" "in stock" initial_world)
      as (t & Ht & Hiff).
    rewrite Ht. change (effects t <> []). apply Hiff.
    exists "123:abc", "42". repeat split; discriminate.
Defined.

(** X11: one channel failing does not keep the other from being tried.  A
    product is found in stock and the chat channel is configured: whatever
    the mail server answers, the body of either loop goes on to post the
    chat message for that product (in continuous mode when the tracked
    state is not already InStock). *)
Theorem mail_failure_does_not_block_chat
    (env : Env) (config : Config) (product : Product)
    (product_name bot_token chat_id message : string) (w w1 : World) :
  getenv env "TELEGRAM_BOT_TOKEN" = Some bot_token -> bot_token <> "" ->
  getenv env "TELEGRAM_CHAT_ID" = Some chat_id -> chat_id <> "" ->
  name product = Some product_name ->
  check_stock_status env config product
    (with_trace (trace w ++ [Log INFO ("Checking " +:+ product_name +:+ "...")]) w)
  = (Ok (Some true, message), w1) ->
  exists u,
    url product = Some u
    /\ (exists t sent_at,
          trace (snd (single_check_step env config product w))
          = (trace w1 ++ t)%list
          /\ In (HttpPost
                   ("https://api.telegram.org/bot" +:+ bot_token
                    +:+ "/sendMessage") chat_id
                   (telegram_text product_name u message sent_at) 10) t)
    /\ (last_status w !! product_name <> Some true ->
        exists t sent_at,
          trace (snd (monitor_step env config product w))
          = (trace w1 ++ t)%list
          /\ In (HttpPost
                   ("https://api.telegram.org/bot" +:+ bot_token
                    +:+ "/sendMessage") chat_id
                   (telegram_text product_name u message sent_at) 10) t).
Proof.
  intros Htoken Hne1 Hchat Hne2 Hname Hcheck.
  destruct (check_stock_status_url _ _ _ _ _ _ _ Hcheck) as [u Hu].
  exists u. split; [exact Hu|].
  destruct (frame_check_stock_status env config product
              (with_trace
                 (trace w ++ [Log INFO ("Checking " +:+ product_name +:+ "...")])
                 w)) as [_ Hl].
  rewrite Hcheck in Hl. simpl in Hl.
  split; [|intros Hlast].
  - unfold single_check_step. rewrite Hname, Hu.
    unfold getitem, logger_info, emit.
    rewrite run_bind, run_ret, run_bind. cbv beta iota.
    rewrite run_bind, Hcheck. cbv beta iota. run_monad.
    match goal with
    | |- context [send_notification env config ?n ?u ?m ?w] =>
        destruct (send_notification_runs env config n u m w)
          as (sent & t & Hsend & _); rewrite Hsend; simpl
    end.
    rewrite (send_telegram_notification_posts env bot_token chat_id)
      by assumption.
    destruct (requests_post env _ _); simpl;
      eexists; eexists; (split; [rewrite <- !app_assoc; reflexivity|]);
      simpl; right; apply in_or_app; right; left; reflexivity.
  - unfold monitor_step. rewrite Hname, Hu.
    unfold getitem, logger_info, emit.
    rewrite run_bind, run_ret, run_bind. cbv beta iota.
    rewrite run_bind, Hcheck. cbv beta iota. run_monad.
    rewrite Hl.
    assert (Hin : in_None_False (last_status w !! product_name) = true)
      by (destruct (last_status w !! product_name) as [[|]|];
          [congruence|reflexivity|reflexivity]).
    rewrite Hin. simpl.
    match goal with
    | |- context [send_notification env config ?n ?u ?m ?w] =>
        destruct (send_notification_runs env config n u m w)
          as (sent & t & Hsend & _); rewrite Hsend; simpl
    end.
    rewrite (send_telegram_notification_posts env bot_token chat_id)
      by assumption.
    destruct (requests_post env _ _); simpl;
      eexists; eexists; (split; [rewrite <- !app_assoc; reflexivity|]);
      simpl; right; apply in_or_app; right; left; reflexivity.
Qed.

Lemma mail_failure_does_not_block_chat_witness :
  fst (send_notification chat_only (config_of [widget]) "Widget"
         "https://shop.example/widget"
         "No 'Sold Out' alert — assuming product is in stock" initial_world)
  = Ok false
  /\ exists t sent_at,
      trace (snd (single_check_step chat_only (config_of [widget]) widget
                    initial_world))
      = (trace (snd (check_stock_status chat_only (config_of [widget]) widget
                       (with_trace [Log INFO "Checking Widget..."]
                          initial_world))) ++ t)%list
      /\ In (HttpPost "https://api.telegram.org/bot123:abc/sendMessage" "42"
               (telegram_text "Widget" "https://shop.example/widget"
                  "No 'Sold Out' alert — assuming product is in stock"
                  sent_at) 10) t.
Proof.
  split; [reflexivity|].
  destruct (mail_failure_does_not_block_chat chat_only (config_of [widget])
              widget "Widget" "123:abc" "42"
              "No 'Sold Out' alert — assuming product is in stock"
              initial_world
              (snd (check_stock_status chat_only (config_of [widget]) widget
                      (with_trace [Log INFO "Checking Widget..."]
                         initial_world)))
              eq_refl ltac:(discriminate) eq_refl ltac:(discriminate)
              eq_refl eq_refl)
    as (u & Hu & Hsingle & _).
  injection Hu as <-. exact Hsingle.
Defined.

(** ** The dynamic checker *)

Lemma selenium_look_for_alert_verdict (env : Env) (w w' : World)
    (v : option bool) (reason : string) :
  selenium_look_for_alert env w = (Ok (v, reason), w') -> v <> None.
Proof.
  unfold selenium_look_for_alert. run_monad.
  destruct (find_element env (trace w) CSS_SELECTOR "div.alert.alert-danger")
    as [e|el]; simpl.
  - destruct (is_NoSuchElementException e); simpl; intros H; inversion H;
      discriminate.
  - destruct (element_text env _ el) as [e|t]; simpl.
    + destruct (is_NoSuchElementException e); simpl; intros H; inversion H;
        discriminate.
    + destruct (PyStr.contains _ _); simpl; intros H; inversion H;
        discriminate.
Qed.

(** X3: the dynamic checker, called on a product that has a name, returns a
    verdict and never raises.  An early exit of the first part (driver
    setup failed, modal not handled) gives [None] with its reason; an
    exception anywhere gives [None] with "Selenium error: " and the text of
    the exception; otherwise the verdict is the one of the search for the
    alert, and it is not [None]. *)
Theorem check_stock_with_selenium_never_raises
    (env : Env) (config : Config) (product : Product) (product_name : string)
    (w : World) :
  name product = Some product_name ->
  exists is_in_stock reason w',
    check_stock_with_selenium env config product w
    = (Ok (is_in_stock, reason), w')
    /\ match selenium_open_page env config product w with
       | (Raise e, _) =>
           is_in_stock = None /\ reason = "Selenium error: " +:+ str e
       | (Ok (Some early), _) => is_in_stock = None /\ reason = early
       | (Ok None, w1) =>
           match selenium_look_for_alert env w1 with
           | (Raise e, _) =>
               is_in_stock = None /\ reason = "Selenium error: " +:+ str e
           | (Ok found, _) =>
               (is_in_stock, reason) = found /\ is_in_stock <> None
           end
       end.
Proof.
  intros Hname. unfold check_stock_with_selenium, try_except.
  rewrite run_bind.
  destruct (selenium_open_page env config product w) as [[[early|]|e] w1].
  - rewrite run_ret. eauto 6.
  - destruct (selenium_look_for_alert env w1) as [[[v reason]|e] w2] eqn:Hlook.
    + apply selenium_look_for_alert_verdict in Hlook. eauto 8.
    + simpl. rewrite Hname. run_monad. eauto 6.
  - simpl. rewrite Hname. run_monad. eauto 6.
Qed.

Lemma check_stock_with_selenium_never_raises_witness :
  name ghee = Some "Ghee"
  /\ exists w',
      check_stock_with_selenium no_chrome (config_of [ghee]) ghee initial_world
      = (Ok (None, "Selenium driver setup failed"), w').
Proof.
  split; [reflexivity|].
  destruct (check_stock_with_selenium_never_raises no_chrome (config_of [ghee])
              ghee "Ghee" initial_world eq_refl)
    as (v & reason & w' & Hrun & Hcase).
  simpl in Hcase. destruct Hcase as [-> ->]. exists w'. exact Hrun.
Defined.

Lemma starts_with_bind {A B} (ev : event) (P : World -> Prop)
    (m : M A) (f : A -> M B) :
  starts_with ev P m -> (forall a, emits (fun _ => true) (f a)) ->
  starts_with ev P (m ≫= f).
Proof.
  intros Hm Hf w HP. rewrite run_bind. destruct (Hm w HP) as (t & Ht).
  destruct (m w) as [[a|e] w1]; simpl in *; [|eauto].
  destruct (Hf a w1) as (t' & Ht' & _).
  exists (t ++ t')%list. rewrite Ht', Ht, <- app_assoc. reflexivity.
Qed.

Lemma starts_with_try_except {A} (ev : event) (P : World -> Prop)
    (body : M A) (catches : exn -> bool) (handler : exn -> M A) :
  starts_with ev P body -> (forall e, emits (fun _ => true) (handler e)) ->
  starts_with ev P (try_except body catches handler).
Proof.
  intros Hb Hh w HP. unfold try_except. destruct (Hb w HP) as (t & Ht).
  destruct (body w) as [[a|e] w1]; simpl in *; [eauto|].
  destruct (catches e); simpl; [|eauto].
  destruct (Hh e w1) as (t' & Ht' & _).
  exists (t ++ t')%list. rewrite Ht', Ht, <- app_assoc. reflexivity.
Qed.

Section BrowserFacts.
Context (env : Env) (config : Config).

Lemma emits_handle_pincode_modal (p : event -> bool) (product : Product) :
  (forall ev, is_driver_quit ev = false -> p ev = true) ->
  emits p (handle_pincode_modal env product).
Proof.
  intros Hp.
  unfold handle_pincode_modal, logger_info, logger_warning, logger_error,
    sleep, element, WebDriverWait_until, driver_find_element.
  repeat first
    [ progress emits_step
    | apply emits_ask; apply Hp; reflexivity
    | apply emits_ask_; apply Hp; reflexivity
    | apply emits_emit; apply Hp; reflexivity ].
Qed.

Lemma emits_setup_selenium_driver :
  emits (fun _ => true) (setup_selenium_driver env config).
Proof. unfold setup_selenium_driver, logger_info, logger_error. emits_solve. Qed.

Lemma emits_selenium_look_for_alert (p : event -> bool) :
  (forall ev, is_driver_quit ev = false -> p ev = true) ->
  emits p (selenium_look_for_alert env).
Proof.
  intros Hp. unfold selenium_look_for_alert, driver_find_element.
  repeat first
    [ progress emits_step
    | apply emits_ask; apply Hp; reflexivity ].
Qed.

Lemma starts_with_setup_selenium_driver :
  starts_with (chrome_start_event env config) (fun w => driver w = false)
    (setup_selenium_driver env config).
Proof.
  intros w Hd. unfold setup_selenium_driver, chrome_start_event. run_monad.
  rewrite Hd. simpl.
  destruct (chrome env (trace w)); simpl;
    eexists; rewrite <- app_assoc; reflexivity.
Qed.

Lemma starts_with_check_stock_with_selenium (product : Product) :
  starts_with (chrome_start_event env config) (fun w => driver w = false)
    (check_stock_with_selenium env config product).
Proof.
  pose proof (emits_handle_pincode_modal (fun _ => true)) as Hmodal.
  pose proof (emits_selenium_look_for_alert (fun _ => true)) as Hlook.
  unfold check_stock_with_selenium.
  apply starts_with_try_except;
    [|unfold logger_error; emits_solve].
  apply starts_with_bind; [|intros [early|]; emits_solve].
  intros w Hd. unfold selenium_open_page.
  rewrite run_bind. unfold get_driver at 1. cbv beta iota. rewrite Hd.
  cbv beta iota.
  enough (H : starts_with (chrome_start_event env config)
                (fun w => driver w = false)
                (ready ← (d' ← setup_selenium_driver env config;
                          set_driver d';; mret d');
                 if negb ready
                 then mret (Some "Selenium driver setup failed")
                 else
                   u ← getitem "url" (url product);
                   ask_ (DriverGet u) (fun h => driver_get env h u);;
                   handled ← handle_pincode_modal env product;
                   if negb handled
                   then mret (Some "Failed to handle pincode modal")
                   else
                     WebDriverWait_until env 15 ready_state_complete;;
                     mret None))
    by (apply H; exact Hd).
  apply starts_with_bind.
  - apply starts_with_bind; [apply starts_with_setup_selenium_driver|].
    intros d'. emits_solve.
  - intros ready. unfold WebDriverWait_until. emits_solve.
Qed.

End BrowserFacts.

(** X4: the browser cannot be started.  The dynamic checker logs the error
    and returns [None] with "Selenium driver setup failed"; no session is
    held afterwards, so the next dynamic check, of whatever product, begins
    with another attempt to start the browser. *)
Theorem selenium_setup_failure_is_retried
    (env : Env) (config : Config) (product : Product) (w : World) (e : exn) :
  driver w = false ->
  chrome env (trace w) = Some e ->
  check_stock_with_selenium env config product w
  = (Ok (None, "Selenium driver setup failed"),
     with_trace
       (trace w ++
        [chrome_start_event env config;
         Log ERROR ("Failed to setup Selenium driver: " +:+ str e)]) w)
  /\ forall next : Product,
      exists t,
        trace (snd (check_stock_with_selenium env config next
                      (with_trace
                         (trace w ++
                          [chrome_start_event env config;
                           Log ERROR ("Failed to setup Selenium driver: "
                                      +:+ str e)]) w)))
        = ((trace w ++
            [chrome_start_event env config;
             Log ERROR ("Failed to setup Selenium driver: " +:+ str e)])
           ++ chrome_start_event env config :: t)%list.
Proof.
  intros Hd Hchrome. split.
  - unfold check_stock_with_selenium, selenium_open_page,
      setup_selenium_driver, chrome_start_event.
    run_monad. rewrite Hd. simpl. rewrite Hd, Hchrome. simpl.
    unfold with_trace, with_driver. simpl. rewrite Hd, <- app_assoc.
    reflexivity.
  - intros next.
    apply (starts_with_check_stock_with_selenium env config next).
    exact Hd.
Qed.

Lemma selenium_setup_failure_is_retried_witness :
  check_stock_with_selenium no_chrome (config_of [ghee]) ghee initial_world
  = (Ok (None, "Selenium driver setup failed"),
     with_trace
       [ChromeStart "Mozilla/5.0" None;
        Log ERROR "Failed to setup Selenium driver: chrome not reachable"]
       initial_world)
  /\ List.filter is_chrome_start
       (trace (snd (for_each (single_check_step no_chrome
                                (config_of [ghee; lassi]))
                      [ghee; lassi] initial_world)))
     = [ChromeStart "Mozilla/5.0" None; ChromeStart "Mozilla/5.0" None].
Proof.
  split; [|reflexivity].
  exact (proj1 (selenium_setup_failure_is_retried no_chrome (config_of [ghee])
                  ghee initial_world (OtherException "chrome not reachable")
                  eq_refl eq_refl)).
Defined.

(** ** The browser session is reused *)

Lemma kept_bind {A B} (m : M A) (f : A -> M B) :
  session_kept m -> (forall a, session_kept (f a)) -> session_kept (m ≫= f).
Proof.
  intros Hm Hf w Hd. rewrite run_bind.
  destruct (Hm w Hd) as (Hd1 & t & Ht & Hp).
  destruct (m w) as [[a|e] w1]; simpl in *; [|eauto].
  destruct (Hf a w1 Hd1) as (Hd2 & t' & Ht' & Hp').
  split; [exact Hd2|]. exists (t ++ t')%list.
  rewrite Ht', Ht, app_assoc. split; [reflexivity|].
  apply Forall_app; auto.
Qed.

Lemma kept_try_except {A} (body : M A) (catches : exn -> bool)
    (handler : exn -> M A) :
  session_kept body -> (forall e, session_kept (handler e)) ->
  session_kept (try_except body catches handler).
Proof.
  intros Hb Hh w Hd. unfold try_except.
  destruct (Hb w Hd) as (Hd1 & t & Ht & Hp).
  destruct (body w) as [[a|e] w1]; simpl in *; [eauto|].
  destruct (catches e); simpl; [|eauto].
  destruct (Hh e w1 Hd1) as (Hd2 & t' & Ht' & Hp').
  split; [exact Hd2|]. exists (t ++ t')%list.
  rewrite Ht', Ht, app_assoc. split; [reflexivity|].
  apply Forall_app; auto.
Qed.

Lemma kept_try_finally {A} (body : M A) (fin : M unit) :
  session_kept body -> session_kept fin ->
  session_kept (try_finally body fin).
Proof.
  intros Hb Hf w Hd. unfold try_finally.
  destruct (Hb w Hd) as (Hd1 & t & Ht & Hp).
  destruct (body w) as [r w1]; simpl in *.
  destruct (Hf w1 Hd1) as (Hd2 & t' & Ht' & Hp').
  destruct (fin w1) as [[[]|e] w2]; simpl in *;
    (split; [exact Hd2|]; exists (t ++ t')%list;
     rewrite Ht', Ht, app_assoc; split; [reflexivity|];
     apply Forall_app; auto).
Qed.

(** A computation that leaves [self.driver] alone and starts no browser. *)
Lemma kept_of_emits {A} (m : M A) :
  emits (fun ev => negb (is_chrome_start ev)) m ->
  (forall w, driver (snd (m w)) = driver w) ->
  session_kept m.
Proof.
  intros He Hd w Hw. split; [rewrite Hd; exact Hw|].
  destruct (He w) as (t & Ht & Hp). exists t. split; [exact Ht|].
  eapply Forall_impl; [exact Hp|]. intros ev H.
  apply negb_true_iff in H. exact H.
Qed.

Lemma kept_ret {A} (a : A) : session_kept (mret a : M A).
Proof. apply kept_of_emits; [apply emits_ret|reflexivity]. Qed.

Lemma kept_raise {A} (e : exn) : session_kept (raise e : M A).
Proof. apply kept_of_emits; [apply emits_raise|reflexivity]. Qed.

Lemma kept_ask {A} (ev : event) (oracle : list event -> exn + A) :
  is_chrome_start ev = false -> session_kept (ask ev oracle).
Proof.
  intros Hev. apply kept_of_emits.
  - apply emits_ask. rewrite Hev. reflexivity.
  - intros w. unfold ask. destruct (oracle _); reflexivity.
Qed.

Lemma kept_emit (ev : event) :
  is_chrome_start ev = false -> session_kept (emit ev).
Proof.
  intros Hev. apply kept_of_emits; [|reflexivity].
  apply emits_emit. rewrite Hev. reflexivity.
Qed.

Lemma kept_silent {A} (m : M A) :
  (forall w, trace (snd (m w)) = trace w) ->
  (forall w, driver (snd (m w)) = driver w) ->
  session_kept m.
Proof. intros Ht Hd. apply kept_of_emits; [apply emits_silent|]; assumption. Qed.

Lemma kept_getitem {A} (key : string) (v : option A) :
  session_kept (getitem key v).
Proof. destruct v; [apply kept_ret | apply kept_raise]. Qed.

Ltac kept_step :=
  match goal with
  | |- forall _, _ => intro
  | |- session_kept (_ ≫= _) => apply kept_bind
  | |- session_kept (try_except _ _ _) => apply kept_try_except
  | |- session_kept (try_finally _ _) => apply kept_try_finally
  | |- session_kept (mret _) => apply kept_ret
  | |- session_kept (raise _) => apply kept_raise
  | |- session_kept (getitem _ _) => apply kept_getitem
  | |- session_kept (ask _ _) => apply kept_ask; reflexivity
  | |- session_kept (ask_ _ _) => apply kept_ask; reflexivity
  | |- session_kept (emit _) => apply kept_emit; reflexivity
  | |- session_kept get_driver => apply kept_silent; reflexivity
  | |- session_kept get_last_status => apply kept_silent; reflexivity
  | |- session_kept (set_last_status _) => apply kept_silent; reflexivity
  | |- session_kept (note _) => apply kept_silent; reflexivity
  | |- session_kept (datetime_now _) => apply kept_silent; reflexivity
  | |- session_kept (if ?b then _ else _) => destruct b
  | |- session_kept (match ?x with _ => _ end) => destruct x
  | |- session_kept (let _ := _ in _) => cbv zeta
  | |- session_kept _ => solve [auto]
  end.

Ltac kept_solve := repeat kept_step.

Section SessionFacts.
Context (env : Env) (config : Config).

Lemma kept_handle_pincode_modal (product : Product) :
  session_kept (handle_pincode_modal env product).
Proof.
  unfold handle_pincode_modal, logger_info, logger_warning, logger_error,
    sleep, element, WebDriverWait_until, driver_find_element.
  kept_solve.
Qed.

Lemma kept_setup_selenium_driver :
  session_kept (setup_selenium_driver env config).
Proof.
  intros w Hd. unfold setup_selenium_driver. run_monad. rewrite Hd. simpl.
  split; [exact Hd|]. exists []. rewrite app_nil_r. auto.
Qed.

Lemma kept_check_stock_with_selenium (product : Product) :
  session_kept (check_stock_with_selenium env config product).
Proof.
  pose proof kept_handle_pincode_modal as Hmodal.
  unfold check_stock_with_selenium.
  apply kept_try_except; [|unfold logger_error; kept_solve].
  apply kept_bind.
  - intros w Hd.
    assert (Hopen : selenium_open_page env config product w
                    = (u ← getitem "url" (url product);
                       ask_ (DriverGet u) (fun h => driver_get env h u);;
                       handled ← handle_pincode_modal env product;
                       if negb handled
                       then mret (Some "Failed to handle pincode modal")
                       else
                         WebDriverWait_until env 15 ready_state_complete;;
                         mret None) w).
    { unfold selenium_open_page. rewrite run_bind.
      unfold get_driver at 1. cbv beta iota. rewrite Hd. reflexivity. }
    rewrite Hopen. revert w Hd Hopen.
    enough (H : session_kept
                  (u ← getitem "url" (url product);
                   ask_ (DriverGet u) (fun h => driver_get env h u);;
                   handled ← handle_pincode_modal env product;
                   if negb handled
                   then mret (Some "Failed to handle pincode modal")
                   else
                     WebDriverWait_until env 15 ready_state_complete;;
                     mret None))
      by (intros w Hd _; apply H; exact Hd).
    unfold WebDriverWait_until. kept_solve.
  - intros [early|]; [apply kept_ret|].
    unfold selenium_look_for_alert, driver_find_element. kept_solve.
Qed.

Lemma kept_check_stock_status (product : Product) :
  session_kept (check_stock_status env config product).
Proof.
  unfold check_stock_status. destruct (use_selenium product);
    [apply kept_check_stock_with_selenium|].
  unfold check_stock_with_requests, requests_fetch, logger_error.
  kept_solve.
Qed.

Lemma kept_send_notification (product_name product_url message : string) :
  session_kept (send_notification env config product_name product_url message).
Proof.
  unfold send_notification, formataddr, logger_info, logger_error.
  kept_solve.
Qed.

Lemma kept_send_telegram_notification
    (product_name product_url message : string) :
  session_kept (send_telegram_notification env product_name product_url
                  message).
Proof.
  unfold send_telegram_notification, logger_info, logger_error. kept_solve.
Qed.

Lemma kept_single_check_step (product : Product) :
  session_kept (single_check_step env config product).
Proof.
  pose proof kept_check_stock_status.
  pose proof kept_send_notification.
  pose proof kept_send_telegram_notification.
  unfold single_check_step, logger_info, sleep. kept_solve.
Qed.

Lemma kept_monitor_step (product : Product) :
  session_kept (monitor_step env config product).
Proof.
  pose proof kept_check_stock_status.
  pose proof kept_send_notification.
  pose proof kept_send_telegram_notification.
  unfold monitor_step, logger_info, sleep. kept_solve.
Qed.

Lemma kept_for_each (body : Product -> M unit) (ps : list Product) :
  (forall p, session_kept (body p)) -> session_kept (for_each body ps).
Proof.
  intros Hbody. induction ps as [|p ps IH]; simpl; [apply kept_ret|].
  apply kept_bind; [apply Hbody|intros _; exact IH].
Qed.

Lemma kept_quit_driver_if_any (after : M unit) :
  session_kept after -> session_kept (quit_driver_if_any env after).
Proof. intros H. unfold quit_driver_if_any. kept_solve. Qed.

Lemma kept_interruptible_sleep (seconds : Z) :
  session_kept (interruptible_sleep env seconds).
Proof.
  unfold interruptible_sleep. destruct (seconds <? 0)%Z; [apply kept_raise|].
  apply kept_of_emits; [|reflexivity].
  intros w. exists [Sleep seconds]. split; [reflexivity|].
  repeat constructor.
Qed.

Lemma kept_monitor_loop (fuel : nat) :
  session_kept (monitor_loop env config fuel).
Proof.
  pose proof kept_monitor_step as Hstep.
  induction fuel as [|fuel IH]; simpl; [apply kept_ret|].
  apply kept_bind; [|intros [| |]; [exact IH|apply kept_ret..]].
  apply kept_try_except.
  - apply kept_bind; [apply kept_for_each; exact Hstep|intros _].
    unfold logger_info, sleep_until_next_check.
    apply kept_bind; [kept_solve|intros _].
    apply kept_bind; [apply kept_interruptible_sleep|kept_solve].
  - intros e. unfold logger_error.
    apply kept_bind; [kept_solve|intros _].
    apply kept_bind; [apply kept_interruptible_sleep|kept_solve].
Qed.

End SessionFacts.

(** X5: the browser session is shared.  Once [self.driver] holds a session,
    a check of any product, a whole single check and a continuous run of
    any number of rounds keep it and never start another browser. *)
Theorem browser_session_is_reused
    (env : Env) (config : Config) (w : World) :
  driver w = true ->
  (forall product,
      driver (snd (check_stock_status env config product w)) = true
      /\ List.filter is_chrome_start
           (trace (snd (check_stock_status env config product w)))
         = List.filter is_chrome_start (trace w))
  /\ (driver (snd (run_single_check env config w)) = true
      /\ List.filter is_chrome_start
           (trace (snd (run_single_check env config w)))
         = List.filter is_chrome_start (trace w))
  /\ (forall fuel,
      driver (snd (monitor_products env config fuel w)) = true
      /\ List.filter is_chrome_start
           (trace (snd (monitor_products env config fuel w)))
         = List.filter is_chrome_start (trace w)).
Proof.
  intros Hd.
  assert (Hfilter : forall t,
             Forall (fun ev => is_chrome_start ev = false) t ->
             List.filter is_chrome_start (trace w ++ t)
             = List.filter is_chrome_start (trace w)).
  { intros t Ht. rewrite List.filter_app.
    replace (List.filter is_chrome_start t) with (@nil event);
      [apply app_nil_r|].
    induction Ht as [|ev t Hev _ IH]; simpl; [reflexivity|].
    rewrite Hev. exact IH. }
  assert (Huse : forall A (m : M A),
             session_kept m ->
             driver (snd (m w)) = true
             /\ List.filter is_chrome_start (trace (snd (m w)))
                = List.filter is_chrome_start (trace w)).
  { intros A m Hm. destruct (Hm w Hd) as (Hd' & t & Ht & Hp).
    split; [exact Hd'|]. rewrite Ht. apply Hfilter, Hp. }
  split; [|split].
  - intros product. apply Huse, kept_check_stock_status.
  - apply Huse. unfold run_single_check, logger_info, logger_error.
    apply kept_bind; [kept_solve|intros _].
    apply kept_try_finally.
    + apply kept_try_except; [|kept_solve].
      apply kept_for_each, kept_single_check_step.
    + apply kept_quit_driver_if_any. kept_solve.
  - intros fuel. apply Huse. unfold monitor_products, logger_info.
    apply kept_bind; [kept_solve|intros _].
    apply kept_bind; [kept_solve|intros _].
    apply kept_bind; [apply kept_monitor_loop|].
    intros [| |]; try apply kept_ret.
    apply kept_bind; [|kept_solve].
    apply kept_quit_driver_if_any, kept_ret.
Qed.

(** ** The modal resolver with an active modal *)

(** Running an external call from a world written as the trace of [w]
    followed by the events [t]: the call is added at the end of [t]. *)
Lemma with_trace_nil (w : World) : with_trace (trace w ++ []) w = w.
Proof.
  destruct w. unfold with_trace. simpl. rewrite app_nil_r. reflexivity.
Qed.

Lemma run_ask_at {A} (ev : event) (oracle : list event -> exn + A)
    (t : list event) (w : World) :
  ask ev oracle (with_trace (trace w ++ t) w)
  = (match oracle (trace w ++ t)%list with
     | inl e => Raise e
     | inr a => Ok a
     end,
     with_trace (trace w ++ (t ++ [ev])) w).
Proof.
  unfold ask, with_trace. simpl. rewrite <- List.app_assoc.
  destruct (oracle _); reflexivity.
Qed.

Lemma run_emit_at (ev : event) (t : list event) (w : World) :
  emit ev (with_trace (trace w ++ t) w)
  = (Ok tt, with_trace (trace w ++ (t ++ [ev])) w).
Proof.
  unfold emit, with_trace. simpl. rewrite <- List.app_assoc. reflexivity.
Qed.

Ltac run_at :=
  repeat first
    [ rewrite run_bind
    | rewrite run_ret
    | rewrite run_ask_at
    | rewrite run_emit_at
    | progress cbv beta iota ].

(** X6: the modal is active and the page lets itself be operated.  The
    resolver then types the pincode into the input; clicks the dropdown
    entry of the pincode when one shows up within 10 seconds and goes on
    without it otherwise; clicks the submit button when there is one and
    presses Enter in the input otherwise; and waits for the modal to
    disappear.  It returns [True] when that last wait succeeds, after a
    pause of 2 seconds, and [False] when it raises, a timeout included. *)
Theorem handle_pincode_modal_dialogue
    (env : Env) (product : Product) (pin : string) (w : World)
    (modal input pincode_input : WebElement)
    (dropdown button : option WebElement) (gone : exn + WebElement)
    (msg msg' : string) :
  pincode product = Some pin -> pin <> "" ->
  (forall h, wait_until env h 5
               (visibility_of_element_located CSS_SELECTOR
                  (modal_selector product)) = inr modal) ->
  (forall h, wait_until env h 5
               (element_to_be_clickable CSS_SELECTOR (input_selector product))
             = inr input) ->
  (forall h, find_element env h CSS_SELECTOR (input_selector product)
             = inr pincode_input) ->
  (forall h el a, element_do env h el a = None) ->
  (forall h, wait_until env h 10
               (element_to_be_clickable XPATH (dropdown_xpath pin))
             = match dropdown with
               | Some matching_item => inr matching_item
               | None => inl (TimeoutException msg)
               end) ->
  (forall h, find_element env h CSS_SELECTOR (submit_selector product)
             = match button with
               | Some submit_button => inr submit_button
               | None => inl (NoSuchElementException msg')
               end) ->
  (forall h, wait_until env h 10
               (invisibility_of_element_located CSS_SELECTOR
                  (modal_selector product)) = gone) ->
  handle_pincode_modal env product w
  = (Ok (match gone with inr _ => true | inl _ => false end),
     with_trace
       (trace w
        ++ modal_dialogue product pin pincode_input dropdown button gone) w).
Proof.
  intros Hpin Hne Hvis Hclk Hinput Hdo Hdrop Hsubmit Hgone.
  unfold handle_pincode_modal, modal_dialogue. rewrite Hpin.
  destruct pin as [|c pin']; [congruence|].
  unfold submit_selector, dropdown_xpath in *.
  cbn [truthy negb default from_option].
  rewrite <- (with_trace_nil w) at 1.
  unfold logger_info, logger_warning, logger_error, sleep, element,
    WebDriverWait_until, driver_find_element, ask_, try_except.
  run_at.
  rewrite Hvis. run_at. rewrite Hclk. run_at. cbn [negb]. run_at.
  rewrite Hinput. run_at. rewrite ?Hdo. run_at. rewrite ?Hdo. run_at.
  rewrite Hdrop.
  destruct dropdown as [item|]; run_at; rewrite ?Hdo; run_at;
    cbn [is_TimeoutException]; run_at;
    rewrite Hsubmit; destruct button as [b|]; run_at; rewrite ?Hdo; run_at;
    cbn [is_NoSuchElementException]; run_at; rewrite ?Hdo; run_at;
    rewrite Hgone; destruct gone as [e|el]; run_at; cbn [is_Exception];
    run_at; reflexivity.
Qed.

Lemma handle_pincode_modal_dialogue_witness :
  pincode lassi = Some "110001"
  /\ handle_pincode_modal (modal_page true true true) lassi initial_world
     = (Ok true,
        with_trace
          (modal_dialogue lassi "110001" 2 (Some 3) (Some 4) (inr 0))
          initial_world)
  /\ handle_pincode_modal (modal_page false false true) lassi initial_world
     = (Ok true,
        with_trace (modal_dialogue lassi "110001" 2 None None (inr 0))
          initial_world)
  /\ handle_pincode_modal (modal_page true true false) lassi initial_world
     = (Ok false,
        with_trace
          (modal_dialogue lassi "110001" 2 (Some 3) (Some 4)
             (inl (TimeoutException "Message: ")))
          initial_world).
Proof.
  split; [reflexivity|]. split; [|split].
  - exact (handle_pincode_modal_dialogue (modal_page true true true) lassi
             "110001" initial_world 1 2 2 (Some 3) (Some 4) (inr 0) "" ""
             eq_refl ltac:(discriminate)
             (fun _ => eq_refl) (fun _ => eq_refl) (fun _ => eq_refl)
             (fun _ _ _ => eq_refl) (fun _ => eq_refl) (fun _ => eq_refl)
             (fun _ => eq_refl)).
  - exact (handle_pincode_modal_dialogue (modal_page false false true) lassi
             "110001" initial_world 1 2 2 None None (inr 0)
             "Message: " "Message: no such element"
             eq_refl ltac:(discriminate)
             (fun _ => eq_refl) (fun _ => eq_refl) (fun _ => eq_refl)
             (fun _ _ _ => eq_refl) (fun _ => eq_refl) (fun _ => eq_refl)
             (fun _ => eq_refl)).
  - exact (handle_pincode_modal_dialogue (modal_page true true false) lassi
             "110001" initial_world 1 2 2 (Some 3) (Some 4)
             (inl (TimeoutException "Message: ")) "" ""
             eq_refl ltac:(discriminate)
             (fun _ => eq_refl) (fun _ => eq_refl) (fun _ => eq_refl)
             (fun _ _ _ => eq_refl) (fun _ => eq_refl) (fun _ => eq_refl)
             (fun _ => eq_refl)).
Defined.

(** X7: a failure of the modal resolver makes the check indeterminate.  With
    a session at hand and the page opened, [handle_pincode_modal] returns
    [True] or [False] and never raises; when it returns [False] the
    dynamic checker returns [None] with "Failed to handle pincode modal"
    and does nothing more: it neither waits for the page nor looks for the
    alert. *)
Theorem modal_failure_is_indeterminate
    (env : Env) (config : Config) (product : Product) (u : string)
    (w : World) :
  driver w = true ->
  url product = Some u ->
  driver_get env (trace w) u = None ->
  exists handled w1,
    handle_pincode_modal env product
      (with_trace (trace w ++ [DriverGet u]) w) = (Ok handled, w1)
    /\ (handled = false ->
        check_stock_with_selenium env config product w
        = (Ok (None, "Failed to handle pincode modal"), w1)).
Proof.
  intros Hd Hu Hget.
  assert (Htotal : never_raises (handle_pincode_modal env product)).
  { unfold handle_pincode_modal. apply total_try_except. intros e.
    apply total_bind; [apply total_emit|intros; apply total_ret]. }
  destruct (Htotal (with_trace (trace w ++ [DriverGet u]) w)) as [handled H].
  destruct (handle_pincode_modal env product _) as [r w1] eqn:Hrun.
  simpl in H. subst r. exists handled, w1. split; [reflexivity|].
  intros ->.
  unfold check_stock_with_selenium, selenium_open_page, try_except.
  rewrite Hu. unfold getitem, ask_, ask, get_driver.
  repeat first [rewrite run_bind | rewrite run_ret | progress cbv beta iota].
  rewrite Hd.
  repeat first [rewrite run_bind | rewrite run_ret | progress cbv beta iota].
  cbn [negb]. change (ret u) with (mret u : M string).
  repeat first [rewrite run_bind | rewrite run_ret | progress cbv beta iota].
  rewrite Hget.
  repeat first [rewrite run_bind | rewrite run_ret | progress cbv beta iota].
  rewrite Hrun.
  repeat first [rewrite run_bind | rewrite run_ret | progress cbv beta iota].
  reflexivity.
Qed.

Lemma modal_failure_is_indeterminate_witness :
  driver (with_driver true initial_world) = true
  /\ fst (handle_pincode_modal (modal_page true true false) lassi
            (with_trace [DriverGet "https://shop.example/lassi"]
               (with_driver true initial_world))) = Ok false
  /\ fst (check_stock_with_selenium (modal_page true true false)
            (config_of [lassi]) lassi (with_driver true initial_world))
     = Ok (None, "Failed to handle pincode modal").
Proof.
  split; [reflexivity|]. split; [reflexivity|].
  destruct (modal_failure_is_indeterminate (modal_page true true false)
              (config_of [lassi]) lassi "https://shop.example/lassi"
              (with_driver true initial_world) eq_refl eq_refl eq_refl)
    as (handled & w1 & Hrun & Hfail).
  assert (Hh : handled = false).
  { pose proof (f_equal fst Hrun) as H. vm_compute in H. congruence. }
  rewrite (Hfail Hh). reflexivity.
Defined.

Lemma browser_session_is_reused_witness :
  driver (with_driver true initial_world) = true
  /\ List.filter is_chrome_start
       (trace (snd (run_single_check in_stock (config_of [ghee; lassi])
                      (with_driver true initial_world)))) = []
  /\ List.filter is_chrome_start
       (trace (snd (run_single_check in_stock (config_of [ghee; lassi])
                      initial_world)))
     = [ChromeStart "Mozilla/5.0" None].
Proof.
  split; [reflexivity|]. split; [|reflexivity].
  exact (proj2 (proj1 (proj2 (browser_session_is_reused in_stock
                                (config_of [ghee; lassi])
                                (with_driver true initial_world) eq_refl)))).
Defined.

(** ** The two loops *)


(** X12: a pass over the product list, in either mode, can raise one thing
    only: the [KeyError] of an entry without ['name'].  When every entry
    has a name the pass runs to its end whatever the network, the browser
    and the mail server do; otherwise it raises [KeyError('name')]. *)
Theorem pass_raises_only_for_nameless
    (env : Env) (config : Config) (ps : list Product) (w : World) :
  (Forall (fun p => name p <> None) ps ->
   fst (for_each (single_check_step env config) ps w) = Ok tt
   /\ fst (for_each (monitor_step env config) ps w) = Ok tt)
  /\ (~ Forall (fun p => name p <> None) ps ->
      fst (for_each (single_check_step env config) ps w)
      = Raise (KeyError "name")
      /\ fst (for_each (monitor_step env config) ps w)
         = Raise (KeyError "name")).
Proof.
  rewrite (for_each_outcome (single_check_step env config) ps
             (total_single_check_step env config)
             (fun p w H => single_check_step_nameless env config p w H)).
  rewrite (for_each_outcome (monitor_step env config) ps
             (total_monitor_step env config)
             (fun p w H => monitor_step_nameless env config p w H)).
  destruct (forallb _ ps) eqn:Hall.
  - split; [auto|]. intros Hnot. exfalso. apply Hnot.
    apply List.Forall_forall. intros p Hp.
    rewrite List.forallb_forall in Hall. specialize (Hall p Hp).
    apply bool_decide_eq_true in Hall. exact Hall.
  - split; [|auto]. intros Hforall. exfalso.
    assert (Htrue : forallb (fun p => bool_decide (name p <> None)) ps = true).
    { apply List.forallb_forall. intros p Hp. apply bool_decide_eq_true.
      rewrite List.Forall_forall in Hforall. apply Hforall. exact Hp. }
    congruence.
Qed.

Lemma pass_raises_only_for_nameless_witness :
  Forall (fun p => name p <> None) [widget; ghee; lassi]
  /\ fst (for_each (monitor_step offline (config_of [widget; ghee; lassi]))
            [widget; ghee; lassi] initial_world) = Ok tt
  /\ fst (for_each (monitor_step offline (config_of [widget; nameless]))
            [widget; nameless] initial_world) = Raise (KeyError "name").
Proof.
  assert (H : Forall (fun p => name p <> None) [widget; ghee; lassi])
    by (repeat constructor; discriminate).
  split; [exact H|]. split.
  - exact (proj2 (proj1 (pass_raises_only_for_nameless offline
                           (config_of [widget; ghee; lassi])
                           [widget; ghee; lassi] initial_world) H)).
  - apply (proj2 (pass_raises_only_for_nameless offline
                    (config_of [widget; nameless]) [widget; nameless]
                    initial_world)).
    intros Hall. inversion Hall as [|? ? _ Hrest]. subst.
    inversion Hrest as [|? ? Hn _]. subst. apply Hn. reflexivity.
Defined.

(** *** Single-check mode *)

Lemma verdicts_for_app (n : string) (cs cs' : list call) :
  verdicts_for n (cs ++ cs') = (verdicts_for n cs ++ verdicts_for n cs')%list.
Proof.
  induction cs as [|c cs IH]; simpl; [reflexivity|].
  destruct c; simpl; try exact IH.
  destruct (String.eqb n product_name); simpl; rewrite IH; reflexivity.
Qed.

Lemma emails_for_app (n : string) (cs cs' : list call) :
  emails_for n (cs ++ cs') = emails_for n cs + emails_for n cs'.
Proof.
  induction cs as [|c cs IH]; simpl; [reflexivity|].
  destruct c; simpl; try exact IH.
  destruct (String.eqb n product_name); simpl; rewrite IH; reflexivity.
Qed.

Lemma chats_for_app (n : string) (cs cs' : list call) :
  chats_for n (cs ++ cs') = chats_for n cs + chats_for n cs'.
Proof.
  induction cs as [|c cs IH]; simpl; [reflexivity|].
  destruct c; simpl; try exact IH.
  destruct (String.eqb n product_name); simpl; rewrite IH; reflexivity.
Qed.

Lemma count_in_stock_app (vs vs' : list (option bool)) :
  count_in_stock (vs ++ vs') = count_in_stock vs + count_in_stock vs'.
Proof.
  induction vs as [|[[|]|] vs IH]; simpl; rewrite ?IH; reflexivity.
Qed.

Lemma keeps_try_finally {A} (P : World -> Prop) (body : M A) (fin : M unit) :
  keeps P body -> keeps P fin -> keeps P (try_finally body fin).
Proof.
  intros Hb Hf w HP. unfold try_finally. specialize (Hb w HP).
  destruct (body w) as [r w1]; simpl in *. specialize (Hf w1 Hb).
  destruct (fin w1) as [[[]|e] w2]; exact Hf.
Qed.

Lemma keeps_ghost_frame {A} (P : World -> Prop) (m : M A) :
  (forall w w', calls w' = calls w -> last_status w' = last_status w ->
                P w -> P w') ->
  ghost_frame m -> keeps P m.
Proof.
  intros HP Hm w Hw. destruct (Hm w) as [Hc Hl]. exact (HP _ _ Hc Hl Hw).
Qed.

Section SingleCheckFacts.
Context (env : Env) (config : Config).

Lemma single_check_invariant_frame (cs0 : list call) (ls0 : gmap string bool)
    (w w' : World) :
  calls w' = calls w -> last_status w' = last_status w ->
  single_check_invariant cs0 ls0 w -> single_check_invariant cs0 ls0 w'.
Proof.
  intros Hc Hl (Hls & cs & Hcs & Hn). split; [congruence|].
  exists cs. split; [congruence|exact Hn].
Qed.

Lemma keeps_single_check_step (cs0 : list call) (ls0 : gmap string bool)
    (product : Product) :
  keeps (single_check_invariant cs0 ls0) (single_check_step env config product).
Proof.
  intros w Hinv.
  destruct (name product) as [n0|] eqn:Hname.
  2:{ rewrite single_check_step_nameless by exact Hname. exact Hinv. }
  pose (wc := with_trace
                (trace w ++ [Log INFO ("Checking " +:+ n0 +:+ "...")]) w).
  destruct (total_check_stock_status env config product n0 Hname wc)
    as [[v message] Hok].
  destruct (check_stock_status env config product wc) as [r w1] eqn:Hcheck.
  simpl in Hok. subst r.
  destruct (frame_check_stock_status env config product wc) as [Hc Hl].
  rewrite Hcheck in Hc, Hl. simpl in Hc, Hl.
  destruct (single_check_step_spec env config product n0 w w1 v message
              Hname Hcheck) as (u & w2 & Hrun & Hcalls & Hlast).
  rewrite Hrun. simpl. destruct Hinv as (Hls & cs & Hcs & Hcount).
  split; [congruence|]. eexists. split.
  { rewrite Hcalls, Hc. simpl. rewrite Hcs, <- app_assoc. reflexivity. }
  intros n. destruct (Hcount n) as [He Ht].
  rewrite verdicts_for_app, emails_for_app, chats_for_app,
    count_in_stock_app, He, Ht.
  destruct v as [[|]|]; simpl; destruct (String.eqb n n0); simpl; auto.
Qed.

End SingleCheckFacts.

(** X13: single-check mode has no memory.  [run_single_check] neither reads
    nor changes [last_status], and calls each channel once for every
    InStock verdict it observes: for every product name, the number of
    calls of either channel is the number of InStock verdicts of that
    name. *)
Theorem run_single_check_has_no_memory
    (env : Env) (config : Config) (w : World) (n : string) :
  last_status (snd (run_single_check env config w)) = last_status w
  /\ exists cs,
      calls (snd (run_single_check env config w)) = (calls w ++ cs)%list
      /\ emails_for n cs = count_in_stock (verdicts_for n cs)
      /\ chats_for n cs = count_in_stock (verdicts_for n cs).
Proof.
  assert (H : keeps (single_check_invariant (calls w) (last_status w))
                (run_single_check env config)).
  { unfold run_single_check, logger_info, logger_error.
    apply keeps_bind;
      [apply keeps_ghost_frame;
       [apply single_check_invariant_frame|apply frame_emit]|intros _].
    apply keeps_try_finally.
    - apply keeps_try_except.
      + apply keeps_for_each. intros p. apply keeps_single_check_step.
      + intros e. apply keeps_ghost_frame;
          [apply single_check_invariant_frame|apply frame_emit].
    - apply keeps_ghost_frame; [apply single_check_invariant_frame|].
      apply frame_quit_driver_if_any, frame_emit. }
  destruct (H w) as (Hls & cs & Hcs & Hcount).
  { split; [reflexivity|]. exists []. rewrite app_nil_r.
    split; [reflexivity|]. intros; split; reflexivity. }
  split; [exact Hls|]. exists cs. split; [exact Hcs|]. apply Hcount.
Qed.

(** *** Releasing the browser *)

Section QuitFacts.
Context (env : Env) (config : Config).

Lemma no_quit_check_stock_status (product : Product) :
  emits no_quit (check_stock_status env config product).
Proof.
  unfold check_stock_status, check_stock_with_selenium,
    check_stock_with_requests, requests_fetch, selenium_open_page,
    selenium_look_for_alert, setup_selenium_driver, handle_pincode_modal,
    logger_info, logger_warning, logger_error, sleep, element,
    WebDriverWait_until, driver_find_element.
  emits_solve.
Qed.

Lemma no_quit_send_notification (n u m : string) :
  emits no_quit (send_notification env config n u m).
Proof.
  unfold send_notification, formataddr, logger_info, logger_error.
  emits_solve.
Qed.

Lemma no_quit_send_telegram_notification (n u m : string) :
  emits no_quit (send_telegram_notification env n u m).
Proof.
  unfold send_telegram_notification, logger_info, logger_error. emits_solve.
Qed.

Lemma no_quit_single_check_step (product : Product) :
  emits no_quit (single_check_step env config product).
Proof.
  pose proof no_quit_check_stock_status.
  pose proof no_quit_send_notification.
  pose proof no_quit_send_telegram_notification.
  unfold single_check_step, logger_info, sleep. emits_solve.
Qed.


Lemma emits_for_each (p : event -> bool) (body : Product -> M unit)
    (ps : list Product) :
  (forall q, emits p (body q)) -> emits p (for_each body ps).
Proof.
  intros Hbody. induction ps as [|q ps IH]; simpl; [apply emits_ret|].
  apply emits_bind; [apply Hbody|intros _; exact IH].
Qed.

Lemma emits_interruptible_sleep (p : event -> bool) (seconds : Z) :
  p (Sleep seconds) = true -> emits p (interruptible_sleep env seconds).
Proof.
  intros Hp. unfold interruptible_sleep.
  destruct (seconds <? 0)%Z; [apply emits_raise|].
  intros w. exists [Sleep seconds]. split; [reflexivity|].
  repeat constructor. exact Hp.
Qed.

(** The pause after an error, lines 378-379. *)
Lemma pause_after_error_outcome (e : exn) (w : World) :
  (logger_error ("Unexpected error: " +:+ str e);;
   interrupt ← interruptible_sleep env 60;
   if interrupt : bool then mret uncaught_KeyboardInterrupt
   else mret still_running) w
  = (Ok (if interrupted env
              (trace w ++ [Log ERROR ("Unexpected error: " +:+ str e)])
         then uncaught_KeyboardInterrupt else still_running),
     with_trace
       (trace w ++ [Log ERROR ("Unexpected error: " +:+ str e); Sleep 60]) w).
Proof.
  unfold logger_error, interruptible_sleep. run_monad.
  destruct (interrupted env _); tidy_world; reflexivity.
Qed.

(** The end of a round without an error, lines 371-376. *)
Lemma wait_for_next_round_outcome (w : World) :
  (logger_info ("Waiting " +:+ pretty (check_interval config)
                +:+ " seconds before next check...");;
   interrupt ← sleep_until_next_check env config;
   if interrupt : bool
   then logger_info "Monitor stopped by user";; mret stopped_by_user
   else mret still_running) w
  = if (check_interval config <? 0)%Z
    then (Raise (ValueError "sleep length must be non-negative"),
          with_trace
            (trace w ++ [Log INFO ("Waiting " +:+ pretty (check_interval config)
                                   +:+ " seconds before next check...")]) w)
    else if interrupted env
              (trace w ++ [Log INFO ("Waiting "
                                     +:+ pretty (check_interval config)
                                     +:+ " seconds before next check...")])
    then (Ok stopped_by_user,
          with_trace
            (trace w ++ [Log INFO ("Waiting " +:+ pretty (check_interval config)
                                   +:+ " seconds before next check...");
                         Sleep (check_interval config);
                         Log INFO "Monitor stopped by user"]) w)
    else (Ok still_running,
          with_trace
            (trace w ++ [Log INFO ("Waiting " +:+ pretty (check_interval config)
                                   +:+ " seconds before next check...");
                         Sleep (check_interval config)]) w).
Proof.
  unfold logger_info, sleep_until_next_check, interruptible_sleep.
  destruct (check_interval config <? 0)%Z; [reflexivity|].
  run_monad. destruct (interrupted env _); tidy_world; reflexivity.
Qed.


End QuitFacts.

(** X14: what [run_single_check] returns, and the browser.  The only
    exception that can leave [run_single_check] is one raised by
    [self.driver.quit()] in the [finally] clause.  The browser is quit at
    most once, as the last effect, and exactly when a session is held at
    the end; "Browser closed" is logged when quitting succeeds. *)
Theorem run_single_check_outcome
    (env : Env) (config : Config) (w : World) :
  (fst (run_single_check env config w) = Ok tt
   \/ exists h e, driver_quit env h = Some e
                  /\ fst (run_single_check env config w) = Raise e)
  /\ exists t,
      Forall (fun ev => is_driver_quit ev = false) t
      /\ trace (snd (run_single_check env config w))
         = (trace w ++ t ++
            if driver (snd (run_single_check env config w))
            then DriverQuit ::
                 match fst (run_single_check env config w) with
                 | Ok _ => [Log INFO "Browser closed"]
                 | Raise _ => []
                 end
            else [])%list.
Proof.
  pose (inner := try_except
                   (for_each (single_check_step env config) (products config))
                   is_Exception
                   (fun e => logger_error
                               ("Unexpected error during check: " +:+ str e))).
  pose (w0 := with_trace
                (trace w ++ [Log INFO "Starting single stock check..."]) w).
  assert (Hemits : emits no_quit inner).
  { unfold inner, logger_error.
    apply emits_try_except; [|emits_solve].
    apply emits_for_each, no_quit_single_check_step. }
  assert (Htotal : never_raises inner).
  { apply total_try_except. intros e. apply total_emit. }
  change (run_single_check env config w)
    with (try_finally inner
            (quit_driver_if_any env (logger_info "Browser closed")) w0).
  destruct (Hemits w0) as (t & Ht & Hp). destruct (Htotal w0) as [[] Hok].
  assert (Hp' : Forall (fun ev => is_driver_quit ev = false)
                  (Log INFO "Starting single stock check..." :: t)).
  { constructor; [reflexivity|].
    eapply Forall_impl; [exact Hp|]. intros ev H.
    apply negb_true_iff in H. exact H. }
  unfold try_finally. destruct (inner w0) as [r w1].
  simpl in Ht, Hok. subst r. rewrite <- List.app_assoc in Ht. simpl in Ht.
  unfold quit_driver_if_any. rewrite run_bind.
  unfold get_driver. cbv beta iota.
  destruct (driver w1) eqn:Hd.
  - rewrite run_bind. unfold ask_, ask, logger_info, emit.
    destruct (driver_quit env (trace w1)) as [e|] eqn:Hquit; cbv beta iota;
      cbn [fst snd driver with_trace trace]; rewrite Hd.
    + split; [right; eauto|]. eexists. split; [exact Hp'|].
      rewrite Ht, <- List.app_assoc. reflexivity.
    + split; [left; reflexivity|]. eexists. split; [exact Hp'|].
      rewrite Ht, <- !List.app_assoc. reflexivity.
  - rewrite run_ret. cbn [fst snd]. rewrite Hd.
    split; [left; reflexivity|]. eexists. split; [exact Hp'|].
    rewrite Ht, List.app_nil_r. reflexivity.
Qed.

(** *** Continuous mode *)



(** X16: in continuous mode an entry without a name starves the entries
    behind it.  Every round ends at that entry in the [KeyError], the
    error is logged, the loop pauses 60 seconds and, unless it is
    interrupted during that pause, starts the next round at the first
    product again: the whole run is the one of the list cut behind the
    nameless entry, so the entries behind it are never checked. *)
Theorem nameless_entry_starves_the_rest
    (env : Env) (config : Config) (before : list Product) (product : Product)
    (behind : list Product) :
  name product = None ->
  (forall fuel w,
      monitor_products env
        (set_products (before ++ product :: behind) config) fuel w
      = monitor_products env
          (set_products (before ++ [product]) config) fuel w)
  /\ (forall fuel w w1,
      for_each (monitor_step env config) before w = (Ok tt, w1) ->
      monitor_loop env
        (set_products (before ++ product :: behind) config) (S fuel) w
      = if interrupted env
             (trace w1 ++ [Log ERROR "Unexpected error: 'name'"])
        then (Ok uncaught_KeyboardInterrupt,
              with_trace
                (trace w1 ++ [Log ERROR "Unexpected error: 'name'"; Sleep 60])
                w1)
        else monitor_loop env
               (set_products (before ++ product :: behind) config) fuel
               (with_trace
                  (trace w1 ++ [Log ERROR "Unexpected error: 'name'"; Sleep 60])
                  w1)).
Proof.
  intros Hname.
  assert (Hstep : forall ps,
             monitor_step env (set_products ps config)
             = monitor_step env config) by reflexivity.
  assert (Hcut : forall w,
             for_each (monitor_step env config)
               (before ++ product :: behind) w
             = for_each (monitor_step env config) (before ++ [product]) w).
  { intros w. rewrite !for_each_app, !run_bind.
    destruct (for_each (monitor_step env config) before w) as [[[]|e] w1];
      [|reflexivity].
    simpl. rewrite !run_bind, monitor_step_nameless by exact Hname.
    reflexivity. }
  split.
  - intros fuel w. unfold monitor_products. rewrite !run_bind.
    unfold logger_info, emit, set_last_status. cbv beta iota.
    rewrite !run_bind.
    enough (Hloop : forall w0,
               monitor_loop env
                 (set_products (before ++ product :: behind) config) fuel w0
               = monitor_loop env
                   (set_products (before ++ [product]) config) fuel w0)
      by (rewrite Hloop; reflexivity).
    induction fuel as [|fuel IH]; intros w0; [reflexivity|].
    simpl. rewrite !run_bind. unfold try_except. rewrite !run_bind.
    rewrite !Hstep, Hcut.
    destruct (for_each (monitor_step env config) (before ++ [product]) w0)
      as [[[]|e] w1]; cbv beta iota.
    + change (sleep_until_next_check env
                (set_products (before ++ product :: behind) config))
        with (sleep_until_next_check env config).
      change (sleep_until_next_check env
                (set_products (before ++ [product]) config))
        with (sleep_until_next_check env config).
      rewrite !wait_for_next_round_outcome.
      destruct (check_interval config <? 0)%Z;
        [|destruct (interrupted env _)]; cbv beta iota.
      * change (is_Exception _) with true. cbv beta iota.
        rewrite !pause_after_error_outcome.
        destruct (interrupted env _); cbv beta iota; [reflexivity|apply IH].
      * reflexivity.
      * apply IH.
    + change (is_Exception e) with true. cbv beta iota.
      rewrite !pause_after_error_outcome.
      destruct (interrupted env _); cbv beta iota; [reflexivity|apply IH].
  - intros fuel w w1 Hbefore. simpl. rewrite run_bind.
    unfold try_except. rewrite run_bind.
    change (products (set_products (before ++ product :: behind) config))
      with (before ++ product :: behind)%list.
    rewrite Hstep, for_each_app, run_bind, Hbefore. simpl for_each.
    cbv beta iota.
    rewrite run_bind, monitor_step_nameless by exact Hname.
    cbv beta iota. change (is_Exception _) with true. cbv beta iota.
    rewrite pause_after_error_outcome.
    destruct (interrupted env _); reflexivity.
Qed.

Lemma nameless_entry_starves_the_rest_witness :
  name nameless = None
  /\ monitor_products in_stock
       (set_products [widget; nameless; ghee; lassi] (config_of [])) 3
       initial_world
     = monitor_products in_stock
         (set_products [widget; nameless] (config_of [])) 3 initial_world
  /\ verdicts_for "Ghee"
       (calls (snd (monitor_products in_stock
                      (set_products [widget; nameless; ghee; lassi]
                         (config_of [])) 3 initial_world))) = [].
Proof.
  split; [reflexivity|]. split; [|reflexivity].
  exact (proj1 (nameless_entry_starves_the_rest in_stock (config_of [])
                  [widget] nameless [ghee; lassi] eq_refl) 3 initial_world).
Defined.

Section TrackerFacts.
Context (env : Env) (config : Config).

Lemma tracks_configured_names_frame (w w' : World) :
  calls w' = calls w -> last_status w' = last_status w ->
  tracks_configured_names config w -> tracks_configured_names config w'.
Proof. intros _ Hl H n. rewrite Hl. apply H. Qed.

Lemma keeps_names_monitor_step (product : Product) :
  In product (products config) ->
  keeps (tracks_configured_names config) (monitor_step env config product).
Proof.
  intros Hin w Hinv.
  destruct (name product) as [n0|] eqn:Hname.
  2:{ rewrite monitor_step_nameless by exact Hname. exact Hinv. }
  pose (wc := with_trace
                (trace w ++ [Log INFO ("Checking " +:+ n0 +:+ "...")]) w).
  destruct (total_check_stock_status env config product n0 Hname wc)
    as [[v message] Hok].
  destruct (check_stock_status env config product wc) as [r w1] eqn:Hcheck.
  simpl in Hok. subst r.
  destruct (frame_check_stock_status env config product wc) as [_ Hl].
  rewrite Hcheck in Hl. simpl in Hl.
  destruct (monitor_step_spec env config product n0 w w1 v message
              Hname Hcheck) as (u & w2 & Hrun & _ & _ & Hlast & _).
  rewrite Hrun. simpl. intros n. rewrite Hlast, Hl.
  destruct v as [b|]; [|apply Hinv].
  destruct (decide (n0 = n)) as [<-|Hne].
  - intros _. exists product. auto.
  - rewrite lookup_insert_ne by exact Hne. apply Hinv.
Qed.

Lemma keeps_names_for_each (ps : list Product) :
  (forall p, In p ps -> In p (products config)) ->
  keeps (tracks_configured_names config)
    (for_each (monitor_step env config) ps).
Proof.
  induction ps as [|p ps IH]; intros Hsub; simpl.
  - intros w Hw. exact Hw.
  - apply keeps_bind.
    + apply keeps_names_monitor_step, Hsub. left. reflexivity.
    + intros _. apply IH. intros q Hq. apply Hsub. right. exact Hq.
Qed.

Lemma keeps_names_monitor_loop (fuel : nat) :
  keeps (tracks_configured_names config) (monitor_loop env config fuel).
Proof.
  induction fuel as [|fuel IH]; simpl.
  - intros w Hw. exact Hw.
  - apply keeps_bind; [|intros [| |]; [exact IH|intros w Hw; exact Hw..]].
    apply keeps_try_except.
    + apply keeps_bind; [apply keeps_names_for_each; auto|intros _].
      apply keeps_ghost_frame; [apply tracks_configured_names_frame|].
      apply frame_wait_for_next_round.
    + intros e.
      apply keeps_ghost_frame; [apply tracks_configured_names_frame|].
      apply frame_pause_after_error.
Qed.

End TrackerFacts.

(** X17: the tracker stays within the configuration.  After any number of
    rounds of [monitor_products], every key of [last_status] is the name of
    a configured product; so the dictionary never holds more entries than
    there are product names. *)
Theorem last_status_holds_configured_names
    (env : Env) (config : Config) (fuel : nat) (w : World) (n : string) :
  is_Some (last_status (snd (monitor_products env config fuel w)) !! n) ->
  exists p, In p (products config) /\ name p = Some n.
Proof.
  assert (H : keeps (tracks_configured_names config)
                (how ← monitor_loop env config fuel;
                 match how with
                 | stopped_by_user =>
                     quit_driver_if_any env (mret tt);; mret stopped_by_user
                 | _ => mret how
                 end)).
  { apply keeps_bind; [apply keeps_names_monitor_loop|].
    intros [| |]; (apply keeps_ghost_frame;
                   [apply tracks_configured_names_frame|]);
      try apply frame_ret.
    apply frame_bind; [|intros _; apply frame_ret].
    apply frame_quit_driver_if_any, frame_ret. }
  unfold monitor_products, logger_info, emit, set_last_status.
  rewrite !run_bind. cbv beta iota.
  apply H. intros n'. simpl. rewrite lookup_empty.
  intros [x Hx]. discriminate.
Qed.

Lemma last_status_holds_configured_names_witness :
  last_status (snd (monitor_products restocked (config_of [widget]) 2
                      initial_world)) !! "Widget" = Some false
  /\ exists p, In p [widget] /\ name p = Some "Widget".
Proof.
  split; [vm_compute; reflexivity|].
  apply (last_status_holds_configured_names restocked (config_of [widget]) 2
           initial_world "Widget").
  vm_compute. eauto.
Defined.

(** ** The test for the sold-out alert *)

Ltac either_case_of H :=
  revert H;
  match goal with
  | |- PyStr.lower_ascii ?c = _ -> _ =>
      destruct c as [[] [] [] [] [] [] [] []]
  end;
  vm_compute; intros H; try discriminate H; auto.

Lemma lower_sold_out_iff (mid : string) :
  PyStr.lower mid = "sold out" <-> spells_sold_out mid.
Proof.
  split.
  - intros H.
    destruct mid as [|c1 [|c2 [|c3 [|c4 [|c5 [|c6 [|c7 [|c8 [|c9 rest]]]]]]]]];
      simpl in H; try discriminate H.
    injection H as H1 H2 H3 H4 H5 H6 H7 H8.
    assert (c5 = " "%char) as -> by either_case_of H5.
    exists c1, c2, c3, c4, c6, c7, c8. split; [reflexivity|].
    repeat split;
      [either_case_of H1|either_case_of H2|either_case_of H3
      |either_case_of H4|either_case_of H6|either_case_of H7
      |either_case_of H8].
  - intros (c1 & c2 & c3 & c4 & c6 & c7 & c8 & -> & H1 & H2 & H3 & H4 & H6
            & H7 & H8).
    destruct H1 as [-> | ->], H2 as [-> | ->], H3 as [-> | ->],
      H4 as [-> | ->], H6 as [-> | ->], H7 as [-> | ->], H8 as [-> | ->];
      reflexivity.
Qed.

Lemma shows_sold_out_iff (text_ : string) :
  PyStr.contains "sold out" (PyStr.lower text_) = true
  <-> shows_sold_out text_.
Proof.
  rewrite sold_out_iff. unfold contains_ignoring_case, shows_sold_out.
  split; intros (pre & mid & post & -> & H); exists pre, mid, post;
    (split; [reflexivity|]); apply lower_sold_out_iff; exact H.
Qed.

(** X1: what both checkers take for the sold-out alert.  The verdict with
    the reason "Explicit 'Sold Out' alert found" is given exactly when the
    text of the alert element has, somewhere, the letters s, o, l, d, a
    blank, and o, u, t in a row, each letter small or capital: "SOLD OUT"
    and "Sold Out" count, "soldout" and "sold  out" do not. *)
Theorem sold_out_test_ignores_case :
  (forall soup : BeautifulSoup,
      requests_look_for_alert soup
      = (Some false, "Explicit 'Sold Out' alert found")
      <-> exists tag,
          select_one soup "div.alert.alert-danger.mt-3" = Some tag
          /\ shows_sold_out (text tag))
  /\ (forall (env : Env) (w : World) (alert_element : WebElement)
             (alert_text : string),
      find_element env (trace w) CSS_SELECTOR "div.alert.alert-danger"
      = inr alert_element ->
      element_text env
        (trace w ++ [FindElement CSS_SELECTOR "div.alert.alert-danger"])
        alert_element = inr alert_text ->
      fst (selenium_look_for_alert env w)
      = Ok (Some false, "Explicit 'Sold Out' alert found")
      <-> shows_sold_out alert_text).
Proof.
  split.
  - intros soup. unfold requests_look_for_alert.
    destruct (select_one soup _) as [tag|].
    + destruct (PyStr.contains _ _) eqn:Hc.
      * split; [|reflexivity]. intros _. exists tag.
        split; [reflexivity|]. apply shows_sold_out_iff. exact Hc.
      * split; [discriminate|]. intros (tag' & Htag & Hshows).
        injection Htag as <-. apply shows_sold_out_iff in Hshows.
        congruence.
    + split; [discriminate|]. intros (tag & Htag & _). discriminate.
  - intros env w el t Hfind Htext.
    unfold selenium_look_for_alert. run_monad.
    rewrite Hfind. simpl. rewrite Htext. simpl.
    destruct (PyStr.contains _ _) eqn:Hc; simpl.
    + split; [|reflexivity]. intros _. apply shows_sold_out_iff. exact Hc.
    + split; [discriminate|]. intros Hshows.
      apply shows_sold_out_iff in Hshows. congruence.
Qed.

Lemma sold_out_test_ignores_case_witness :
  shows_sold_out "Currently SOLD Out."
  /\ requests_look_for_alert (alert_page "Currently SOLD Out.")
     = (Some false, "Explicit 'Sold Out' alert found")
  /\ find_element sold_out [] CSS_SELECTOR "div.alert.alert-danger" = inr 1
  /\ fst (selenium_look_for_alert sold_out initial_world)
     = Ok (Some false, "Explicit 'Sold Out' alert found")
  /\ shows_sold_out "SOLD OUT"
  /\ ~ shows_sold_out "Soldout soon".
Proof.
  assert (H1 : shows_sold_out "Currently SOLD Out.").
  { exists "Currently ", "SOLD Out", ".". split; [reflexivity|].
    apply lower_sold_out_iff. reflexivity. }
  split; [exact H1|]. split.
  { apply (proj1 sold_out_test_ignores_case).
    exists {| text := "Currently SOLD Out." |}. split; [reflexivity|exact H1]. }
  split; [reflexivity|]. split; [reflexivity|]. split.
  { apply (proj2 sold_out_test_ignores_case sold_out initial_world 1
             "SOLD OUT" eq_refl eq_refl).
    reflexivity. }
  intros H. apply shows_sold_out_iff in H. discriminate H.
Defined.
